(** * Sanctuary API: backup upload, registration, identity proof and the
    record store, embedded from the TypeScript sources

    - [src/api/src/db/index.ts]       the SQLite wrapper [SanctuaryDb]
    - [src/api/src/routes/backups.ts] the backup routes and the agent routes
    - [src/api/src/config.ts]         the configuration and its loading
    - [src/unnamed/part_000]          the shared type declarations

    Tables that are only read and written by primary key are finite maps;
    tables that are scanned or ordered are lists of rows in insertion order.
    Integers of INTEGER columns and of [Math.floor(Date.now() / 1000)] are
    [Z] (exact for JavaScript numbers below 2^53); a REAL column and a
    number of a decoded JSON text are canonical rationals [Qc]. Strings are
    byte strings, and [toLowerCase] acts on the ASCII letters.

    A route handler is a function of the database in a small monad with
    early reply; what it draws from outside (the clock, [uuidv4()], the
    configuration) is an argument. The handlers run to their reply without
    awaiting anything, so one request is one step of the state machine. *)

From Stdlib Require Import ZArith QArith Qcanon Lqa Ascii String.
From stdpp Require Import base option strings pretty numbers gmap sorting list.

Set Warnings "-register-all".
Local Open Scope string_scope.
Local Open Scope list_scope.
Local Open Scope Z_scope.

(** ** JavaScript values produced by [JSON.parse] *)

Inductive JSON : Type :=
| JNull
| JBool (b : bool)
| JNumber (q : Qc)
| JString (s : string)
| JArray (items : list JSON)
| JObject (fields : list (string * JSON)).

(** [typeof v]; [None] stands for [undefined]. *)
Definition typeof (v : option JSON) : string :=
  match v with
  | None => "undefined"
  | Some JNull => "object"
  | Some (JBool _) => "boolean"
  | Some (JNumber _) => "number"
  | Some (JString _) => "string"
  | Some (JArray _) => "object"
  | Some (JObject _) => "object"
  end.

(** [JSON.parse] keeps the last binding of a repeated key. *)
Fixpoint assoc_last (k : string) (fields : list (string * JSON)) : option JSON :=
  match fields with
  | [] => None
  | (k', v) :: rest =>
      match assoc_last k rest with
      | Some w => Some w
      | None => if String.eqb k k' then Some v else None
      end
  end.

(** Property read [v.k] for the names the routes use (none of them is an
    array index, [length], or a member of [Object.prototype]). *)
Definition get_prop (k : string) (v : JSON) : option JSON :=
  match v with
  | JObject fields => assoc_last k fields
  | _ => None
  end.

(** Truthiness of a value, as [!v] negates it. *)
Definition truthy (v : option JSON) : bool :=
  match v with
  | None | Some JNull => false
  | Some (JBool b) => b
  | Some (JNumber q) => if decide (q = 0%Qc) then false else true
  | Some (JString s) => negb (String.eqb s "")
  | Some (JArray _) | Some (JObject _) => true
  end.

Definition is_object (v : option JSON) : bool :=
  String.eqb (typeof v) "object" && negb (if v is Some JNull then true else false).

(** ** ASCII case folding and hexadecimal patterns *)

Definition lower_ascii (c : ascii) : ascii :=
  let n := N_of_ascii c in
  if ((65 <=? n) && (n <=? 90))%N then ascii_of_N (n + 32) else c.

Fixpoint toLowerCase (s : string) : string :=
  match s with
  | EmptyString => EmptyString
  | String c rest => String (lower_ascii c) (toLowerCase rest)
  end.

Definition is_hex_digit (c : ascii) : bool :=
  let n := N_of_ascii c in
  (((48 <=? n) && (n <=? 57)) || ((65 <=? n) && (n <=? 70)) || ((97 <=? n) && (n <=? 102)))%N.

Fixpoint all_hex (s : string) : bool :=
  match s with
  | EmptyString => true
  | String c rest => is_hex_digit c && all_hex rest
  end.

(** The pattern [/^0x[a-fA-F0-9]{n}$/]. *)
Definition is_0x_hex (n : nat) (s : string) : bool :=
  match s with
  | String "0"%char (String "x"%char digits) =>
      Nat.eqb (String.length digits) n && all_hex digits
  | _ => false
  end.

(** ** validateBackupHeader (routes/backups.ts)

    [None] is the source's [null] (valid); [Some msg] the error string. *)
Definition validateBackupHeader (header : JSON) : option string :=
  if negb (is_object (Some header)) then
    Some "Backup header must be a JSON object"
  else if negb (String.eqb (typeof (get_prop "agent_id" header)) "string")
          || negb (truthy (get_prop "agent_id" header)) then
    Some "Missing or invalid field: agent_id (string)"
  else if negb (String.eqb (typeof (get_prop "backup_id" header)) "string")
          || negb (truthy (get_prop "backup_id" header)) then
    Some "Missing or invalid field: backup_id (string)"
  else if negb (String.eqb (typeof (get_prop "backup_seq" header)) "number") then
    Some "Missing or invalid field: backup_seq (number)"
  else if negb (String.eqb (typeof (get_prop "timestamp" header)) "number") then
    Some "Missing or invalid field: timestamp (number)"
  else if negb (String.eqb (typeof (get_prop "manifest_hash" header)) "string") then
    Some "Missing or invalid field: manifest_hash (string)"
  else if negb (is_object (get_prop "files" header)) then
    Some "Missing or invalid field: files (object)"
  else if negb (is_object (get_prop "wrapped_keys" header)) then
    Some "Missing or invalid field: wrapped_keys (object)"
  else if negb (String.eqb (typeof (get_prop "wrapped_keys" header ≫= get_prop "recovery")) "string")
          || negb (String.eqb (typeof (get_prop "wrapped_keys" header ≫= get_prop "recall")) "string") then
    Some "wrapped_keys must contain recovery and recall strings"
  else if negb (String.eqb (typeof (get_prop "signature" header)) "string")
          || negb (truthy (get_prop "signature" header)) then
    Some "Missing or invalid field: signature (string)"
  else None.

(** ** Rows of the record store (db/index.ts) *)

Module DbUser.
Record t := mk {
  github_id : string;
  github_username : string;
  github_created_at : string;
  created_at : Z }.
End DbUser.

Module DbAgent.
Record t := mk {
  agent_id : string;
  github_id : string;
  recovery_pubkey : string;
  manifest_hash : string;
  manifest_version : Z;
  registered_at : Z;
  status : string }.
End DbAgent.

Module DbHeartbeat.
Record t := mk {
  id : Z;
  agent_id : string;
  agent_timestamp : Z;
  received_at : Z;
  signature : string }.
End DbHeartbeat.

Module DbBackup.
Record t := mk {
  id : string;
  agent_id : string;
  arweave_tx_id : string;
  backup_seq : Z;
  agent_timestamp : Qc;
  received_at : Z;
  size_bytes : Z;
  manifest_hash : string }.
End DbBackup.

Module DbTrustScore.
Record t := mk {
  agent_id : string;
  score : Qc;
  level : string;
  unique_attesters : Z;
  computed_at : Z }.
End DbTrustScore.

Module DbAttestationNote.
Record t := mk {
  hash : string;
  content : string;
  created_at : Z }.
End DbAttestationNote.

(** The database: one field per table of the schema that the modelled
    routes touch. *)
Record SanctuaryDb := mkDb {
  users : list DbUser.t;
  agents : list DbAgent.t;
  heartbeats : list DbHeartbeat.t;
  backups : list DbBackup.t;
  trust_scores : gmap string DbTrustScore.t;
  attestation_notes : gmap string DbAttestationNote.t }.

Definition empty_db : SanctuaryDb := mkDb [] [] [] [] ∅ ∅.

Definition set_agents (f : list DbAgent.t → list DbAgent.t) (db : SanctuaryDb) :=
  mkDb (users db) (f (agents db)) (heartbeats db) (backups db)
       (trust_scores db) (attestation_notes db).

Definition set_backups (f : list DbBackup.t → list DbBackup.t) (db : SanctuaryDb) :=
  mkDb (users db) (agents db) (heartbeats db) (f (backups db))
       (trust_scores db) (attestation_notes db).

Definition set_attestation_notes
    (f : gmap string DbAttestationNote.t → gmap string DbAttestationNote.t)
    (db : SanctuaryDb) :=
  mkDb (users db) (agents db) (heartbeats db) (backups db)
       (trust_scores db) (f (attestation_notes db)).

(** *** Users and agents *)

Definition getUser (githubId : string) (db : SanctuaryDb) : option DbUser.t :=
  find (λ u, String.eqb (DbUser.github_id u) githubId) (users db).

Definition getAgent (agentId : string) (db : SanctuaryDb) : option DbAgent.t :=
  find (λ a, String.eqb (DbAgent.agent_id a) agentId) (agents db).

Definition getAgentByGithubId (githubId : string) (db : SanctuaryDb) : option DbAgent.t :=
  find (λ a, String.eqb (DbAgent.github_id a) githubId) (agents db).

(** [INSERT INTO agents]: the statement throws ([None]) on a taken primary
    key, a taken [github_id] (UNIQUE) or a [github_id] without a user row
    (FOREIGN KEY, enforced since the constructor turns [foreign_keys] on). *)
Definition createAgent (agent : DbAgent.t) (db : SanctuaryDb) : option SanctuaryDb :=
  if bool_decide (is_Some (getAgent (DbAgent.agent_id agent) db))
     || bool_decide (is_Some (getAgentByGithubId (DbAgent.github_id agent) db))
     || bool_decide (getUser (DbAgent.github_id agent) db = None)
  then None
  else Some (set_agents (λ rows, rows ++ [agent]) db).

Definition updateAgentStatus (agentId status : string) (db : SanctuaryDb) : SanctuaryDb :=
  set_agents
    (map (λ a, if String.eqb (DbAgent.agent_id a) agentId
               then DbAgent.mk (DbAgent.agent_id a) (DbAgent.github_id a)
                      (DbAgent.recovery_pubkey a) (DbAgent.manifest_hash a)
                      (DbAgent.manifest_version a) (DbAgent.registered_at a) status
               else a))
    db.

(** *** Heartbeats *)

(** The row that leads [ORDER BY key DESC]: the greatest key; among equal
    keys the order is left open by SQL, and the earliest row is taken. *)
Definition pick_greatest {A : Type} (key : A → Z) (acc : option A) (row : A) : option A :=
  match acc with
  | None => Some row
  | Some best => if key best <? key row then Some row else Some best
  end.

Definition first_by_desc {A : Type} (key : A → Z) (rows : list A) : option A :=
  foldl (pick_greatest key) None rows.

Definition getLatestHeartbeat (agentId : string) (db : SanctuaryDb) : option DbHeartbeat.t :=
  first_by_desc DbHeartbeat.received_at
    (filter (λ h, DbHeartbeat.agent_id h = agentId) (heartbeats db)).

(** *** Backups *)

Definition backups_of (agentId : string) (db : SanctuaryDb) : list DbBackup.t :=
  filter (λ b, DbBackup.agent_id b = agentId) (backups db).

(** [INSERT INTO backups]: throws ([None]) on a taken primary key [id] or
    an [agent_id] without an agent row. *)
Definition createBackup (backup : DbBackup.t) (db : SanctuaryDb) : option SanctuaryDb :=
  if existsb (λ b, String.eqb (DbBackup.id b) (DbBackup.id backup)) (backups db)
     || bool_decide (getAgent (DbBackup.agent_id backup) db = None)
  then None
  else Some (set_backups (λ rows, rows ++ [backup]) db).

Definition getLatestBackup (agentId : string) (db : SanctuaryDb) : option DbBackup.t :=
  first_by_desc DbBackup.backup_seq (backups_of agentId db).

(** Insertion of a row into a list kept in descending key order, and the
    sort built from it, for [ORDER BY backup_seq DESC]. *)
Fixpoint insert_desc {A : Type} (key : A → Z) (row : A) (sorted : list A) : list A :=
  match sorted with
  | [] => [row]
  | r :: rest =>
      if key r <? key row then row :: r :: rest
      else r :: insert_desc key row rest
  end.

Definition order_by_desc {A : Type} (key : A → Z) (rows : list A) : list A :=
  foldl (λ sorted row, insert_desc key row sorted) [] rows.

(** [LIMIT n]: a negative [n] means no limit in SQLite. *)
Definition sql_limit {A : Type} (n : Z) (rows : list A) : list A :=
  if n <? 0 then rows else take (Z.to_nat n) rows.

Definition getBackupsByAgent (agentId : string) (limit : Z) (db : SanctuaryDb)
  : list DbBackup.t :=
  sql_limit limit (order_by_desc DbBackup.backup_seq (backups_of agentId db)).

Definition getBackupCount (agentId : string) (db : SanctuaryDb) : Z :=
  Z.of_nat (length (backups_of agentId db)).

Definition getNextBackupSeq (agentId : string) (db : SanctuaryDb) : Z :=
  match getLatestBackup agentId db with
  | Some latest => DbBackup.backup_seq latest + 1
  | None => 1
  end.

(** *** Trust scores *)

Definition getTrustScore (agentId : string) (db : SanctuaryDb) : option DbTrustScore.t :=
  trust_scores db !! agentId.

(** *** Attestation notes *)

(** [INSERT OR IGNORE]: a row whose [hash] is taken is skipped. *)
Definition createAttestationNote (note : DbAttestationNote.t) (db : SanctuaryDb)
  : SanctuaryDb :=
  match attestation_notes db !! DbAttestationNote.hash note with
  | Some _ => db
  | None => set_attestation_notes (insert (DbAttestationNote.hash note) note) db
  end.

Definition getAttestationNote (hash : string) (db : SanctuaryDb)
  : option DbAttestationNote.t :=
  attestation_notes db !! hash.

(** ** Configuration (config.ts), the fields the routes read *)

Record Config := mkConfig {
  port : Z;
  publicUrl : string;
  jwtSecret : string;
  contractAddress : string;
  chainId : Z;
  backupSizeLimit : Z }.

(** ** Replies *)

Record BackupInfo := mkBackupInfo {
  info_id : string;
  info_backup_seq : Z;
  info_arweave_tx_id : string;
  info_timestamp : Qc;
  info_received_at : Z;
  info_size_bytes : Z;
  info_manifest_hash : string }.

Definition backup_info (b : DbBackup.t) : BackupInfo :=
  mkBackupInfo (DbBackup.id b) (DbBackup.backup_seq b) (DbBackup.arweave_tx_id b)
    (DbBackup.agent_timestamp b) (DbBackup.received_at b) (DbBackup.size_bytes b)
    (DbBackup.manifest_hash b).

(** The payload of an identity proof; the fields are declared in the order
    of the object literal of the proof route. *)
Record ProofPayload := mkPayload {
  agent_id : string;
  backup_count : Z;
  chain_id : Z;
  contract_address : string;
  issued_at : Z;
  last_heartbeat : option Z;
  registered_at : Z;
  status : string;
  trust_level : string;
  trust_score : Qc }.

Record IdentityProof := mkProof {
  payload : ProofPayload;
  proof_hash : string;
  server_signature : string;
  verify_url : string }.

Inductive ReplyData : Type :=
| UploadData (backup_id : string) (backup_seq : Z) (arweave_tx_id : string)
    (size_bytes received_at : Z)
| BackupListData (agent_id : string) (count : Z) (backups : list BackupInfo)
| LatestBackupData (backup : BackupInfo)
| RegisterData (agent_id : string) (registered_at : Z) (status : string)
| ProofData (proof : IdentityProof).

(** [reply.status(code).send({success, error, existing_agent_id, data})] *)
Record Reply := mkReply {
  code : Z;
  success : bool;
  error : option string;
  existing_agent_id : option string;
  data : option ReplyData }.

Definition failure (code : Z) (msg : string) : Reply :=
  mkReply code false (Some msg) None None.

Definition succeed (code : Z) (d : ReplyData) : Reply :=
  mkReply code true None None (Some d).

(** An exception that escapes a handler is answered by the framework with
    status 500 (its body has no [success] field; the model reads that as a
    failure). *)
Definition uncaught (msg : string) : Reply := failure 500 msg.

(** ** The handler monad

    A handler reads and writes the database, calls the cryptography
    helpers (each call is recorded in the trace, oldest first) and either
    goes on with a value or has sent its reply. *)

Inductive CryptoCall : Type :=
| VerifySignature (header : JSON) (agentId : string)
| Sha256 (message : string)
| HmacSha256 (key message : string).

Record World := mkWorld {
  world_db : SanctuaryDb;
  world_trace : list CryptoCall }.

Inductive Outcome (A : Type) : Type :=
| Continue (a : A)
| Sent (r : Reply).
Arguments Continue {A} a.
Arguments Sent {A} r.

Definition Handler (A : Type) : Type := World → World * Outcome A.

Global Instance handler_ret : MRet Handler := λ A a w, (w, Continue a).

Global Instance handler_bind : MBind Handler := λ A B f m w,
  match m w with
  | (w', Continue a) => f a w'
  | (w', Sent r) => (w', Sent r)
  end.

(** [return reply...send(...)] *)
Definition send {A : Type} (r : Reply) : Handler A := λ w, (w, Sent r).

(** [if (cond) return reply...send(...)] *)
Definition reject_if (cond : bool) (r : Reply) : Handler () :=
  if cond then send r else mret ().

Definition query {A : Type} (q : SanctuaryDb → A) : Handler A :=
  λ w, (w, Continue (q (world_db w))).

(** A statement that may throw; the exception is not caught by the routes. *)
Definition execute (stmt : SanctuaryDb → option SanctuaryDb) : Handler () :=
  λ w, match stmt (world_db w) with
       | Some db' => (mkWorld db' (world_trace w), Continue ())
       | None => (w, Sent (uncaught "SqliteError"))
       end.

Definition crypto {A : Type} (call : CryptoCall) (result : A) : Handler A :=
  λ w, (mkWorld (world_db w) (world_trace w ++ [call]), Continue result).

(** The result of serving one request on a database. *)
Record Served := mkServed {
  served_db : SanctuaryDb;
  served_trace : list CryptoCall;
  served_reply : Reply }.

Definition serve (h : Handler Reply) (db : SanctuaryDb) : Served :=
  match h (mkWorld db []) with
  | (w, Continue r) | (w, Sent r) => mkServed (world_db w) (world_trace w) r
  end.

(** ** JSON.stringify on the values of an identity proof *)

Definition dquote : ascii := ascii_of_N 34.
Definition backslash : ascii := ascii_of_N 92.

Definition hex_char (n : N) : ascii :=
  if (n <? 10)%N then ascii_of_N (48 + n) else ascii_of_N (87 + n).

(** One character inside a quoted string: the quote and the backslash are
    escaped, control characters get their short escape or [\u00xx]. *)
Definition JSON_escape (c : ascii) : string :=
  let n := N_of_ascii c in
  if (n =? 34)%N then String backslash (String dquote "")
  else if (n =? 92)%N then String backslash (String backslash "")
  else if (n =? 8)%N then String backslash "b"
  else if (n =? 9)%N then String backslash "t"
  else if (n =? 10)%N then String backslash "n"
  else if (n =? 12)%N then String backslash "f"
  else if (n =? 13)%N then String backslash "r"
  else if (n <? 32)%N then
    String backslash ("u00" +:+ String (hex_char (n / 16)) (String (hex_char (n mod 16)) ""))
  else String c "".

Fixpoint JSON_escape_all (s : string) : string :=
  match s with
  | EmptyString => EmptyString
  | String c rest => JSON_escape c +:+ JSON_escape_all rest
  end.

Definition JSON_quote (s : string) : string :=
  String dquote (JSON_escape_all s +:+ String dquote "").

(** An integer below 10^21 prints in plain decimal. *)
Definition JSON_integer (n : Z) : string := pretty n.

Definition JSON_nullable_integer (n : option Z) : string :=
  match n with
  | Some z => JSON_integer z
  | None => "null"
  end.

(** The members of an object, in insertion order; each value is already
    serialised. *)
Fixpoint JSON_members (entries : list (string * string)) : string :=
  match entries with
  | [] => ""
  | [(k, v)] => JSON_quote k +:+ ":" +:+ v
  | (k, v) :: rest => JSON_quote k +:+ ":" +:+ v +:+ "," +:+ JSON_members rest
  end.

Definition JSON_object (entries : list (string * string)) : string :=
  "{" +:+ JSON_members entries +:+ "}".

(** *** Reading a serialisation back *)

Definition unhex (c : ascii) : N :=
  let n := N_of_ascii c in
  if (n <? 58)%N then (n - 48)%N else (n - 87)%N.

(** The character that a serialised string starts with, and what follows
    it: the inverse of [JSON_escape] at the head of a string. *)
Definition JSON_unescape_head (s : string) : option (ascii * string) :=
  match s with
  | EmptyString => None
  | String c rest =>
      if negb (N_of_ascii c =? 92)%N then Some (c, rest)
      else match rest with
           | EmptyString => None
           | String e rest' =>
               let n := N_of_ascii e in
               if (n =? 98)%N then Some (ascii_of_N 8, rest')
               else if (n =? 116)%N then Some (ascii_of_N 9, rest')
               else if (n =? 110)%N then Some (ascii_of_N 10, rest')
               else if (n =? 102)%N then Some (ascii_of_N 12, rest')
               else if (n =? 114)%N then Some (ascii_of_N 13, rest')
               else if (n =? 117)%N then
                 match rest' with
                 | String _ (String _ (String h (String l rest''))) =>
                     Some (ascii_of_N (16 * unhex h + unhex l), rest'')
                 | _ => None
                 end
               else Some (e, rest')
           end
  end.

(** The characters of a decimal integer, and those of an integer or [null]. *)
Definition numeric_char (c : ascii) : bool :=
  let n := N_of_ascii c in
  ((48 <=? n) && (n <=? 57) || (n =? 45))%N.

Definition token_char (c : ascii) : bool :=
  numeric_char c || bool_decide (c ∈ ["n"; "u"; "l"]%char).

Fixpoint all_chars (P : ascii → bool) (s : string) : bool :=
  match s with
  | EmptyString => true
  | String c rest => P c && all_chars P rest
  end.

(** Strictly ascending in the byte order of strings. *)
Fixpoint ascending (keys : list string) : bool :=
  match keys with
  | k1 :: ((k2 :: _) as rest) => String.ltb k1 k2 && ascending rest
  | _ => true
  end.

Definition PROOF_FIELDS : list string :=
  [ "agent_id"; "backup_count"; "chain_id"; "contract_address"; "issued_at";
    "last_heartbeat"; "registered_at"; "status"; "trust_level"; "trust_score" ].

(** ** Requests *)

(** What the route finds in [X-Backup-Header]: nothing usable (absent,
    empty or not a string), text that [JSON.parse] rejects after the base64
    decoding, or a decoded value. *)
Inductive HeaderField : Type :=
| HeaderAbsent
| HeaderUndecodable
| HeaderDecoded (backupHeader : JSON).

(** [agentId] is [request.agentId], set by the [verifyAgentAuth]
    pre-handler; the handlers run only after it has let the request pass. *)
Record UploadRequest := mkUpload {
  upload_agentId : string;
  x_backup_header : HeaderField;
  upload_body : option (list Byte.byte) }.

(** Values the upload handler draws from its environment: two calls of
    [uuidv4()] and two readings of the clock, in seconds. *)
Record UploadEnv := mkUploadEnv {
  uuid_arweave : string;
  now_at_limit : Z;
  uuid_backup : string;
  now_at_receipt : Z }.

Record JwtClaims := mkJwt {
  jwt_type : string;
  jwt_githubId : option string }.

(** [jwt] is [None] when [request.jwtVerify()] throws. *)
Record RegisterRequest := mkRegister {
  jwt : option JwtClaims;
  body_agentId : option string;
  body_recoveryPubKey : option string;
  body_manifestHash : option string;
  body_manifestVersion : option Z }.

Record AgentRequest := mkAgentRequest {
  params_agentId : string;
  request_agentId : string;
  query_limit : option Z }.

Definition SECONDS_PER_DAY : Z := 24 * 60 * 60.

(** [Math.ceil(a / b)] for a positive divisor. *)
Definition ceil_div (a b : Z) : Z := - ((- a) / b).

(** [v || fallback] for a value validated as a number or as a string. *)
Definition number_or (v : option JSON) (fallback : Qc) : Qc :=
  match v with
  | Some (JNumber q) => if truthy v then q else fallback
  | _ => fallback
  end.

Definition string_or (v : option JSON) (fallback : string) : string :=
  match v with
  | Some (JString s) => if truthy v then s else fallback
  | _ => fallback
  end.

Definition present (s : option string) : bool :=
  match s with
  | Some v => negb (String.eqb v "")
  | None => false
  end.

(** ** Trust tiers (shared types) *)

Inductive TrustLevel : Type := UNVERIFIED | VERIFIED | ESTABLISHED | PILLAR.

Module TRUST_THRESHOLDS.
Definition UNVERIFIED : Z := 0.
Definition VERIFIED : Z := 20.
Definition ESTABLISHED : Z := 50.
Definition PILLAR : Z := 100.
End TRUST_THRESHOLDS.

(** Modelled from the spec: the tiering function of section 4.5; the
    sources declare only the constant [TRUST_THRESHOLDS], the function that
    turns a score into a level is not among them. The tier is a step
    function of the score: below 20 UNVERIFIED, from 20 below 50 VERIFIED,
    from 50 below 100 ESTABLISHED, from 100 PILLAR. *)
Definition trustLevelOf (score : Qc) : TrustLevel :=
  if decide (score < Qc_of_Z TRUST_THRESHOLDS.VERIFIED)%Qc then UNVERIFIED
  else if decide (score < Qc_of_Z TRUST_THRESHOLDS.ESTABLISHED)%Qc then VERIFIED
  else if decide (score < Qc_of_Z TRUST_THRESHOLDS.PILLAR)%Qc then ESTABLISHED
  else PILLAR.

(** ** SHA-256 and HMAC-SHA256

    The digests of the platform ([createHash], [createHmac]), written out
    from FIPS 180-4 and RFC 2104 on bytes and 32-bit words in [Z]; the
    examples instantiate the routes with them. *)

Module SHA256.

Definition mask32 : Z := 0xffffffff.
Definition add32 (a b : Z) : Z := Z.land (a + b) mask32.
Definition rotr (n x : Z) : Z :=
  Z.lor (Z.shiftr x n) (Z.land (Z.shiftl x (32 - n)) mask32).
Definition xor3 (a b c : Z) : Z := Z.lxor (Z.lxor a b) c.

Definition Ch (x y z : Z) : Z := Z.lxor (Z.land x y) (Z.land (Z.lxor x mask32) z).
Definition Maj (x y z : Z) : Z := xor3 (Z.land x y) (Z.land x z) (Z.land y z).
Definition Sigma0 (x : Z) : Z := xor3 (rotr 2 x) (rotr 13 x) (rotr 22 x).
Definition Sigma1 (x : Z) : Z := xor3 (rotr 6 x) (rotr 11 x) (rotr 25 x).
Definition sigma0 (x : Z) : Z := xor3 (rotr 7 x) (rotr 18 x) (Z.shiftr x 3).
Definition sigma1 (x : Z) : Z := xor3 (rotr 17 x) (rotr 19 x) (Z.shiftr x 10).

(** The round constants and the initial state are the first 32 bits of the
    fractional parts of the cube roots of the first 64 primes and of the
    square roots of the first 8. *)
Definition is_prime (p : Z) : bool :=
  forallb (λ d, negb (p mod d =? 0)) (seqZ 2 (p - 2)).

Definition primes : list Z := List.filter is_prime (seqZ 2 310).

Fixpoint cube_root_bits (bits : nat) (n r : Z) : Z :=
  match bits with
  | O => r
  | S bits' =>
      let r' := r + 2 ^ Z.of_nat bits' in
      cube_root_bits bits' n (if r' * r' * r' <=? n then r' else r)
  end.

Definition K : list Z :=
  Eval vm_compute in
    (λ p, Z.land (cube_root_bits 40 (Z.shiftl p 96) 0) mask32) <$> take 64 primes.

Definition H0 : list Z :=
  Eval vm_compute in (λ p, Z.land (Z.sqrt (Z.shiftl p 64)) mask32) <$> take 8 primes.

(** Big-endian bytes of a number, [n] of them. *)
Fixpoint be_bytes (n : nat) (x : Z) : list Z :=
  match n with
  | O => []
  | S n' => Z.land (Z.shiftr x (8 * Z.of_nat n')) 0xff :: be_bytes n' x
  end.

Definition be_word (bytes : list Z) : Z :=
  foldl (λ acc b, Z.lor (Z.shiftl acc 8) b) 0 bytes.

(** The message, the byte 0x80, zeros up to 56 modulo 64, and the length
    in bits on eight bytes. *)
Definition pad (message : list Z) : list Z :=
  let len := length message in
  let zeros := ((55 + 64 - len mod 64) mod 64)%nat in
  message ++ [0x80] ++ replicate zeros 0 ++ be_bytes 8 (8 * Z.of_nat len).

Fixpoint chunks (fuel size : nat) (bytes : list Z) : list (list Z) :=
  match fuel, bytes with
  | O, _ | _, [] => []
  | S fuel', _ => take size bytes :: chunks fuel' size (drop size bytes)
  end.

(** The schedule is kept newest first: [W(t-2)] is at index 1. *)
Definition extend (w : list Z) : list Z :=
  add32 (add32 (sigma1 (w !!! 1%nat)) (w !!! 6%nat))
        (add32 (sigma0 (w !!! 14%nat)) (w !!! 15%nat)) :: w.

Definition schedule (block : list Z) : list Z :=
  let w16 := reverse (be_word <$> chunks 16 4 block) in
  reverse (Nat.iter 48 extend w16).

Definition round (state : list Z) (kw : Z * Z) : list Z :=
  match state with
  | [a; b; c; d; e; f; g; h] =>
      let t1 := add32 (add32 (add32 h (Sigma1 e)) (add32 (Ch e f g) kw.1)) kw.2 in
      let t2 := add32 (Sigma0 a) (Maj a b c) in
      [add32 t1 t2; a; b; c; add32 d t1; e; f; g]
  | _ => state
  end.

Definition compress (state block : list Z) : list Z :=
  zip_with add32 state (foldl round state (zip K (schedule block))).

Definition digest (message : list Z) : list Z :=
  let padded := pad message in
  foldl compress H0 (chunks (length padded) 64 padded) ≫= be_bytes 4.

Definition hex_digit (n : Z) : ascii :=
  ascii_of_N (Z.to_N (if n <? 10 then 48 + n else 87 + n)).

Fixpoint to_hex (bytes : list Z) : string :=
  match bytes with
  | [] => ""
  | b :: rest => String (hex_digit (Z.shiftr b 4)) (String (hex_digit (Z.land b 15)) (to_hex rest))
  end.

Fixpoint bytes_of (s : string) : list Z :=
  match s with
  | EmptyString => []
  | String c rest => Z.of_N (N_of_ascii c) :: bytes_of rest
  end.

(** [createHash('sha256').update(message).digest('hex')] *)
Definition hex (message : string) : string := to_hex (digest (bytes_of message)).

Definition hmac (key message : list Z) : list Z :=
  let key' := if decide (64 < length key)%nat then digest key else key in
  let block := key' ++ replicate (64 - length key') 0 in
  digest ((Z.lxor 0x5c <$> block) ++ digest ((Z.lxor 0x36 <$> block) ++ message)).

(** [createHmac('sha256', key).update(message).digest('hex')] *)
Definition hmac_hex (key message : string) : string :=
  to_hex (hmac (bytes_of key) (bytes_of message)).

End SHA256.

(** ** The other statements of the record store (db/index.ts) *)

Definition set_users (f : list DbUser.t → list DbUser.t) (db : SanctuaryDb) :=
  mkDb (f (users db)) (agents db) (heartbeats db) (backups db) (trust_scores db)
    (attestation_notes db).

Definition set_heartbeats (f : list DbHeartbeat.t → list DbHeartbeat.t) (db : SanctuaryDb) :=
  mkDb (users db) (agents db) (f (heartbeats db)) (backups db) (trust_scores db)
    (attestation_notes db).

Definition set_trust_scores
    (f : gmap string DbTrustScore.t → gmap string DbTrustScore.t) (db : SanctuaryDb) :=
  mkDb (users db) (agents db) (heartbeats db) (backups db) (f (trust_scores db))
    (attestation_notes db).

(** [INSERT INTO users]: throws ([None]) on a taken primary key. *)
Definition createUser (user : DbUser.t) (db : SanctuaryDb) : option SanctuaryDb :=
  if bool_decide (is_Some (getUser (DbUser.github_id user) db)) then None
  else Some (set_users (λ rows, rows ++ [user]) db).

Definition getUserByUsername (username : string) (db : SanctuaryDb) : option DbUser.t :=
  find (λ u, String.eqb (DbUser.github_username u) username) (users db).

Definition updateAgentManifest (agentId manifestHash : string) (manifestVersion : Z)
    (db : SanctuaryDb) : SanctuaryDb :=
  set_agents
    (map (λ a, if String.eqb (DbAgent.agent_id a) agentId
               then DbAgent.mk (DbAgent.agent_id a) (DbAgent.github_id a)
                      (DbAgent.recovery_pubkey a) manifestHash manifestVersion
                      (DbAgent.registered_at a) (DbAgent.status a)
               else a))
    db.

Definition getAllAgents (db : SanctuaryDb) : list DbAgent.t := agents db.

Definition getAgentsByStatus (status : string) (db : SanctuaryDb) : list DbAgent.t :=
  filter (λ a, DbAgent.status a = status) (agents db).

(** [id INTEGER PRIMARY KEY AUTOINCREMENT]: one more than the greatest id
    the table has held; no statement of the store deletes a heartbeat. *)
Definition next_heartbeat_id (db : SanctuaryDb) : Z :=
  1 + foldr Z.max 0 (DbHeartbeat.id <$> heartbeats db).

(** [INSERT INTO heartbeats], the row given without its [id]: throws
    ([None]) on an [agent_id] without an agent row. *)
Definition createHeartbeat (agentId : string) (agentTimestamp receivedAt : Z)
    (signature : string) (db : SanctuaryDb) : option SanctuaryDb :=
  if bool_decide (getAgent agentId db = None) then None
  else Some (set_heartbeats
               (λ rows, rows ++ [DbHeartbeat.mk (next_heartbeat_id db) agentId agentTimestamp
                                   receivedAt signature])
               db).

(** [SELECT agent_id, MAX(received_at) ... GROUP BY agent_id], read at one
    agent: [None] when the agent has no group, the [NULL] of the left
    join. *)
Definition max_received_at (agentId : string) (db : SanctuaryDb) : option Z :=
  match DbHeartbeat.received_at
          <$> filter (λ h, DbHeartbeat.agent_id h = agentId) (heartbeats db) with
  | [] => None
  | t :: times => Some (foldr Z.max t times)
  end.

(** [h.last_heartbeat IS NULL OR h.last_heartbeat < cutoff] *)
Definition null_or_before (last_heartbeat : option Z) (cutoff : Z) : bool :=
  match last_heartbeat with
  | None => true
  | Some t => t <? cutoff
  end.

(** [now] is [Math.floor(Date.now() / 1000)]; the threshold is given in
    whole seconds. *)
Definition getAgentsWithoutRecentHeartbeat (now thresholdSeconds : Z) (db : SanctuaryDb)
  : list DbAgent.t :=
  let cutoff := now - thresholdSeconds in
  filter (λ a, DbAgent.status a = "LIVING"
               ∧ null_or_before (max_received_at (DbAgent.agent_id a) db) cutoff = true)
    (agents db).

Definition getBackup (id : string) (db : SanctuaryDb) : option DbBackup.t :=
  find (λ b, String.eqb (DbBackup.id b) id) (backups db).

(** [INSERT ... ON CONFLICT(agent_id) DO UPDATE]: the row replaces the one
    of its agent; throws ([None]) on an [agent_id] without an agent row. *)
Definition upsertTrustScore (score : DbTrustScore.t) (db : SanctuaryDb)
  : option SanctuaryDb :=
  if bool_decide (getAgent (DbTrustScore.agent_id score) db = None) then None
  else Some (set_trust_scores (insert (DbTrustScore.agent_id score) score) db).

(** *** Auth challenges

    The table [auth_challenges] is referenced by no other table; its four
    statements are modelled on the table itself, keyed by the primary key
    [nonce]. *)

Module DbAuthChallenge.
Record t := mk {
  nonce : string;
  agent_id : string;
  expires_at : Z;
  used : Z }.
End DbAuthChallenge.

Abbreviation AuthChallenges := (gmap string DbAuthChallenge.t).

(** [INSERT INTO auth_challenges]: throws ([None]) on a taken nonce. *)
Definition createAuthChallenge (challenge : DbAuthChallenge.t) (table : AuthChallenges)
  : option AuthChallenges :=
  match table !! DbAuthChallenge.nonce challenge with
  | Some _ => None
  | None => Some (<[DbAuthChallenge.nonce challenge := challenge]> table)
  end.

Definition getAuthChallenge (nonce : string) (table : AuthChallenges)
  : option DbAuthChallenge.t :=
  table !! nonce.

Definition markChallengeUsed (nonce : string) (table : AuthChallenges) : AuthChallenges :=
  alter (λ c, DbAuthChallenge.mk (DbAuthChallenge.nonce c) (DbAuthChallenge.agent_id c)
                (DbAuthChallenge.expires_at c) 1)
    nonce table.

(** [DELETE ... WHERE expires_at < now]; the second component is
    [result.changes], the number of deleted rows. *)
Definition cleanupExpiredChallenges (now : Z) (table : AuthChallenges)
  : AuthChallenges * Z :=
  let kept := filter (λ kc, ¬ DbAuthChallenge.expires_at kc.2 < now) table in
  (kept, Z.of_nat (size table) - Z.of_nat (size kept)).

(** The store keeps every row of [auth_challenges] under its own nonce. *)
Definition keyed_by_nonce (table : AuthChallenges) : Prop :=
  ∀ nonce challenge, table !! nonce = Some challenge → DbAuthChallenge.nonce challenge = nonce.

(** ** Loading the configuration (config.ts) *)

(** The outcome of code that may throw an [Error] with a message. *)
Inductive Thrown (A : Type) : Type :=
| Value (a : A)
| Throws (message : string).
Arguments Value {A} a.
Arguments Throws {A} message.

Definition and_then {A B : Type} (x : Thrown A) (k : A → Thrown B) : Thrown B :=
  match x with
  | Value a => k a
  | Throws message => Throws message
  end.

Module FullConfig.
Record t := mk {
  port : Z;
  host : string;
  nodeEnv : string;
  publicUrl : string;
  databasePath : string;
  jwtSecret : string;
  jwtTtlSeconds : Z;
  githubClientId : string;
  githubClientSecret : string;
  baseRpcUrl : string;
  contractAddress : string;
  ownerPrivateKey : string;
  chainId : Z;
  irysPrivateKey : string;
  irysNode : string;
  challengeTtlSeconds : Z;
  githubMinAgeDays : Z;
  backupSizeLimit : Z }.
End FullConfig.

(** [process.env]: a variable is unset or holds a string. *)
Definition requireEnv (name : string) (env : gmap string string) : Thrown string :=
  match env !! name with
  | Some value =>
      if String.eqb value "" then Throws ("Missing required environment variable: " +:+ name)
      else Value value
  | None => Throws ("Missing required environment variable: " +:+ name)
  end.

Definition optionalEnv (name defaultValue : string) (env : gmap string string) : string :=
  match env !! name with
  | Some value => if String.eqb value "" then defaultValue else value
  | None => defaultValue
  end.


(** The environment with the variables that hold the empty string taken
    out. *)
Definition unset_empty (env : gmap string string) : gmap string string :=
  filter (λ kv, kv.2 ≠ "") env.

(** The part of the configuration that the routes read. *)
Definition routes_config (config : FullConfig.t) : Config :=
  mkConfig (FullConfig.port config) (FullConfig.publicUrl config)
    (FullConfig.jwtSecret config) (FullConfig.contractAddress config)
    (FullConfig.chainId config) (FullConfig.backupSizeLimit config).

(** ** Replies of the public agent routes *)

Record AgentInfo := mkAgentInfo {
  agent_info_agent_id : string;
  agent_info_github_username : option string;
  agent_info_recovery_pubkey : string;
  agent_info_manifest_hash : string;
  agent_info_manifest_version : Z;
  agent_info_registered_at : Z;
  agent_info_status : string }.

Record AgentSummary := mkAgentSummary {
  summary_agent_id : string;
  summary_github_username : option string;
  summary_manifest_hash : string;
  summary_manifest_version : Z;
  summary_registered_at : Z;
  summary_status : string }.

Record TrustSummary := mkTrustSummary {
  summary_score : Qc;
  summary_level : string;
  summary_unique_attesters : Z;
  summary_computed_at : option Z }.

Record LatestSummary := mkLatestSummary {
  latest_id : string;
  latest_backup_seq : Z;
  latest_arweave_tx_id : string;
  latest_timestamp : Qc;
  latest_size_bytes : Z }.

Record AgentStatus := mkAgentStatus {
  status_agent : AgentSummary;
  status_trust : TrustSummary;
  status_backup_count : Z;
  status_backup_latest : option LatestSummary;
  status_last_seen : option Z }.


(** ** Sample data used by the examples *)

Definition alice : string := "0xaaaaaaaaaaaaaaaaaaaaaaaaaaaaaaaaaaaaaaaa".
Definition bob : string := "0xbbbbbbbbbbbbbbbbbbbbbbbbbbbbbbbbbbbbbbbb".
Definition dave : string := "0xdddddddddddddddddddddddddddddddddddddddd".
Definition key32 : string :=
  "0x1111111111111111111111111111111111111111111111111111111111111111".

Definition sample_config : Config :=
  mkConfig 3000 "" "server-secret" "0xcccccccccccccccccccccccccccccccccccccccc" 84532
    (5 * 1024 * 1024).

Definition alice_user : DbUser.t := DbUser.mk "gh-1" "alice" "2020-01-01" 1700000000.
Definition carol_user : DbUser.t := DbUser.mk "gh-3" "carol" "2020-01-01" 1700000000.

Definition alice_agent (status : string) : DbAgent.t :=
  DbAgent.mk alice "gh-1" key32 key32 1 1700000000 status.

(** One registered agent and no backup. *)
Definition sample_db (status : string) : SanctuaryDb :=
  mkDb [alice_user; carol_user] [alice_agent status] [] [] ∅ ∅.

(** A header with every field of [BackupHeader]. *)
Definition complete_header : JSON :=
  JObject [ ("version", JString "1.0");
            ("agent_id", JString alice);
            ("backup_id", JString "backup-1");
            ("backup_seq", JNumber (Qc_of_Z 1));
            ("timestamp", JNumber (Qc_of_Z 1700000100));
            ("manifest_hash", JString key32);
            ("manifest_version", JNumber (Qc_of_Z 1));
            ("prev_backup_hash", JString "");
            ("files", JObject [("manifest", JObject [("size", JNumber (Qc_of_Z 3));
                                                     ("content_hash", JString key32)])]);
            ("wrapped_keys", JObject [("recovery", JString "wr"); ("recall", JString "wc")]);
            ("signature", JString "0xsignature") ].

(** A header with every field that [validateBackupHeader] looks at, and
    without [manifest_version] and [prev_backup_hash]. *)
Definition header_without_manifest_version : JSON :=
  JObject [ ("agent_id", JString alice);
            ("backup_id", JString "backup-1");
            ("backup_seq", JNumber (Qc_of_Z 1));
            ("timestamp", JNumber (Qc_of_Z 1700000100));
            ("manifest_hash", JString key32);
            ("files", JObject []);
            ("wrapped_keys", JObject [("recovery", JString "wr"); ("recall", JString "wc")]);
            ("signature", JString "0xsignature") ].

Definition sample_upload (header : HeaderField) : UploadRequest :=
  mkUpload alice header (Some [Byte.x01; Byte.x02; Byte.x03]).

Definition sample_env (uuid : string) (now : Z) : UploadEnv :=
  mkUploadEnv (uuid +:+ "-tx") now uuid now.

(** Stand-ins for the helpers of [utils/crypto.js] where an example needs
    concrete ones: a verifier that accepts every signature, the usual shape
    of an Ethereum address ([0x] and forty hexadecimal digits) and its
    lower-case form. *)
Definition accept_all (header : JSON) (agentId : string) : bool := true.
Definition hex_address (s : string) : bool := is_0x_hex 40 s.
Definition lower_address (s : string) : string := toLowerCase s.

(** A stand-in for the number printer, again for the examples only: an
    integral value in decimal, any other as a fraction. *)
Definition fraction_toString (q : Qc) : string :=
  if (Z.pos (Qden q) =? 1) then pretty (Qnum q)
  else pretty (Qnum q) +:+ "/" +:+ pretty (Z.pos (Qden q)).

Definition sample_register (agentId : string) : RegisterRequest :=
  mkRegister (Some (mkJwt "github" (Some "gh-3"))) (Some agentId)
    (Some key32) (Some key32) (Some 1).

(** A stand-in for [parseInt(value, 10)], for the examples only, on text
    without leading blanks: an optional sign and the longest run of
    decimal digits, [None] when there is no digit. *)
Fixpoint leading_digits (s : string) (acc : option Z) : option Z :=
  match s with
  | String c rest =>
      let n := N_of_ascii c in
      if ((48 <=? n) && (n <=? 57))%N
      then leading_digits rest (Some (10 * default 0 acc + Z.of_N (n - 48)))
      else acc
  | EmptyString => acc
  end.

Definition decimal_parseInt (s : string) : option Z :=
  match s with
  | String "-"%char rest => Z.opp <$> leading_digits rest None
  | String "+"%char rest => leading_digits rest None
  | _ => leading_digits s None
  end.

(** ** The routes

    [utils/crypto.js] ([isValidAddress], [normalizeAddress],
    [verifyBackupHeaderSignature]) is not part of the modelled sources, and
    neither are the digest functions of the platform nor its printing of a
    fractional number: the routes are parameterised over them. *)

Section Routes.
Variable verifyBackupHeaderSignature : JSON → string → bool.
Variable isValidAddress : string → bool.
Variable normalizeAddress : string → string.
Variable sha256_hex : string → string.
Variable hmac_sha256_hex : string → string → string.
Variable Number_toString : Qc → string.
Variable parseInt10 : string → option Z.

(** *** POST /backups/upload

    The handler of the source is one function; it is cut here at its
    comments: the header (decoded, validated, matched with the caller,
    signature), the body size, the agent, the daily limit, the record. *)

Definition decodeHeader (req : UploadRequest) : Handler JSON :=
  match x_backup_header req with
  | HeaderAbsent => send (failure 400 "Missing X-Backup-Header")
  | HeaderUndecodable => send (failure 400 "Invalid X-Backup-Header (must be base64 JSON)")
  | HeaderDecoded backupHeader => mret backupHeader
  end.

Definition checkHeader (agentId : string) (backupHeader : JSON) : Handler () :=
  match validateBackupHeader backupHeader with
  | Some headerError => send (failure 400 ("Invalid backup header: " +:+ headerError))
  | None => mret ()
  end;;
  header_agent_id ←
    match get_prop "agent_id" backupHeader with
    | Some (JString s) => mret s
    | _ => send (uncaught "TypeError")
    end;
  reject_if (negb (String.eqb (toLowerCase header_agent_id) (toLowerCase agentId)))
    (failure 403 "Backup header agent_id does not match authenticated agent");;
  valid ← crypto (VerifySignature backupHeader agentId)
                 (verifyBackupHeaderSignature backupHeader agentId);
  reject_if (negb valid) (failure 403 "Invalid backup header signature").

Definition checkBody (cfg : Config) (req : UploadRequest) : Handler Z :=
  match upload_body req with
  | None => send (failure 400 "Empty backup body")
  | Some body =>
      let size := Z.of_nat (length body) in
      reject_if (size =? 0) (failure 400 "Empty backup body");;
      reject_if (backupSizeLimit cfg <? size)
        (failure 413 ("Backup exceeds size limit (" +:+ pretty (backupSizeLimit cfg) +:+ " bytes)"));;
      mret size
  end.

Definition checkAgent (agentId : string) : Handler () :=
  agent ← query (getAgent agentId);
  match agent with
  | None => send (failure 404 "Agent not found")
  | Some agent =>
      reject_if (negb (String.eqb (DbAgent.status agent) "LIVING")
                 && negb (String.eqb (DbAgent.status agent) "RETURNED"))
        (failure 403 ("Agent status is " +:+ DbAgent.status agent +:+ ", cannot upload backup"))
  end.

Definition dailyLimitReply (timeSinceLastBackup : Z) : Reply :=
  let hoursRemaining := ceil_div (SECONDS_PER_DAY - timeSinceLastBackup) 3600 in
  failure 429 ("Daily backup limit reached. Try again in " +:+ pretty hoursRemaining +:+ " hour(s).").

Definition checkDailyLimit (agentId : string) (now : Z) : Handler () :=
  latestBackup ← query (getLatestBackup agentId);
  match latestBackup with
  | Some latest =>
      let timeSinceLastBackup := now - DbBackup.received_at latest in
      reject_if (timeSinceLastBackup <? SECONDS_PER_DAY) (dailyLimitReply timeSinceLastBackup)
  | None => mret ()
  end.

Definition recordBackup (env : UploadEnv) (agentId : string) (backupHeader : JSON)
    (size : Z) : Handler Reply :=
  let arweaveTxId := "simulated_" +:+ uuid_arweave env in
  backupSeq ← query (getNextBackupSeq agentId);
  let backupId := uuid_backup env in
  let receivedAt := now_at_receipt env in
  execute (createBackup
    (DbBackup.mk backupId agentId arweaveTxId backupSeq
       (number_or (get_prop "timestamp" backupHeader) (Qc_of_Z receivedAt))
       receivedAt size
       (string_or (get_prop "manifest_hash" backupHeader) "")));;
  mret (succeed 201 (UploadData backupId backupSeq arweaveTxId size receivedAt)).

Definition uploadBackup (cfg : Config) (env : UploadEnv) (req : UploadRequest)
  : Handler Reply :=
  let agentId := upload_agentId req in
  backupHeader ← decodeHeader req;
  checkHeader agentId backupHeader;;
  size ← checkBody cfg req;
  checkAgent agentId;;
  checkDailyLimit agentId (now_at_limit env);;
  recordBackup env agentId backupHeader size.

(** *** GET /backups/:agentId and GET /backups/:agentId/latest *)

Definition listBackups (req : AgentRequest) : Handler Reply :=
  let agentId := params_agentId req in
  let limit := match query_limit req with
               | Some n => if n =? 0 then 30 else n
               | None => 30
               end in
  reject_if (negb (isValidAddress agentId)) (failure 400 "Invalid agent ID");;
  let normalizedId := normalizeAddress agentId in
  reject_if (negb (String.eqb (toLowerCase normalizedId) (toLowerCase (request_agentId req))))
    (failure 403 "Cannot list backups for another agent");;
  backups ← query (getBackupsByAgent normalizedId (Z.min limit 100));
  mret (succeed 200
          (BackupListData normalizedId (Z.of_nat (length backups)) (map backup_info backups))).

Definition latestBackup (req : AgentRequest) : Handler Reply :=
  let agentId := params_agentId req in
  reject_if (negb (isValidAddress agentId)) (failure 400 "Invalid agent ID");;
  let normalizedId := normalizeAddress agentId in
  reject_if (negb (String.eqb (toLowerCase normalizedId) (toLowerCase (request_agentId req))))
    (failure 403 "Cannot view backups for another agent");;
  backup ← query (getLatestBackup normalizedId);
  match backup with
  | None => send (failure 404 "No backups found for agent")
  | Some backup => mret (succeed 200 (LatestBackupData (backup_info backup)))
  end.

(** *** POST /agents/register *)

Definition registerAgent (now : Z) (req : RegisterRequest) : Handler Reply :=
  decoded ← match jwt req with
            | None => send (failure 401 "Authentication required")
            | Some decoded => mret decoded
            end;
  githubId ← match jwt_githubId decoded with
             | Some g =>
                 if negb (String.eqb (jwt_type decoded) "github") || String.eqb g ""
                 then send (failure 401 "GitHub authentication required for registration")
                 else mret g
             | None => send (failure 401 "GitHub authentication required for registration")
             end;
  reject_if (negb (present (body_agentId req))
             || negb (isValidAddress (default "" (body_agentId req))))
    (failure 400 "Invalid agent ID (must be valid Ethereum address)");;
  let agentId := default "" (body_agentId req) in
  reject_if (negb (present (body_recoveryPubKey req))
             || negb (is_0x_hex 64 (default "" (body_recoveryPubKey req))))
    (failure 400 "Invalid recovery public key (must be 32 bytes hex)");;
  let recoveryPubKey := default "" (body_recoveryPubKey req) in
  reject_if (negb (present (body_manifestHash req))
             || negb (is_0x_hex 64 (default "" (body_manifestHash req))))
    (failure 400 "Invalid manifest hash");;
  let manifestHash := default "" (body_manifestHash req) in
  let normalizedId := normalizeAddress agentId in
  existingAgent ← query (getAgent normalizedId);
  reject_if (bool_decide (is_Some existingAgent)) (failure 409 "Agent already registered");;
  existingAgentForUser ← query (getAgentByGithubId githubId);
  match existingAgentForUser with
  | Some existing =>
      send (mkReply 409 false (Some "GitHub account already has a registered agent")
              (Some (DbAgent.agent_id existing)) None)
  | None => mret ()
  end;;
  user ← query (getUser githubId);
  reject_if (bool_decide (user = None))
    (failure 400 "User not found. Complete GitHub auth first.");;
  let manifestVersion := match body_manifestVersion req with
                         | Some v => if v =? 0 then 1 else v
                         | None => 1
                         end in
  execute (createAgent
    (DbAgent.mk normalizedId githubId (toLowerCase recoveryPubKey)
       (toLowerCase manifestHash) manifestVersion now "LIVING"));;
  mret (succeed 201 (RegisterData normalizedId now "LIVING")).

(** *** POST /agents/:agentId/proof *)

(** [JSON.stringify(payload)]: the members in the order of the object
    literal; [trust_score] comes from a REAL column and is printed by the
    platform. *)
Definition payload_entries (p : ProofPayload) : list (string * string) :=
  [ ("agent_id", JSON_quote (agent_id p));
    ("backup_count", JSON_integer (backup_count p));
    ("chain_id", JSON_integer (chain_id p));
    ("contract_address", JSON_quote (contract_address p));
    ("issued_at", JSON_integer (issued_at p));
    ("last_heartbeat", JSON_nullable_integer (last_heartbeat p));
    ("registered_at", JSON_integer (registered_at p));
    ("status", JSON_quote (status p));
    ("trust_level", JSON_quote (trust_level p));
    ("trust_score", Number_toString (trust_score p)) ].

Definition JSON_stringify (p : ProofPayload) : string :=
  JSON_object (payload_entries p).

Definition buildPayload (cfg : Config) (now : Z) (agent : DbAgent.t)
    (trustScore : option DbTrustScore.t) (latestHeartbeat : option DbHeartbeat.t)
    (backupCount : Z) : ProofPayload :=
  {| agent_id := DbAgent.agent_id agent;
     backup_count := backupCount;
     chain_id := chainId cfg;
     contract_address := contractAddress cfg;
     issued_at := now;
     last_heartbeat :=
       match latestHeartbeat with
       | Some h => if DbHeartbeat.received_at h =? 0 then None
                   else Some (DbHeartbeat.received_at h)
       | None => None
       end;
     registered_at := DbAgent.registered_at agent;
     status := DbAgent.status agent;
     trust_level :=
       match trustScore with
       | Some t => if String.eqb (DbTrustScore.level t) "" then "UNVERIFIED"
                   else DbTrustScore.level t
       | None => "UNVERIFIED"
       end;
     trust_score :=
       match trustScore with
       | Some t => if decide (DbTrustScore.score t = 0%Qc) then 0%Qc
                   else DbTrustScore.score t
       | None => 0%Qc
       end |}.

Definition signPayload (cfg : Config) (normalizedId : string) (p : ProofPayload)
  : Handler IdentityProof :=
  let payloadJson := JSON_stringify p in
  proofHash ← crypto (Sha256 payloadJson) (sha256_hex payloadJson);
  serverSignature ← crypto (HmacSha256 (jwtSecret cfg) proofHash)
                           (hmac_sha256_hex (jwtSecret cfg) proofHash);
  mret {| payload := p;
          proof_hash := proofHash;
          server_signature := serverSignature;
          verify_url :=
            if negb (String.eqb (publicUrl cfg) "")
            then publicUrl cfg +:+ "/agents/" +:+ normalizedId +:+ "/status"
            else "http://localhost:" +:+ pretty (port cfg) +:+ "/agents/"
                 +:+ normalizedId +:+ "/status" |}.

Definition generateProof (cfg : Config) (now : Z) (req : AgentRequest) : Handler Reply :=
  let agentId := params_agentId req in
  reject_if (negb (isValidAddress agentId)) (failure 400 "Invalid agent ID");;
  let normalizedId := normalizeAddress agentId in
  reject_if (negb (String.eqb normalizedId (request_agentId req)))
    (failure 403 "Can only generate proof for your own agent");;
  agent ← query (getAgent normalizedId);
  match agent with
  | None => send (failure 404 "Agent not found")
  | Some agent =>
      trustScore ← query (getTrustScore normalizedId);
      latestHeartbeat ← query (getLatestHeartbeat normalizedId);
      backupCount ← query (getBackupCount normalizedId);
      proof ← signPayload cfg normalizedId
                (buildPayload cfg now agent trustScore latestHeartbeat backupCount);
      mret (succeed 200 (ProofData proof))
  end.

(** Modelled from the spec: [IdentityProof.verify] of section 4.6; no
    verifier is among the sources. A third party recomputes the digest
    over the payload fields as given, compares it with [proof_hash], and
    checks [server_signature] against the shared secret. *)
Definition verifyProof (secret : string) (proof : IdentityProof) : bool :=
  String.eqb (sha256_hex (JSON_stringify (payload proof))) (proof_hash proof)
  && String.eqb (hmac_sha256_hex secret (proof_hash proof)) (server_signature proof).

(** *** GET /agents/:agentId and GET /agents/:agentId/status

    The two routes have no pre-handler. A handler that goes on with a
    value sends it as [{success: true, data}] under the default status
    200. *)

Definition agentInfo (agentId : string) : Handler AgentInfo :=
  reject_if (negb (isValidAddress agentId)) (failure 400 "Invalid agent ID");;
  let normalizedId := normalizeAddress agentId in
  agent ← query (getAgent normalizedId);
  match agent with
  | None => send (failure 404 "Agent not found")
  | Some agent =>
      user ← query (getUser (DbAgent.github_id agent));
      mret {| agent_info_agent_id := DbAgent.agent_id agent;
              agent_info_github_username := DbUser.github_username <$> user;
              agent_info_recovery_pubkey := DbAgent.recovery_pubkey agent;
              agent_info_manifest_hash := DbAgent.manifest_hash agent;
              agent_info_manifest_version := DbAgent.manifest_version agent;
              agent_info_registered_at := DbAgent.registered_at agent;
              agent_info_status := DbAgent.status agent |}
  end.

Definition agentStatus (agentId : string) : Handler AgentStatus :=
  reject_if (negb (isValidAddress agentId)) (failure 400 "Invalid agent ID");;
  let normalizedId := normalizeAddress agentId in
  agent ← query (getAgent normalizedId);
  match agent with
  | None => send (failure 404 "Agent not found")
  | Some agent =>
      user ← query (getUser (DbAgent.github_id agent));
      trustScore ← query (getTrustScore normalizedId);
      latestHeartbeat ← query (getLatestHeartbeat normalizedId);
      latestBackup ← query (getLatestBackup normalizedId);
      backupCount ← query (getBackupCount normalizedId);
      mret {| status_agent :=
                {| summary_agent_id := DbAgent.agent_id agent;
                   summary_github_username := DbUser.github_username <$> user;
                   summary_manifest_hash := DbAgent.manifest_hash agent;
                   summary_manifest_version := DbAgent.manifest_version agent;
                   summary_registered_at := DbAgent.registered_at agent;
                   summary_status := DbAgent.status agent |};
              status_trust :=
                match trustScore with
                | Some t =>
                    {| summary_score := DbTrustScore.score t;
                       summary_level := DbTrustScore.level t;
                       summary_unique_attesters := DbTrustScore.unique_attesters t;
                       summary_computed_at := Some (DbTrustScore.computed_at t) |}
                | None =>
                    {| summary_score := 0%Qc;
                       summary_level := "UNVERIFIED";
                       summary_unique_attesters := 0;
                       summary_computed_at := None |}
                end;
              status_backup_count := backupCount;
              status_backup_latest :=
                match latestBackup with
                | Some b =>
                    Some {| latest_id := DbBackup.id b;
                            latest_backup_seq := DbBackup.backup_seq b;
                            latest_arweave_tx_id := DbBackup.arweave_tx_id b;
                            latest_timestamp := DbBackup.agent_timestamp b;
                            latest_size_bytes := DbBackup.size_bytes b |}
                | None => None
                end;
              status_last_seen :=
                match latestHeartbeat with
                | Some h => if DbHeartbeat.received_at h =? 0 then None
                            else Some (DbHeartbeat.received_at h)
                | None => None
                end |}
  end.

(** *** loadConfig (config.ts)

    [parseInt10] is [parseInt(value, 10)] of the platform, [None] standing
    for [NaN]. *)

Definition optionalEnvInt (name : string) (defaultValue : Z) (env : gmap string string)
  : Thrown Z :=
  match env !! name with
  | Some value =>
      if String.eqb value "" then Value defaultValue
      else match parseInt10 value with
           | Some parsed => Value parsed
           | None => Throws ("Invalid integer for " +:+ name +:+ ": " +:+ value)
           end
  | None => Value defaultValue
  end.

(** The members of the object literal are evaluated in their order, so the
    first variable that fails decides the error. *)
Definition loadConfig (env : gmap string string) : Thrown FullConfig.t :=
  and_then (optionalEnvInt "PORT" 3000 env) (λ port,
  let host := optionalEnv "HOST" "0.0.0.0" env in
  let nodeEnv := optionalEnv "NODE_ENV" "development" env in
  let publicUrl := optionalEnv "PUBLIC_URL" "" env in
  let databasePath := optionalEnv "DATABASE_PATH" "./sanctuary.db" env in
  and_then (requireEnv "JWT_SECRET" env) (λ jwtSecret,
  and_then (optionalEnvInt "JWT_TTL_SECONDS" 86400 env) (λ jwtTtlSeconds,
  and_then (requireEnv "GITHUB_CLIENT_ID" env) (λ githubClientId,
  and_then (requireEnv "GITHUB_CLIENT_SECRET" env) (λ githubClientSecret,
  let baseRpcUrl := optionalEnv "BASE_RPC_URL" "https://sepolia.base.org" env in
  let contractAddress := optionalEnv "CONTRACT_ADDRESS" "" env in
  let ownerPrivateKey := optionalEnv "OWNER_PRIVATE_KEY" "" env in
  and_then (optionalEnvInt "CHAIN_ID" 84532 env) (λ chainId,
  let irysPrivateKey := optionalEnv "IRYS_PRIVATE_KEY" "" env in
  let irysNode := optionalEnv "IRYS_NODE" "https://node2.irys.xyz" env in
  and_then (optionalEnvInt "CHALLENGE_TTL_SECONDS" 300 env) (λ challengeTtlSeconds,
  and_then (optionalEnvInt "GITHUB_MIN_AGE_DAYS" 30 env) (λ githubMinAgeDays,
  and_then (optionalEnvInt "BACKUP_SIZE_LIMIT" (5 * 1024 * 1024) env) (λ backupSizeLimit,
  Value (FullConfig.mk port host nodeEnv publicUrl databasePath jwtSecret jwtTtlSeconds
           githubClientId githubClientSecret baseRpcUrl contractAddress ownerPrivateKey
           chainId irysPrivateKey irysNode challengeTtlSeconds githubMinAgeDays
           backupSizeLimit)))))))))).

(** A variable that [optionalEnvInt] can read: unset, empty, or text that
    [parseInt] turns into a number. *)
Definition readable_int (name : string) (env : gmap string string) : Prop :=
  match env !! name with
  | Some value => value = "" ∨ is_Some (parseInt10 value)
  | None => True
  end.

(** *** The service as a state machine *)

Inductive Request : Type :=
| Upload (cfg : Config) (env : UploadEnv) (req : UploadRequest)
| Register (now : Z) (req : RegisterRequest)
| ListBackups (req : AgentRequest)
| LatestBackup (req : AgentRequest)
| GenerateProof (cfg : Config) (now : Z) (req : AgentRequest)
| UpdateAgentStatus (agentId status : string)
| CreateAttestationNote (note : DbAttestationNote.t).

Definition handle (db : SanctuaryDb) (r : Request) : SanctuaryDb :=
  match r with
  | Upload cfg env req => served_db (serve (uploadBackup cfg env req) db)
  | Register now req => served_db (serve (registerAgent now req) db)
  | ListBackups req => served_db (serve (listBackups req) db)
  | LatestBackup req => served_db (serve (latestBackup req) db)
  | GenerateProof cfg now req => served_db (serve (generateProof cfg now req) db)
  | UpdateAgentStatus agentId status => updateAgentStatus agentId status db
  | CreateAttestationNote note => createAttestationNote note db
  end.

(** The database after a history of requests, oldest first. *)
Definition run (db : SanctuaryDb) (history : list Request) : SanctuaryDb :=
  foldl handle db history.

(** *** Notions used by the properties *)

(** The agent is in the store with status LIVING or RETURNED. *)
Definition active (db : SanctuaryDb) (agentId : string) : Prop :=
  ∃ agent, getAgent agentId db = Some agent
           ∧ (DbAgent.status agent = "LIVING" ∨ DbAgent.status agent = "RETURNED").

(** An upload that passes every check that precedes the daily limit. *)
Definition well_formed_upload (cfg : Config) (db : SanctuaryDb) (req : UploadRequest)
  : Prop :=
  ∃ header id body agent,
    x_backup_header req = HeaderDecoded header
    ∧ validateBackupHeader header = None
    ∧ get_prop "agent_id" header = Some (JString id)
    ∧ toLowerCase id = toLowerCase (upload_agentId req)
    ∧ verifyBackupHeaderSignature header (upload_agentId req) = true
    ∧ upload_body req = Some body
    ∧ 0 < Z.of_nat (length body) ≤ backupSizeLimit cfg
    ∧ getAgent (upload_agentId req) db = Some agent
    ∧ (DbAgent.status agent = "LIVING" ∨ DbAgent.status agent = "RETURNED").

(** The rows of one agent, in the order they were accepted, are numbered
    1, 2, 3, ... *)
Definition gapless (rows : list DbBackup.t) : Prop :=
  ∀ i row, rows !! i = Some row → DbBackup.backup_seq row = Z.of_nat i + 1.

(** Reached from a database without backups by a history of requests. *)
Definition reachable (db : SanctuaryDb) : Prop :=
  ∃ db0 history, backups db0 = [] ∧ run db0 history = db.

(** The id under which a registration request ends up stored, if it is
    accepted. *)
Definition registeredId (now : Z) (req : RegisterRequest) (db : SanctuaryDb)
  : option string :=
  match data (served_reply (serve (registerAgent now req) db)) with
  | Some (RegisterData agent_id _ _) => Some agent_id
  | _ => None
  end.

Definition with_agentId (agentId : string) (req : RegisterRequest) : RegisterRequest :=
  mkRegister (jwt req) (Some agentId) (body_recoveryPubKey req)
    (body_manifestHash req) (body_manifestVersion req).

(** The stored id is out of the caller's hands: requests that differ only
    in the [agentId] they carry are stored under the same id. *)
Definition agent_id_not_chosen_by_caller : Prop :=
  ∀ now db req supplied supplied' stored stored',
    registeredId now (with_agentId supplied req) db = Some stored →
    registeredId now (with_agentId supplied' req) db = Some stored' →
    stored = stored'.

(** A request for the data of agent [params_agentId req] is refused: it
    fails, carries no data, leaves the database and computes no digest; the
    status is 403 for a well-formed id and 400 for a malformed one. *)
Definition refused (req : AgentRequest) (db : SanctuaryDb) (s : Served) : Prop :=
  success (served_reply s) = false
  ∧ data (served_reply s) = None
  ∧ served_db s = db
  ∧ served_trace s = []
  ∧ code (served_reply s) = (if isValidAddress (params_agentId req) then 403 else 400).

(** A proof with its payload replaced and its digest and signature kept. *)
Definition with_payload (tampered : ProofPayload) (proof : IdentityProof) : IdentityProof :=
  mkProof tampered (proof_hash proof) (server_signature proof) (verify_url proof).

(** A registration request that passes the checks of the token and of the
    body: a GitHub token with an id, a non-empty address that
    [isValidAddress] accepts, and a recovery key and a manifest hash of
    the form [0x] and 64 hexadecimal digits. *)
Definition well_formed_registration (req : RegisterRequest)
    (githubId supplied recoveryPubKey manifestHash : string) : Prop :=
  (∃ decoded, jwt req = Some decoded
              ∧ jwt_type decoded = "github"
              ∧ jwt_githubId decoded = Some githubId)
  ∧ githubId ≠ ""
  ∧ body_agentId req = Some supplied
  ∧ supplied ≠ ""
  ∧ isValidAddress supplied = true
  ∧ body_recoveryPubKey req = Some recoveryPubKey
  ∧ is_0x_hex 64 recoveryPubKey = true
  ∧ body_manifestHash req = Some manifestHash
  ∧ is_0x_hex 64 manifestHash = true.

(** The row that an accepted registration stores. *)
Definition registered_row (now : Z) (req : RegisterRequest)
    (githubId supplied recoveryPubKey manifestHash : string) : DbAgent.t :=
  DbAgent.mk (normalizeAddress supplied) githubId (toLowerCase recoveryPubKey)
    (toLowerCase manifestHash)
    (match body_manifestVersion req with
     | Some v => if v =? 0 then 1 else v
     | None => 1
     end)
    now "LIVING".

(** The key and reference constraints of the schema: the primary keys of
    [users], [agents], [backups] and [heartbeats], UNIQUE on
    [agents.github_id], and the FOREIGN KEY clauses; the two tables kept
    as maps hold each row under its own key. *)
Definition integrity (db : SanctuaryDb) : Prop :=
  NoDup (DbUser.github_id <$> users db)
  ∧ NoDup (DbAgent.agent_id <$> agents db)
  ∧ NoDup (DbAgent.github_id <$> agents db)
  ∧ (∀ a, a ∈ agents db → is_Some (getUser (DbAgent.github_id a) db))
  ∧ NoDup (DbBackup.id <$> backups db)
  ∧ (∀ b, b ∈ backups db → is_Some (getAgent (DbBackup.agent_id b) db))
  ∧ NoDup (DbHeartbeat.id <$> heartbeats db)
  ∧ (∀ h, h ∈ heartbeats db → is_Some (getAgent (DbHeartbeat.agent_id h) db))
  ∧ (∀ agentId score, trust_scores db !! agentId = Some score →
       DbTrustScore.agent_id score = agentId ∧ is_Some (getAgent agentId db))
  ∧ (∀ hash note, attestation_notes db !! hash = Some note →
       DbAttestationNote.hash note = hash).

(** One step of the service: a request to a route, or one of the writing
    statements of the store that the modelled routes do not call. A
    statement that throws leaves the database as it was. *)
Inductive Statement : Type :=
| Route (r : Request)
| CreateUser (user : DbUser.t)
| CreateHeartbeat (agentId : string) (agentTimestamp receivedAt : Z) (signature : string)
| UpsertTrustScore (score : DbTrustScore.t)
| UpdateAgentManifest (agentId manifestHash : string) (manifestVersion : Z).

Definition perform (db : SanctuaryDb) (statement : Statement) : SanctuaryDb :=
  match statement with
  | Route r => handle db r
  | CreateUser user => default db (createUser user db)
  | CreateHeartbeat agentId agentTimestamp receivedAt signature =>
      default db (createHeartbeat agentId agentTimestamp receivedAt signature db)
  | UpsertTrustScore score => default db (upsertTrustScore score db)
  | UpdateAgentManifest agentId manifestHash manifestVersion =>
      updateAgentManifest agentId manifestHash manifestVersion db
  end.

(** ** Properties *)

(** *** Stepping through a handler *)

Ltac handler_unfold :=
  unfold serve, uploadBackup, decodeHeader, checkHeader, checkBody, checkAgent,
    checkDailyLimit, recordBackup, listBackups, latestBackup, registerAgent,
    generateProof, signPayload, reject_if, query, execute, crypto, send,
    mbind, handler_bind, mret, handler_ret in *.

Ltac handler_cases :=
  handler_unfold; cbn [world_db world_trace served_db served_trace served_reply] in *;
  repeat (case_match; cbn [world_db world_trace served_db served_trace served_reply] in *;
          simplify_eq);
  cbn [world_db world_trace served_db served_trace served_reply] in *.

Lemma eqb_false_ne (a b : string) : String.eqb a b = false → a ≠ b.
Proof. intros H ->. by rewrite String.eqb_refl in H. Qed.

Lemma eqb_true_eq (a b : string) : String.eqb a b = true → a = b.
Proof. by intros ?%String.eqb_eq. Qed.

(** *** Backup upload *)

Lemma rejected_header_skips_signature cfg env req db header headerError :
  x_backup_header req = HeaderDecoded header →
  validateBackupHeader header = Some headerError →
  serve (uploadBackup cfg env req) db
  = mkServed db [] (failure 400 ("Invalid backup header: " +:+ headerError)).
Proof. intros Hh Hv. handler_unfold. by rewrite Hh, Hv. Qed.

(** Every header that passes [validateBackupHeader] has the fields the
    function looks at; [manifest_version] and [prev_backup_hash] are not
    among them. *)
Lemma validated_header_fields header :
  validateBackupHeader header = None →
  (∃ agent_id, get_prop "agent_id" header = Some (JString agent_id) ∧ agent_id ≠ "")
  ∧ (∃ backup_id, get_prop "backup_id" header = Some (JString backup_id) ∧ backup_id ≠ "")
  ∧ (∃ backup_seq, get_prop "backup_seq" header = Some (JNumber backup_seq))
  ∧ (∃ timestamp, get_prop "timestamp" header = Some (JNumber timestamp))
  ∧ (∃ manifest_hash, get_prop "manifest_hash" header = Some (JString manifest_hash))
  ∧ is_object (get_prop "files" header) = true
  ∧ (∃ recovery recall,
       get_prop "wrapped_keys" header ≫= get_prop "recovery" = Some (JString recovery)
       ∧ get_prop "wrapped_keys" header ≫= get_prop "recall" = Some (JString recall))
  ∧ (∃ signature, get_prop "signature" header = Some (JString signature) ∧ signature ≠ "").
Proof.
  unfold validateBackupHeader. intros Hv.
  repeat (case_match; [done|]).
  repeat match goal with
         | H : _ || _ = false |- _ => apply orb_false_iff in H as [? ?]
         | H : negb _ = false |- _ => apply negb_false_iff in H
         end.
  repeat match goal with
         | H : String.eqb (typeof ?v) _ = true |- _ =>
             destruct v as [[]|] eqn:?; try discriminate H; clear H
         end;
    split_and!; eauto;
    eexists; (split; [done|]);
    match goal with
    | H : truthy _ = true |- _ => cbn in H; by apply negb_true_iff, eqb_false_ne in H
    end.
Qed.

(** A header that lacks one of the fields the function looks at is
    answered 400 before the signature is looked at. *)
Lemma missing_checked_field_is_rejected cfg env req db header field :
  x_backup_header req = HeaderDecoded header →
  field ∈ [ "agent_id"; "backup_id"; "backup_seq"; "timestamp"; "manifest_hash";
            "files"; "wrapped_keys"; "signature" ] →
  get_prop field header = None →
  ∃ headerError,
    validateBackupHeader header = Some headerError
    ∧ serve (uploadBackup cfg env req) db
      = mkServed db [] (failure 400 ("Invalid backup header: " +:+ headerError)).
Proof.
  intros Hreq Hfield Hmissing.
  destruct (validateBackupHeader header) as [headerError|] eqn:Hv.
  { exists headerError. split; [done|]. by apply (rejected_header_skips_signature _ _ _ _ header). }
  exfalso.
  destruct (validated_header_fields header Hv)
    as ((? & Ha & _) & (? & Hb & _) & (? & Hs) & (? & Ht) & (? & Hm) & Hf
        & (? & ? & Hw & _) & (? & Hg & _)).
  repeat (apply elem_of_cons in Hfield as [->|Hfield]); try congruence.
  - by rewrite Hmissing in Hf.
  - by rewrite Hmissing in Hw.
  - by apply elem_of_nil in Hfield.
Qed.

(** A header without [manifest_version] and [prev_backup_hash] passes the
    schema check, and the route goes on to verify its signature. *)
Lemma unchecked_header_reaches_signature :
  validateBackupHeader header_without_manifest_version = None
  ∧ served_trace
      (serve (uploadBackup sample_config (sample_env "u1" 1700000200)
                (sample_upload (HeaderDecoded header_without_manifest_version)))
         (sample_db "LIVING"))
    = [VerifySignature header_without_manifest_version alice].
Proof.
  split; [reflexivity|].
  handler_unfold. cbn.
  by destruct (verifyBackupHeaderSignature _ _).
Qed.

(** The handler writes once, as its last step: a reply that is not the
    acceptance leaves the database as it was. *)
Lemma upload_failed_keeps_db cfg env req db :
  success (served_reply (serve (uploadBackup cfg env req) db)) = false →
  served_db (serve (uploadBackup cfg env req) db) = db.
Proof. handler_cases; done. Qed.

Lemma upload_reply_codes cfg env req db :
  code (served_reply (serve (uploadBackup cfg env req) db))
  ∈ [201; 400; 403; 404; 413; 429; 500].
Proof. handler_cases; set_solver. Qed.

(** C9. Backup upload is atomic on failure: whenever the upload is
    answered with a failure (whatever the reason: missing, undecodable or
    malformed header, agent_id mismatch, bad signature, empty or oversize
    body, unknown or inactive agent, daily limit, or a failed insert), the
    database is left as it was, so no backup record is created and the
    backup count and the latest sequence number of every agent are
    unchanged. *)
Theorem upload_failure_is_atomic cfg env req db :
  let s := serve (uploadBackup cfg env req) db in
  success (served_reply s) = false →
  served_db s = db
  ∧ backups (served_db s) = backups db
  ∧ ∀ agentId,
      getBackupCount agentId (served_db s) = getBackupCount agentId db
      ∧ getLatestBackup agentId (served_db s) = getLatestBackup agentId db
      ∧ getNextBackupSeq agentId (served_db s) = getNextBackupSeq agentId db.
Proof.
  intros s Hfail. subst s. by rewrite (upload_failed_keeps_db cfg env req db Hfail).
Qed.

(** C6. An upload is accepted only for an agent that is in the store with
    status LIVING or RETURNED at that moment; for an agent that is absent,
    FALLEN or UNREGISTERED the upload is answered with an error and the
    database, hence the backup table, is unchanged. *)
Theorem upload_requires_active_agent cfg env req db :
  let s := serve (uploadBackup cfg env req) db in
  (success (served_reply s) = true → active db (upload_agentId req))
  ∧ (getAgent (upload_agentId req) db = None
     ∨ (∃ agent, getAgent (upload_agentId req) db = Some agent
                 ∧ (DbAgent.status agent = "FALLEN"
                    ∨ DbAgent.status agent = "UNREGISTERED")) →
     success (served_reply s) = false
     ∧ is_Some (error (served_reply s))
     ∧ served_db s = db
     ∧ backups (served_db s) = backups db).
Proof.
  intros s. subst s. split.
  - unfold active. handler_cases; try done;
      intros _; eexists; (split; [done|]);
      match goal with
      | H : negb _ && negb _ = false |- _ =>
          apply andb_false_iff in H as [H|H]; apply negb_false_iff, eqb_true_eq in H
      end; auto.
  - intros Hst.
    assert (∀ agent, getAgent (upload_agentId req) db = Some agent →
              negb (String.eqb (DbAgent.status agent) "LIVING")
              && negb (String.eqb (DbAgent.status agent) "RETURNED") = true) as Hdead.
    { intros agent Hget. destruct Hst as [Hnone|(agent' & Hget' & [Hs|Hs])];
        simplify_eq; by rewrite Hs. }
    handler_cases; try done;
      try (destruct Hst as [?|(? & ? & ?)]; congruence);
      try (match goal with
           | H : getAgent _ _ = Some ?a |- _ => specialize (Hdead a H); congruence
           end).
Qed.

(** *** Sequence numbers *)

Lemma gapless_snoc rows row :
  gapless rows →
  DbBackup.backup_seq row = Z.of_nat (length rows) + 1 →
  gapless (rows ++ [row]).
Proof.
  intros Hrows Hrow i r Hi.
  destruct (decide (i < length rows)%nat) as [Hlt|Hge].
  - rewrite lookup_app_l in Hi by done. by apply Hrows.
  - rewrite lookup_app_r in Hi by lia.
    destruct (i - length rows)%nat as [|k] eqn:Hk; simplify_eq/=.
    replace i with (length rows) by lia. done.
Qed.

Lemma gapless_last rows latest :
  gapless rows → last rows = Some latest →
  DbBackup.backup_seq latest = Z.of_nat (length rows).
Proof.
  intros Hrows Hlast. rewrite last_lookup in Hlast.
  destruct rows as [|r rows]; [done|].
  apply Hrows in Hlast. simpl in *. lia.
Qed.

Lemma gapless_below_length rows b :
  gapless rows → b ∈ rows → 1 ≤ DbBackup.backup_seq b ≤ Z.of_nat (length rows).
Proof.
  intros Hrows [i Hi]%list_elem_of_lookup.
  pose proof (lookup_lt_Some _ _ _ Hi). apply Hrows in Hi. lia.
Qed.

Lemma latest_of_gapless rows :
  gapless rows → first_by_desc DbBackup.backup_seq rows = last rows.
Proof.
  induction rows as [|row rows IH] using rev_ind; [done|].
  intros Hall. rewrite last_snoc. unfold first_by_desc in *. rewrite foldl_snoc.
  assert (gapless rows) as Hrows.
  { intros i r Hi. apply Hall. by apply lookup_app_l_Some. }
  rewrite IH by done.
  destruct (last rows) as [best|] eqn:Hlast; [|done].
  assert (DbBackup.backup_seq row = Z.of_nat (length rows) + 1) as Hrow.
  { apply Hall. rewrite lookup_app_r by lia. by rewrite Nat.sub_diag. }
  pose proof (gapless_last _ _ Hrows Hlast). simpl.
  destruct (Z.ltb_spec (DbBackup.backup_seq best) (DbBackup.backup_seq row)); [done|lia].
Qed.

Lemma next_seq_of_gapless agentId db :
  gapless (backups_of agentId db) →
  getNextBackupSeq agentId db = Z.of_nat (length (backups_of agentId db)) + 1.
Proof.
  intros Hrows. unfold getNextBackupSeq, getLatestBackup.
  rewrite latest_of_gapless by done.
  destruct (last _) as [latest|] eqn:Hlast.
  - by rewrite (gapless_last _ _ Hrows Hlast).
  - apply last_None in Hlast. by rewrite Hlast.
Qed.

(** What an accepted upload stores. *)
Lemma upload_accepted_row cfg env req db :
  let s := serve (uploadBackup cfg env req) db in
  success (served_reply s) = true →
  ∃ row, backups (served_db s) = backups db ++ [row]
         ∧ DbBackup.agent_id row = upload_agentId req
         ∧ DbBackup.backup_seq row = getNextBackupSeq (upload_agentId req) db
         ∧ DbBackup.received_at row = now_at_receipt env
         ∧ DbBackup.id row = uuid_backup env
         ∧ served_reply s
           = succeed 201 (UploadData (DbBackup.id row) (DbBackup.backup_seq row)
                            (DbBackup.arweave_tx_id row) (DbBackup.size_bytes row)
                            (DbBackup.received_at row)).
Proof.
  intros s. subst s. handler_cases; try done; intros _;
    match goal with
    | H : createBackup ?row _ = Some _ |- _ =>
        exists row; unfold createBackup in H; case_match; simplify_eq; done
    end.
Qed.

(** Every request leaves the backup table alone or appends the row of an
    accepted upload, numbered by [getNextBackupSeq]. *)
Lemma handle_backups db r :
  backups (handle db r) = backups db
  ∨ ∃ row, backups (handle db r) = backups db ++ [row]
           ∧ DbBackup.backup_seq row = getNextBackupSeq (DbBackup.agent_id row) db.
Proof.
  destruct r as [cfg env req|now req|req|req|cfg now req|agentId status|note]; simpl.
  - destruct (success (served_reply (serve (uploadBackup cfg env req) db))) eqn:Hok.
    + right. destruct (upload_accepted_row cfg env req db Hok) as (row & ? & Ha & ? & _).
      exists row. by rewrite Ha.
    + left. by rewrite (upload_failed_keeps_db cfg env req db Hok).
  - left. handler_cases; try done;
      match goal with
      | H : createAgent _ _ = Some _ |- _ => unfold createAgent in H; case_match; by simplify_eq
      end.
  - left. handler_cases; done.
  - left. handler_cases; done.
  - left. handler_cases; done.
  - by left.
  - left. unfold createAttestationNote. by case_match.
Qed.

Lemma backups_of_snoc agentId db db' row :
  backups db' = backups db ++ [row] →
  backups_of agentId db'
  = backups_of agentId db ++ (if decide (DbBackup.agent_id row = agentId) then [row] else []).
Proof.
  intros Hb. unfold backups_of. by rewrite Hb, filter_app.
Qed.

Lemma handle_gapless db r :
  (∀ agentId, gapless (backups_of agentId db)) →
  ∀ agentId, gapless (backups_of agentId (handle db r)).
Proof.
  intros Hinv agentId.
  destruct (handle_backups db r) as [Hsame|(row & Happ & Hseq)].
  - unfold backups_of. rewrite Hsame. apply Hinv.
  - rewrite (backups_of_snoc agentId db _ row Happ). case_decide as Hid.
    + subst agentId. apply gapless_snoc; [apply Hinv|].
      by rewrite Hseq, next_seq_of_gapless.
    + rewrite app_nil_r. apply Hinv.
Qed.

Lemma reachable_gapless db agentId : reachable db → gapless (backups_of agentId db).
Proof.
  intros (db0 & history & Hempty & <-). revert agentId.
  induction history as [|r history IH] using rev_ind; intros agentId.
  - unfold backups_of. simpl. rewrite Hempty. by intros i row Hi.
  - unfold run. rewrite foldl_snoc. by apply handle_gapless.
Qed.

(** C3. In every database reached from one without backups by any
    history of requests, the backups of an agent carry, in the order they
    were accepted, the sequence numbers 1, 2, 3, ...: the first accepted
    backup gets 1 and each later one gets the greatest stored number of
    the agent plus 1. *)
Theorem backup_seq_increasing_without_gaps db agentId :
  reachable db →
  DbBackup.backup_seq <$> backups_of agentId db
  = seqZ 1 (Z.of_nat (length (backups_of agentId db)))
  ∧ ∀ cfg env req,
      upload_agentId req = agentId →
      let s := serve (uploadBackup cfg env req) db in
      success (served_reply s) = true →
      ∃ row, backups (served_db s) = backups db ++ [row]
             ∧ DbBackup.agent_id row = agentId
             ∧ data (served_reply s)
               = Some (UploadData (DbBackup.id row) (DbBackup.backup_seq row)
                         (DbBackup.arweave_tx_id row) (DbBackup.size_bytes row)
                         (DbBackup.received_at row))
             ∧ match getLatestBackup agentId db with
               | None => backups_of agentId db = [] ∧ DbBackup.backup_seq row = 1
               | Some latest =>
                   DbBackup.backup_seq row = DbBackup.backup_seq latest + 1
                   ∧ ∀ b, b ∈ backups_of agentId db →
                          DbBackup.backup_seq b ≤ DbBackup.backup_seq latest
               end.
Proof.
  intros Hreach. pose proof (reachable_gapless db agentId Hreach) as Hgap. split.
  - apply list_eq. intros i. rewrite list_lookup_fmap.
    destruct (backups_of agentId db !! i) as [row|] eqn:Hi; simpl.
    + pose proof (lookup_lt_Some _ _ _ Hi).
      rewrite lookup_seqZ_lt by lia. f_equal. rewrite (Hgap i row Hi). lia.
    + apply lookup_ge_None in Hi. by rewrite lookup_seqZ_ge by lia.
  - intros cfg env req <- s Hok. subst s.
    destruct (upload_accepted_row cfg env req db Hok) as (row & Happ & Ha & Hseq & _ & _ & Hreply).
    exists row. split_and!; [done|done|by rewrite Hreply|].
    unfold getNextBackupSeq in Hseq. unfold getLatestBackup in *.
    rewrite latest_of_gapless in * by done.
    destruct (last _) as [latest|] eqn:Hlast.
    + split; [done|]. intros b Hb.
      rewrite (gapless_last _ _ Hgap Hlast).
      by apply gapless_below_length.
    + by apply last_None in Hlast.
Qed.

(** *** The daily limit *)

Lemma ceil_div_bounds a b :
  0 < b → b * (ceil_div a b - 1) < a ≤ b * ceil_div a b.
Proof.
  intros Hb. unfold ceil_div.
  pose proof (Z.div_mod (- a) b ltac:(lia)).
  pose proof (Z.mod_pos_bound (- a) b Hb). nia.
Qed.

Lemma latest_is_last_accepted db agentId :
  reachable db → getLatestBackup agentId db = last (backups_of agentId db).
Proof. intros Hr. apply latest_of_gapless. by apply reachable_gapless. Qed.

Lemma createBackup_throws backup db agent :
  createBackup backup db = None →
  getAgent (DbBackup.agent_id backup) db = Some agent →
  (∀ b, b ∈ backups db → DbBackup.id b ≠ DbBackup.id backup) →
  False.
Proof.
  unfold createBackup. intros Hnone Hagent Hfresh.
  case_match eqn:Hcond; [|done].
  apply orb_true_iff in Hcond as [Hdup|Hfk].
  - apply existsb_exists in Hdup as (b & Hb%list_elem_of_In & Heq%eqb_true_eq).
    by apply (Hfresh b).
  - apply bool_decide_eq_true in Hfk. congruence.
Qed.

Ltac limit_cases Hlatest :=
  handler_cases; try congruence;
  repeat match goal with
         | H : getLatestBackup _ _ = _ |- _ => rewrite Hlatest in H; simplify_eq
         | H : (_ <? _) = true |- _ => apply Z.ltb_lt in H
         | H : (_ <? _) = false |- _ => apply Z.ltb_ge in H
         end;
  try done; try lia.

(** C2. Let [latest] be the backup of the agent that was accepted last,
    and [elapsed] the time of a new attempt minus the receipt time of
    [latest]. If [elapsed] is below 86400 seconds the attempt is never
    accepted, and an attempt that passes the checks before the limit is
    answered 429 with the hours that remain (rounded up). If [elapsed] is
    86400 or more the attempt is never answered 429, and an attempt that
    passes the earlier checks (and draws an unused id) is accepted with
    the next sequence number. Only the receipt time of [latest] enters. *)
Theorem daily_limit_rolling_window cfg env req db latest :
  reachable db →
  last (backups_of (upload_agentId req) db) = Some latest →
  let elapsed := now_at_limit env - DbBackup.received_at latest in
  let hours := ceil_div (SECONDS_PER_DAY - elapsed) 3600 in
  let s := serve (uploadBackup cfg env req) db in
  SECONDS_PER_DAY = 86400
  ∧ (elapsed < SECONDS_PER_DAY →
       success (served_reply s) = false
       ∧ served_db s = db
       ∧ (well_formed_upload cfg db req →
            served_reply s
            = failure 429 ("Daily backup limit reached. Try again in "
                           +:+ pretty hours +:+ " hour(s).")
            ∧ 3600 * (hours - 1) < SECONDS_PER_DAY - elapsed ≤ 3600 * hours))
  ∧ (SECONDS_PER_DAY ≤ elapsed →
       code (served_reply s) ≠ 429
       ∧ (well_formed_upload cfg db req →
          (∀ b, b ∈ backups db → DbBackup.id b ≠ uuid_backup env) →
          ∃ size,
            served_reply s
            = succeed 201 (UploadData (uuid_backup env) (DbBackup.backup_seq latest + 1)
                             ("simulated_" +:+ uuid_arweave env) size
                             (now_at_receipt env)))).
Proof.
  intros Hreach Hlast elapsed hours s.
  pose proof (latest_is_last_accepted db (upload_agentId req) Hreach) as Hlatest.
  rewrite Hlast in Hlatest.
  split; [done|]. split.
  - intros Hin. split_and!.
    + subst s elapsed. limit_cases Hlatest.
    + subst s elapsed. limit_cases Hlatest.
    + intros (header & id & body & agent & Hh & Hv & Hid & Hlow & Hsig & Hb & Hsize & Hag & Hst).
      split; [|apply ceil_div_bounds; lia].
      assert (negb (String.eqb (toLowerCase id) (toLowerCase (upload_agentId req))) = false)
        as Hlow' by (by rewrite Hlow, String.eqb_refl).
      assert (negb (verifyBackupHeaderSignature header (upload_agentId req)) = false)
        as Hsig' by (by rewrite Hsig).
      assert ((Z.of_nat (length body) =? 0) = false) as Hnz by lia.
      assert ((backupSizeLimit cfg <? Z.of_nat (length body)) = false) as Hle by lia.
      assert (negb (String.eqb (DbAgent.status agent) "LIVING")
              && negb (String.eqb (DbAgent.status agent) "RETURNED") = false) as Hst'
        by (by destruct Hst as [-> | ->]).
      subst s hours elapsed. limit_cases Hlatest.
  - intros Hout. split.
    + subst s elapsed. limit_cases Hlatest.
    + intros (header & id & body & agent & Hh & Hv & Hid & Hlow & Hsig & Hb & Hsize & Hag & Hst)
             Hfresh.
      assert (negb (String.eqb (toLowerCase id) (toLowerCase (upload_agentId req))) = false)
        as Hlow' by (by rewrite Hlow, String.eqb_refl).
      assert (negb (verifyBackupHeaderSignature header (upload_agentId req)) = false)
        as Hsig' by (by rewrite Hsig).
      assert ((Z.of_nat (length body) =? 0) = false) as Hnz by lia.
      assert ((backupSizeLimit cfg <? Z.of_nat (length body)) = false) as Hle by lia.
      assert (negb (String.eqb (DbAgent.status agent) "LIVING")
              && negb (String.eqb (DbAgent.status agent) "RETURNED") = false) as Hst'
        by (by destruct Hst as [-> | ->]).
      exists (Z.of_nat (length body)).
      assert (getNextBackupSeq (upload_agentId req) db = DbBackup.backup_seq latest + 1)
        as Hnext by (unfold getNextBackupSeq; by rewrite Hlatest).
      subst s elapsed. limit_cases Hlatest;
        first [ by rewrite Hnext | exfalso; eapply createBackup_throws; eauto ].
Qed.

(** *** Reading backups and proofs of another agent *)

(** C10. When the requested agent (the normalised path parameter)
    differs, letter case aside, from the authenticated caller, each of the
    three routes (list backups, latest backup, identity proof) fails,
    returns no data, touches nothing and computes no digest; the answer is
    the authorization error 403 whenever the requested id is a well-formed
    address, and 400 (invalid id) otherwise. *)
Theorem other_agents_data_is_refused cfg now req db :
  toLowerCase (normalizeAddress (params_agentId req)) ≠ toLowerCase (request_agentId req) →
  refused req db (serve (listBackups req) db)
  ∧ refused req db (serve (latestBackup req) db)
  ∧ refused req db (serve (generateProof cfg now req) db).
Proof.
  intros Hdiff.
  assert (negb (String.eqb (toLowerCase (normalizeAddress (params_agentId req)))
                  (toLowerCase (request_agentId req))) = true) as Hci.
  { apply negb_true_iff, String.eqb_neq. done. }
  assert (negb (String.eqb (normalizeAddress (params_agentId req)) (request_agentId req))
          = true) as Hstrict.
  { apply negb_true_iff, String.eqb_neq. by intros Heq; rewrite Heq in Hdiff. }
  unfold refused. split_and!;
    handler_unfold; cbn [world_db world_trace];
    destruct (isValidAddress (params_agentId req)); cbn [negb];
    rewrite ?Hci, ?Hstrict; done.
Qed.

(** *** Registration *)

Lemma find_snoc_fresh {A} (f : A → bool) (l : list A) (x : A) :
  find f l = None → f x = true → find f (l ++ [x]) = Some x.
Proof.
  induction l as [|y l IH]; simpl; intros Hnone Hx; [by rewrite Hx|].
  destruct (f y); [done|]. by apply IH.
Qed.

(** C5 (as the code has it). A successful registration stores, and
    returns, the normalised form of the [agentId] that the caller put in
    the request body, which has passed [isValidAddress] and was not
    registered before; no signing key enters the request, and the stored
    id is a function of the supplied [agentId] alone. *)
Theorem registered_id_is_the_supplied_address now req db :
  let s := serve (registerAgent now req) db in
  success (served_reply s) = true →
  ∃ supplied row,
    body_agentId req = Some supplied
    ∧ isValidAddress supplied = true
    ∧ getAgent (normalizeAddress supplied) db = None
    ∧ agents (served_db s) = agents db ++ [row]
    ∧ DbAgent.agent_id row = normalizeAddress supplied
    ∧ getAgent (normalizeAddress supplied) (served_db s) = Some row
    ∧ served_reply s = succeed 201 (RegisterData (normalizeAddress supplied) now "LIVING").
Proof.
  intros s. subst s. handler_unfold.
  destruct (body_agentId req) as [supplied|] eqn:Hbody;
    handler_cases; try done; intros _;
    try (match goal with H : negb (present None) || _ = false |- _ => by cbn in H end);
    match goal with
    | H : createAgent ?row _ = Some _ |- _ =>
        unfold createAgent in H; case_match; simplify_eq; exists supplied, row
    end;
    repeat match goal with
           | H : _ || _ = false |- _ => apply orb_false_iff in H as [? ?]
           | H : negb _ = false |- _ => apply negb_false_iff in H
           | H : bool_decide _ = false |- _ => apply bool_decide_eq_false in H
           end;
    cbn [default id] in *;
    (assert (getAgent (normalizeAddress supplied) db = None) as Hfree
       by (by apply eq_None_not_Some));
    (split_and!; try done);
    unfold getAgent in *; cbn [agents set_agents DbAgent.agent_id];
    (apply find_snoc_fresh; [done|apply String.eqb_refl]).
Qed.

(** *** Attestation notes *)

(** C8. Storing a note is idempotent under its hash: a second insert
    with the same hash (whatever its content) leaves the database as the
    first insert left it, and a later read by that hash returns the note
    that was stored first, unchanged. *)
Theorem attestation_note_insert_is_idempotent (note again : DbAttestationNote.t) db :
  DbAttestationNote.hash again = DbAttestationNote.hash note →
  let once := createAttestationNote note db in
  let twice := createAttestationNote again once in
  createAttestationNote note once = once
  ∧ twice = once
  ∧ getAttestationNote (DbAttestationNote.hash note) twice
    = Some (default note (getAttestationNote (DbAttestationNote.hash note) db))
  ∧ (getAttestationNote (DbAttestationNote.hash note) db = None →
     getAttestationNote (DbAttestationNote.hash note) twice = Some note).
Proof.
  intros Hhash once twice.
  assert (getAttestationNote (DbAttestationNote.hash note) once
          = Some (default note (getAttestationNote (DbAttestationNote.hash note) db)))
    as Hstored.
  { subst once. unfold createAttestationNote, getAttestationNote.
    destruct (attestation_notes db !! DbAttestationNote.hash note) as [old|] eqn:Hold.
    - by rewrite Hold.
    - cbn. by rewrite lookup_insert_eq. }
  assert (∀ n, DbAttestationNote.hash n = DbAttestationNote.hash note →
               createAttestationNote n once = once) as Hskip.
  { intros n Hn. unfold createAttestationNote at 1.
    unfold getAttestationNote in Hstored. by rewrite Hn, Hstored. }
  subst twice. rewrite !Hskip by done. split_and!; [done..|].
  intros Hnone. by rewrite Hstored, Hnone.
Qed.

(** *** Trust tiers *)

(** C7. The trust level is a step function of the score alone: below 20
    UNVERIFIED, from 20 up to but not including 50 VERIFIED, from 50 up
    to but not including 100 ESTABLISHED, from 100 on PILLAR. *)
Theorem trust_level_is_step_function (s : Qc) :
  ((s < Qc_of_Z 20)%Qc → trustLevelOf s = UNVERIFIED)
  ∧ ((Qc_of_Z 20 ≤ s)%Qc ∧ (s < Qc_of_Z 50)%Qc → trustLevelOf s = VERIFIED)
  ∧ ((Qc_of_Z 50 ≤ s)%Qc ∧ (s < Qc_of_Z 100)%Qc → trustLevelOf s = ESTABLISHED)
  ∧ ((Qc_of_Z 100 ≤ s)%Qc → trustLevelOf s = PILLAR).
Proof.
  assert (Qc_of_Z 20 < Qc_of_Z 50)%Qc as H25 by done.
  assert (Qc_of_Z 50 < Qc_of_Z 100)%Qc as H51 by done.
  unfold trustLevelOf, TRUST_THRESHOLDS.VERIFIED, TRUST_THRESHOLDS.ESTABLISHED,
    TRUST_THRESHOLDS.PILLAR.
  split_and!; intros H; repeat case_decide; try done; exfalso;
    destruct_and?;
    repeat match goal with
           | Hn : ¬ (_ < _)%Qc |- _ => apply Qcnot_lt_le in Hn
           end;
    unfold Qclt, Qcle in *; cbn in *; lra.
Qed.

(** *** Identity proofs *)

(** Unique reading of a serialised payload, token by token. *)

Lemma append_cons c s t : String c s +:+ t = String c (s +:+ t).
Proof. done. Qed.

Lemma append_nil_l t : "" +:+ t = t.
Proof. done. Qed.

Lemma append_assoc (s t u : string) : (s +:+ t) +:+ u = s +:+ (t +:+ u).
Proof. induction s as [|c s IH]; [done|]. by rewrite !append_cons, IH. Qed.

Lemma unescape_escape c rest : JSON_unescape_head (JSON_escape c +:+ rest) = Some (c, rest).
Proof. by destruct c as [[] [] [] [] [] [] [] []]. Qed.

Lemma escape_not_quote c rest rest' : JSON_escape c +:+ rest ≠ String dquote rest'.
Proof. by destruct c as [[] [] [] [] [] [] [] []]. Qed.

Lemma escape_all_delimited s s' r r' :
  JSON_escape_all s +:+ String dquote r = JSON_escape_all s' +:+ String dquote r' →
  s = s' ∧ r = r'.
Proof.
  revert s'. induction s as [|c s IH]; intros [|c' s']; simpl;
    rewrite ?append_assoc, ?append_nil_l.
  - by intros [= ->].
  - intros H. symmetry in H. by apply escape_not_quote in H.
  - intros H. by apply escape_not_quote in H.
  - intros H.
    assert (Some (c, JSON_escape_all s +:+ String dquote r)
            = Some (c', JSON_escape_all s' +:+ String dquote r')) as Heq.
    { by rewrite <-!unescape_escape, H. }
    injection Heq as -> Hrest. apply IH in Hrest as [-> ->]. done.
Qed.

Lemma all_chars_pretty_N_go P x s :
  (∀ d, (d < 10)%N → P (pretty_N_char d) = true) →
  all_chars P s = true → all_chars P (pretty_N_go x s) = true.
Proof.
  intros HP. revert s. induction (N.lt_wf_0 x) as [x _ IH]; intros s Hs.
  destruct (decide (x = 0)%N) as [->|Hx]; [done|].
  rewrite pretty_N_go_step by lia. apply IH.
  - apply N.div_lt; lia.
  - simpl. rewrite HP, Hs; [done|]. apply N.mod_lt. lia.
Qed.

Lemma numeric_pretty_digit d : (d < 10)%N → numeric_char (pretty_N_char d) = true.
Proof.
  intros Hd.
  assert (d = 0 ∨ d = 1 ∨ d = 2 ∨ d = 3 ∨ d = 4 ∨ d = 5 ∨ d = 6 ∨ d = 7 ∨ d = 8 ∨ d = 9)%N
    as Hcases by lia.
  by destruct_or!; subst d.
Qed.

Lemma numeric_integer z : all_chars numeric_char (JSON_integer z) = true.
Proof.
  assert (∀ p : positive, all_chars numeric_char (pretty p) = true) as Hpos.
  { intros p. unfold pretty, pretty_positive, pretty, pretty_N.
    case_decide; [done|]. apply all_chars_pretty_N_go; [apply numeric_pretty_digit|done]. }
  unfold JSON_integer, pretty, pretty_Z. destruct z as [|p|p]; [done|apply Hpos|].
  rewrite append_cons, append_nil_l. simpl. apply Hpos.
Qed.

Lemma all_chars_weaken (P Q : ascii → bool) s :
  (∀ c, P c = true → Q c = true) → all_chars P s = true → all_chars Q s = true.
Proof.
  intros HPQ. induction s as [|c s IH]; [done|]. simpl.
  intros [Hc Hs]%andb_true_iff. by rewrite (HPQ c Hc), IH.
Qed.

Lemma token_nullable_integer n : all_chars token_char (JSON_nullable_integer n) = true.
Proof.
  destruct n as [z|]; [|done]. simpl.
  apply (all_chars_weaken numeric_char); [|apply numeric_integer].
  intros c Hc. unfold token_char. by rewrite Hc.
Qed.

(** Two tokens followed by a character that cannot occur in a token. *)
Lemma token_delimited P s s' c c' r r' :
  all_chars P s = true → all_chars P s' = true →
  P c = false → P c' = false →
  s +:+ String c r = s' +:+ String c' r' →
  s = s' ∧ c = c' ∧ r = r'.
Proof.
  intros Hs Hs' Hc Hc'. revert s' Hs'.
  induction s as [|a s IH]; intros [|a' s'] Hs'; rewrite ?append_cons, ?append_nil_l;
    simpl in *; intros [= ? ?]; simplify_eq.
  - done.
  - apply andb_true_iff in Hs' as [? _]. congruence.
  - apply andb_true_iff in Hs as [? _]. congruence.
  - apply andb_true_iff in Hs as [_ Hs]. apply andb_true_iff in Hs' as [_ Hs'].
    destruct (IH Hs s' Hs') as (-> & -> & ->); done.
Qed.

Lemma integer_delimited z z' r r' :
  JSON_integer z +:+ String "," r = JSON_integer z' +:+ String "," r' →
  z = z' ∧ r = r'.
Proof.
  intros H. apply (token_delimited numeric_char) in H as (Hz & _ & ->);
    [|apply numeric_integer..|done|done].
  split; [|done]. by apply (inj pretty).
Qed.

Lemma nullable_integer_delimited n n' r r' :
  JSON_nullable_integer n +:+ String "," r = JSON_nullable_integer n' +:+ String "," r' →
  n = n' ∧ r = r'.
Proof.
  intros H. apply (token_delimited token_char) in H as (Hn & _ & ->);
    [|apply token_nullable_integer..|done|done].
  split; [|done].
  destruct n as [z|], n' as [z'|]; simpl in Hn.
  - f_equal. by apply (inj pretty).
  - pose proof (numeric_integer z) as Hz. by rewrite Hn in Hz.
  - pose proof (numeric_integer z') as Hz. by rewrite <-Hn in Hz.
  - done.
Qed.

Lemma length_append (s t : string) :
  String.length (s +:+ t) = (String.length s + String.length t)%nat.
Proof. induction s as [|c s IH]; [done|]. rewrite append_cons. simpl. by rewrite IH. Qed.

Lemma append_cancel_r (s s' t : string) : s +:+ t = s' +:+ t → s = s'.
Proof.
  intros H.
  assert (String.length s = String.length s') as Hlen.
  { apply (f_equal String.length) in H. rewrite !length_append in H. lia. }
  revert s' H Hlen. induction s as [|c s IH]; intros [|c' s'] H Hlen;
    simpl in Hlen; try done.
  rewrite !append_cons in H. injection H as -> H. f_equal. apply IH; [done|lia].
Qed.

Ltac peel H :=
  repeat first
    [ apply escape_all_delimited in H as [? H]
    | apply integer_delimited in H as [? H]
    | apply nullable_integer_delimited in H as [? H]
    | progress (rewrite ?append_assoc, ?append_cons, ?append_nil_l in H)
    | injection H as H ];
  simplify_eq.

Lemma JSON_stringify_inj p p' :
  JSON_stringify p = JSON_stringify p' →
  (Number_toString (trust_score p) = Number_toString (trust_score p') →
   trust_score p = trust_score p') →
  p = p'.
Proof.
  destruct p as [a1 b1 c1 d1 i1 h1 r1 s1 l1 t1], p' as [a2 b2 c2 d2 i2 h2 r2 s2 l2 t2].
  unfold JSON_stringify, JSON_object, payload_entries, JSON_members. cbn -[JSON_quote].
  intros H Hnum.
  rewrite ?append_assoc, ?append_cons, ?append_nil_l in H.
  peel H. apply append_cancel_r in H. by rewrite (Hnum H).
Qed.

(** C4. A generated identity proof carries the ten payload fields in
    alphabetical order, filled from the server's records
    ([last_heartbeat] is null when there is none); [proof_hash] is the
    SHA-256 digest of the serialised payload and [server_signature] the
    HMAC-SHA256 of that digest under the server's secret. The unmodified
    proof verifies, and a proof whose payload was changed while digest
    and signature were kept does not, unless the changed payload
    collides with the original one under the number printer or under
    SHA-256. *)
Theorem identity_proof_is_tamper_evident cfg now req db proof :
  data (served_reply (serve (generateProof cfg now req) db)) = Some (ProofData proof) →
  (∃ agent,
      getAgent (request_agentId req) db = Some agent
      ∧ payload proof
        = buildPayload cfg now agent
            (getTrustScore (request_agentId req) db)
            (getLatestHeartbeat (request_agentId req) db)
            (getBackupCount (request_agentId req) db))
  ∧ (payload_entries (payload proof)).*1 = PROOF_FIELDS
  ∧ ascending PROOF_FIELDS = true
  ∧ proof_hash proof = sha256_hex (JSON_stringify (payload proof))
  ∧ server_signature proof = hmac_sha256_hex (jwtSecret cfg) (proof_hash proof)
  ∧ served_trace (serve (generateProof cfg now req) db)
    = [ Sha256 (JSON_stringify (payload proof));
        HmacSha256 (jwtSecret cfg) (proof_hash proof) ]
  ∧ verifyProof (jwtSecret cfg) proof = true
  ∧ ∀ tampered,
      tampered ≠ payload proof →
      (Number_toString (trust_score tampered) = Number_toString (trust_score (payload proof)) →
       trust_score tampered = trust_score (payload proof)) →
      (sha256_hex (JSON_stringify tampered) = sha256_hex (JSON_stringify (payload proof)) →
       JSON_stringify tampered = JSON_stringify (payload proof)) →
      verifyProof (jwtSecret cfg) (with_payload tampered proof) = false.
Proof.
  intros Hdata.
  assert (∃ agent,
            getAgent (request_agentId req) db = Some agent
            ∧ proof = mkProof
                (buildPayload cfg now agent
                   (getTrustScore (request_agentId req) db)
                   (getLatestHeartbeat (request_agentId req) db)
                   (getBackupCount (request_agentId req) db))
                (proof_hash proof) (server_signature proof) (verify_url proof)
            ∧ proof_hash proof = sha256_hex (JSON_stringify (payload proof))
            ∧ server_signature proof = hmac_sha256_hex (jwtSecret cfg) (proof_hash proof)
            ∧ served_trace (serve (generateProof cfg now req) db)
              = [ Sha256 (JSON_stringify (payload proof));
                  HmacSha256 (jwtSecret cfg) (proof_hash proof) ])
    as (agent & Hagent & Hproof & Hhash & Hsig & Htrace).
  { revert Hdata. handler_cases; try done; intros [= <-];
      match goal with
      | H : negb (String.eqb (normalizeAddress _) _) = false |- _ =>
          apply negb_false_iff, eqb_true_eq in H; rewrite H in *
      end;
      eexists; by split_and!. }
  split_and!.
  - exists agent. split; [done|]. by rewrite Hproof.
  - done.
  - done.
  - done.
  - done.
  - done.
  - unfold verifyProof. by rewrite <-Hhash, <-Hsig, !String.eqb_refl.
  - intros tampered Hne Hnum Hsha. unfold verifyProof, with_payload. cbn.
    apply andb_false_iff. left. apply String.eqb_neq. rewrite Hhash.
    intros Hcollide. apply Hne, JSON_stringify_inj; auto.
Qed.

(** *** Ordering and limits of the queries *)

Local Set Default Proof Using "Type".

Section Sorting.
Context {A : Type} (key : A → Z).










(** The row picked by [first_by_desc] is one of the rows and none has a
    greater key. *)
Lemma first_by_desc_greatest rows :
  match first_by_desc key rows with
  | None => rows = []
  | Some best => best ∈ rows ∧ ∀ r, r ∈ rows → key r ≤ key best
  end.
Proof.
  induction rows as [|row rows IH] using rev_ind; [done|].
  unfold first_by_desc in *. rewrite foldl_snoc.
  destruct (foldl (pick_greatest key) None rows) as [best|]; simpl.
  - destruct IH as [Hin Hmax].
    destruct (Z.ltb_spec (key best) (key row)); split.
    + apply elem_of_app. right. by apply list_elem_of_singleton.
    + intros r [Hr| ->%list_elem_of_singleton]%elem_of_app; [|lia].
      specialize (Hmax r Hr). lia.
    + apply elem_of_app. by left.
    + intros r [Hr| ->%list_elem_of_singleton]%elem_of_app; [by apply Hmax|lia].
  - subst rows. split; [by apply list_elem_of_singleton|].
    intros r ->%list_elem_of_singleton. lia.
Qed.




End Sorting.

(** *** Reading one's own backups *)






(** The latest route on one's own backups: 404 exactly when the agent has
    no backup; otherwise a stored backup of the agent that no other backup
    of the agent exceeds in sequence number. Nothing is written. *)
Theorem latest_backup_is_greatest req db :
  isValidAddress (params_agentId req) = true →
  toLowerCase (normalizeAddress (params_agentId req)) = toLowerCase (request_agentId req) →
  let agentId := normalizeAddress (params_agentId req) in
  let s := serve (latestBackup req) db in
  served_db s = db
  ∧ (backups_of agentId db = [] →
       served_reply s = failure 404 "No backups found for agent")
  ∧ (backups_of agentId db ≠ [] →
       ∃ latest,
         served_reply s = succeed 200 (LatestBackupData (backup_info latest))
         ∧ latest ∈ backups db
         ∧ DbBackup.agent_id latest = agentId
         ∧ ∀ b, b ∈ backups_of agentId db →
                DbBackup.backup_seq b ≤ DbBackup.backup_seq latest).
Proof.
  intros Hvalid Hown agentId s. subst s.
  pose proof (first_by_desc_greatest DbBackup.backup_seq (backups_of agentId db)) as Hbest.
  handler_unfold. cbn [world_db world_trace].
  rewrite Hvalid, Hown, String.eqb_refl. cbn [negb]. fold agentId.
  unfold getLatestBackup.
  destruct (first_by_desc _ _) as [latest|]; cbn [served_db served_reply].
  - destruct Hbest as [Hin Hmax]. split_and!; [done|intros Hnil; rewrite Hnil in Hin; by apply elem_of_nil in Hin|].
    intros _. exists latest. unfold backups_of in Hin.
    apply list_elem_of_filter in Hin as [? ?]. done.
  - split_and!; done.
Qed.


(** *** The header check, both ways *)

(** [validateBackupHeader] accepts exactly the values that are objects
    with a non-empty string [agent_id], a non-empty string [backup_id],
    numbers [backup_seq] and [timestamp], a string [manifest_hash], an
    object (or array) [files], an object [wrapped_keys] with strings
    [recovery] and [recall], and a non-empty string [signature]; other
    members play no part. *)
Theorem validateBackupHeader_accepts_iff header :
  validateBackupHeader header = None
  ↔ ∃ agent_id backup_id backup_seq timestamp manifest_hash recovery recall signature,
      get_prop "agent_id" header = Some (JString agent_id) ∧ agent_id ≠ ""
      ∧ get_prop "backup_id" header = Some (JString backup_id) ∧ backup_id ≠ ""
      ∧ get_prop "backup_seq" header = Some (JNumber backup_seq)
      ∧ get_prop "timestamp" header = Some (JNumber timestamp)
      ∧ get_prop "manifest_hash" header = Some (JString manifest_hash)
      ∧ is_object (get_prop "files" header) = true
      ∧ get_prop "wrapped_keys" header ≫= get_prop "recovery" = Some (JString recovery)
      ∧ get_prop "wrapped_keys" header ≫= get_prop "recall" = Some (JString recall)
      ∧ get_prop "signature" header = Some (JString signature) ∧ signature ≠ "".
Proof.
  split.
  - intros Hv.
    destruct (validated_header_fields header Hv)
      as ((a & Ha & ?) & (b & Hb & ?) & (s & Hs) & (t & Ht) & (m & Hm) & Hf
          & (r & c & Hr & Hc) & (g & Hg & ?)).
    exists a, b, s, t, m, r, c, g. split_and!; done.
  - intros (a & b & s & t & m & r & c & g
            & Ha & Hane & Hb & Hbne & Hs & Ht & Hm & Hf & Hr & Hc & Hg & Hgne).
    assert (is_object (Some header) = true) as Ho by (by destruct header).
    assert (is_object (get_prop "wrapped_keys" header) = true) as Hw.
    { by destruct (get_prop "wrapped_keys" header) as [[]|]. }
    apply String.eqb_neq in Hane, Hbne, Hgne.
    unfold validateBackupHeader.
    rewrite Ho, Ha, Hb, Hs, Ht, Hm, Hf, Hw, Hr, Hc, Hg. cbn.
    by rewrite Hane, Hbne, Hgne.
Qed.

(** *** Which uploads are accepted *)

Lemma createBackup_Some backup db db' :
  createBackup backup db = Some db'
  ↔ (∀ b, b ∈ backups db → DbBackup.id b ≠ DbBackup.id backup)
    ∧ is_Some (getAgent (DbBackup.agent_id backup) db)
    ∧ db' = set_backups (λ rows, rows ++ [backup]) db.
Proof.
  unfold createBackup. split.
  - case_match eqn:Hcond; [done|]. intros [= <-].
    apply orb_false_iff in Hcond as [Hdup Hfk]. split_and!; [|by case_bool_decide; [|apply not_eq_None_Some]|done].
    intros b Hb Heq.
    assert (existsb (λ b0, String.eqb (DbBackup.id b0) (DbBackup.id backup)) (backups db) = true)
      as Htrue; [|congruence].
    apply existsb_exists. exists b. split; [by apply list_elem_of_In|]. by rewrite Heq, String.eqb_refl.
  - intros (Hfresh & Hagent & ->).
    case_match eqn:Hcond; [|done]. exfalso.
    apply orb_true_iff in Hcond as [Hdup|Hfk].
    + apply existsb_exists in Hdup as (b & Hb%list_elem_of_In & Heq%eqb_true_eq).
      by apply (Hfresh b).
    + apply bool_decide_eq_true in Hfk. rewrite Hfk in Hagent. by destruct Hagent.
Qed.

Ltac well_formed_facts cfg req Hwf :=
  destruct Hwf as (header & id & body & agent & Hh & Hv & Hid & Hlow & Hsig & Hb & Hsize
                   & Hag & Hst);
  assert (negb (String.eqb (toLowerCase id) (toLowerCase (upload_agentId req))) = false)
    as Hlow' by (by rewrite Hlow, String.eqb_refl);
  assert (negb (verifyBackupHeaderSignature header (upload_agentId req)) = false)
    as Hsig' by (by rewrite Hsig);
  assert ((Z.of_nat (length body) =? 0) = false) as Hnz by lia;
  assert ((backupSizeLimit cfg <? Z.of_nat (length body)) = false) as Hle by lia;
  assert (negb (String.eqb (DbAgent.status agent) "LIVING")
          && negb (String.eqb (DbAgent.status agent) "RETURNED") = false) as Hst'
    by (by destruct Hst as [-> | ->]).

Ltac upload_facts :=
  repeat match goal with
         | H : _ || _ = false |- _ => apply orb_false_iff in H as [? ?]
         | H : negb _ && negb _ = false |- _ =>
             apply andb_false_iff in H as [H|H]; apply negb_false_iff, eqb_true_eq in H
         | H : negb _ = false |- _ => apply negb_false_iff in H
         | H : String.eqb _ _ = true |- _ => apply eqb_true_eq in H
         | H : (_ <? _) = true |- _ => apply Z.ltb_lt in H
         | H : (_ <? _) = false |- _ => apply Z.ltb_ge in H
         | H : (_ =? _) = false |- _ => apply Z.eqb_neq in H
         end.

(** The upload route accepts a request exactly when the header decodes,
    passes the schema check, names the caller (letter case aside) and its
    signature verifies, the body is not empty and within the size limit,
    the agent is stored as LIVING or RETURNED, the backup with the
    greatest sequence number of the agent, if there is one, was received
    at least 86400 seconds before, and the drawn backup id is not taken. *)
Theorem upload_accepted_iff cfg env req db :
  success (served_reply (serve (uploadBackup cfg env req) db)) = true
  ↔ well_formed_upload cfg db req
    ∧ (∀ latest, getLatestBackup (upload_agentId req) db = Some latest →
                 SECONDS_PER_DAY ≤ now_at_limit env - DbBackup.received_at latest)
    ∧ (∀ b, b ∈ backups db → DbBackup.id b ≠ uuid_backup env).
Proof.
  unfold well_formed_upload. split.
  - handler_cases; try done; intros _;
      match goal with
      | H : createBackup _ _ = Some _ |- _ => apply createBackup_Some in H as (Hfresh & _ & _)
      end;
      upload_facts;
      (split_and!; [|intros ? ?; simplify_eq; lia|done]);
      do 4 eexists; split_and!; eauto; lia.
  - intros (Hwf & Hlimit & Hfresh). well_formed_facts cfg req Hwf.
    handler_cases; try congruence; try done; upload_facts;
      try (match goal with
           | H : getLatestBackup _ _ = Some ?l |- _ => specialize (Hlimit l H); lia
           end);
      exfalso; eapply createBackup_throws; eauto.
Qed.

(** The upload route answers 500 only for a request that passes every
    check and then draws a backup id that is taken, and for each such
    request; the database is left as it was. *)
Theorem upload_fails_on_taken_id_only cfg env req db :
  code (served_reply (serve (uploadBackup cfg env req) db)) = 500
  ↔ well_formed_upload cfg db req
    ∧ (∀ latest, getLatestBackup (upload_agentId req) db = Some latest →
                 SECONDS_PER_DAY ≤ now_at_limit env - DbBackup.received_at latest)
    ∧ ∃ b, b ∈ backups db ∧ DbBackup.id b = uuid_backup env.
Proof.
  unfold well_formed_upload. split.
  - pose proof (validated_header_fields) as Hfields.
    handler_cases; try done; intros _;
      try (match goal with
           | H : validateBackupHeader ?h = None, H' : get_prop "agent_id" ?h = _ |- _ =>
               destruct (Hfields h H) as ((? & ? & _) & _); congruence
           end);
      match goal with
      | H : createBackup ?row ?d = None |- _ =>
          assert (∃ b, b ∈ backups d ∧ DbBackup.id b = DbBackup.id row) as Htaken
      end;
      try (match goal with
           | H : createBackup ?row ?d = None |- _ =>
               unfold createBackup in H; case_match eqn:Hcond; [|done];
               apply orb_true_iff in Hcond as [Hdup|Hfk];
               [ apply existsb_exists in Hdup as (b & Hb%list_elem_of_In & Heq%eqb_true_eq);
                 by exists b
               | apply bool_decide_eq_true in Hfk; simpl in Hfk; congruence ]
           end);
      upload_facts;
      (split_and!; [|intros ? ?; simplify_eq; lia|done]);
      do 4 eexists; split_and!; eauto; lia.
  - intros (Hwf & Hlimit & (taken & Htaken & Hid')). well_formed_facts cfg req Hwf.
    handler_cases; try congruence; try done; upload_facts;
      try (match goal with
           | H : getLatestBackup _ _ = Some ?l |- _ => specialize (Hlimit l H); lia
           end);
      match goal with
      | H : createBackup _ _ = Some _ |- _ =>
          apply createBackup_Some in H as (Hfresh & _ & _); by destruct (Hfresh taken Htaken)
      end.
Qed.

(** What an accepted upload stores: the drawn id (not the header's
    [backup_id]), the caller, the simulated transaction id, the next
    sequence number of the store (not the header's [backup_seq]), the
    header's timestamp (the receipt time when it is 0), the receipt time,
    the size of the body, which is between 1 and the size limit, and the
    header's manifest hash. The signature has been verified once, and no
    other table is touched. *)
Theorem accepted_upload_record cfg env req db :
  let s := serve (uploadBackup cfg env req) db in
  let agentId := upload_agentId req in
  success (served_reply s) = true →
  ∃ header body timestamp manifest_hash,
    x_backup_header req = HeaderDecoded header
    ∧ upload_body req = Some body
    ∧ get_prop "timestamp" header = Some (JNumber timestamp)
    ∧ get_prop "manifest_hash" header = Some (JString manifest_hash)
    ∧ 1 ≤ Z.of_nat (length body) ≤ backupSizeLimit cfg
    ∧ served_trace s = [VerifySignature header agentId]
    ∧ served_db s
      = set_backups
          (λ rows, rows ++ [DbBackup.mk (uuid_backup env) agentId
                              ("simulated_" +:+ uuid_arweave env)
                              (getNextBackupSeq agentId db)
                              (if decide (timestamp = 0%Qc)
                               then Qc_of_Z (now_at_receipt env) else timestamp)
                              (now_at_receipt env) (Z.of_nat (length body)) manifest_hash])
          db.
Proof.
  intros s agentId. subst s agentId.
  pose proof (validated_header_fields) as Hfields.
  handler_cases; try done; intros _;
    match goal with
    | H : validateBackupHeader ?h = None |- _ =>
        destruct (Hfields h H) as (_ & _ & _ & (stamp & Hstamp) & (digest & Hdigest) & _);
        exists h
    end;
    match goal with
    | H : upload_body _ = Some ?b |- _ => exists b, stamp, digest
    end;
    match goal with
    | H : createBackup _ _ = Some _ |- _ => apply createBackup_Some in H as (_ & _ & ->)
    end;
    upload_facts;
    (split_and!; try done; try lia);
    rewrite Hstamp, Hdigest; unfold number_or, string_or; cbn [truthy];
    repeat case_decide; try done; by destruct (String.eqb_spec digest "") as [->|].
Qed.

(** A 429 of the upload route has a cause: the agent's backup with the
    greatest sequence number was received less than 86400 seconds before.
    The reply names the hours that remain, which lie between 1 and 24
    unless that backup carries a receipt time in the future. *)
Theorem daily_limit_names_hours cfg env req db :
  let s := serve (uploadBackup cfg env req) db in
  code (served_reply s) = 429 →
  ∃ latest hours,
    getLatestBackup (upload_agentId req) db = Some latest
    ∧ now_at_limit env - DbBackup.received_at latest < 86400
    ∧ hours = ceil_div (86400 - (now_at_limit env - DbBackup.received_at latest)) 3600
    ∧ served_reply s
      = failure 429 ("Daily backup limit reached. Try again in "
                     +:+ pretty hours +:+ " hour(s).")
    ∧ served_db s = db
    ∧ (DbBackup.received_at latest ≤ now_at_limit env → 1 ≤ hours ≤ 24).
Proof.
  intros s. subst s. handler_cases; try done; intros _;
    eexists _, _; (split; [done|]); upload_facts;
    change SECONDS_PER_DAY with 86400 in *;
    (split_and!; [lia|reflexivity|done|done|]);
    intros Hpast;
    match goal with
    | |- _ ≤ ceil_div ?a _ ≤ _ => pose proof (ceil_div_bounds a 3600 ltac:(lia)); lia
    end.
Qed.

(** *** Registration, accepted and refused *)

Lemma find_snoc_other {A} (f : A → bool) (l : list A) (x : A) :
  find f l = None → f x = false → find f (l ++ [x]) = None.
Proof.
  induction l as [|y l IH]; simpl; intros Hnone Hx; [by rewrite Hx|].
  destruct (f y); [done|]. by apply IH.
Qed.

Lemma find_snoc_found {A} (f : A → bool) (l : list A) (x y : A) :
  find f l = Some y → find f (l ++ [x]) = Some y.
Proof.
  induction l as [|z l IH]; simpl; [done|]. destruct (f z); [done|]. apply IH.
Qed.

Lemma createAgent_Some agent db db' :
  createAgent agent db = Some db'
  ↔ getAgent (DbAgent.agent_id agent) db = None
    ∧ getAgentByGithubId (DbAgent.github_id agent) db = None
    ∧ is_Some (getUser (DbAgent.github_id agent) db)
    ∧ db' = set_agents (λ rows, rows ++ [agent]) db.
Proof.
  unfold createAgent. split.
  - case_match eqn:Hcond; [done|]. intros [= <-].
    repeat (apply orb_false_iff in Hcond as [Hcond ?]).
    repeat match goal with
           | H : bool_decide _ = false |- _ => apply bool_decide_eq_false in H
           end.
    split_and!; [by apply eq_None_not_Some|by apply eq_None_not_Some| |done].
    by apply not_eq_None_Some.
  - intros (Hid & Hgh & Huser & ->).
    rewrite Hid, Hgh. destruct Huser as [u ->]. done.
Qed.








Ltac register_facts :=
  repeat match goal with
         | H : _ || _ = false |- _ => apply orb_false_iff in H as [? ?]
         | H : negb _ = false |- _ => apply negb_false_iff in H
         | H : negb _ = true |- _ => apply negb_true_iff in H
         | H : bool_decide _ = false |- _ => apply bool_decide_eq_false in H
         | H : bool_decide _ = true |- _ => apply bool_decide_eq_true in H
         | H : String.eqb _ _ = true |- _ => apply eqb_true_eq in H
         | H : String.eqb _ _ = false |- _ => apply eqb_false_ne in H
         | H : present (Some _) = true |- _ => cbn [present] in H
         | H : present None = true |- _ => by cbn in H
         end.

Lemma register_accepted_inv now req db :
  success (served_reply (serve (registerAgent now req) db)) = true →
  ∃ githubId supplied recoveryPubKey manifestHash,
    well_formed_registration req githubId supplied recoveryPubKey manifestHash
    ∧ getAgent (normalizeAddress supplied) db = None
    ∧ getAgentByGithubId githubId db = None
    ∧ is_Some (getUser githubId db).
Proof.
  unfold well_formed_registration. handler_unfold.
  destruct (body_agentId req) as [supplied|] eqn:Hbody;
    destruct (body_recoveryPubKey req) as [recoveryPubKey|] eqn:Hkey;
    destruct (body_manifestHash req) as [manifestHash|] eqn:Hhash;
    handler_cases; try done; intros _; register_facts;
    match goal with
    | H : createAgent _ _ = Some _ |- _ =>
        apply createAgent_Some in H as (Hfree & Hfresh & Huser & _)
    end;
    cbn [default id DbAgent.agent_id DbAgent.github_id] in *;
    do 4 eexists; split_and!; eauto.
Qed.

Lemma well_formed_registration_checks req githubId supplied recoveryPubKey manifestHash :
  well_formed_registration req githubId supplied recoveryPubKey manifestHash →
  ∃ decoded,
    jwt req = Some decoded
    ∧ jwt_githubId decoded = Some githubId
    ∧ negb (String.eqb (jwt_type decoded) "github") || String.eqb githubId "" = false
    ∧ negb (present (Some supplied)) || negb (isValidAddress supplied) = false
    ∧ negb (present (Some recoveryPubKey)) || negb (is_0x_hex 64 recoveryPubKey) = false
    ∧ negb (present (Some manifestHash)) || negb (is_0x_hex 64 manifestHash) = false.
Proof.
  intros ((decoded & Hjwt & Htype & Hgh) & Hghne & Hid & Hidne & Hvalid & Hkey & Hkeyhex
          & Hhash & Hhashhex).
  exists decoded. apply String.eqb_neq in Hghne, Hidne.
  split_and!; [done|done|by rewrite Htype, Hghne| | |].
  - cbn. by rewrite Hidne, Hvalid.
  - rewrite Hkeyhex. by destruct recoveryPubKey.
  - rewrite Hhashhex. by destruct manifestHash.
Qed.

Ltac registration_checks Hwf :=
  let decoded := fresh "decoded" in
  let Hjwt := fresh "Hjwt" in
  let Hgh := fresh "Hgh" in
  let Hc1 := fresh "Hcheck" in
  let Hc2 := fresh "Hcheck" in
  let Hc3 := fresh "Hcheck" in
  let Hc4 := fresh "Hcheck" in
  pose proof Hwf as (_ & _ & ? & _ & _ & ? & _ & ? & _);
  destruct (well_formed_registration_checks _ _ _ _ _ Hwf)
    as (decoded & Hjwt & Hgh & Hc1 & Hc2 & Hc3 & Hc4);
  handler_unfold; cbn [world_db world_trace];
  repeat match goal with
         | H : body_agentId _ = Some _ |- _ => rewrite H
         | H : body_recoveryPubKey _ = Some _ |- _ => rewrite H
         | H : body_manifestHash _ = Some _ |- _ => rewrite H
         end;
  rewrite Hjwt, Hgh; cbn [default id];
  rewrite Hc1, Hc2, Hc3, Hc4; cbn [world_db world_trace].

Lemma register_accepts now req db githubId supplied recoveryPubKey manifestHash :
  well_formed_registration req githubId supplied recoveryPubKey manifestHash →
  getAgent (normalizeAddress supplied) db = None →
  getAgentByGithubId githubId db = None →
  is_Some (getUser githubId db) →
  serve (registerAgent now req) db
  = mkServed
      (set_agents
         (λ rows, rows ++ [registered_row now req githubId supplied recoveryPubKey manifestHash])
         db)
      [] (succeed 201 (RegisterData (normalizeAddress supplied) now "LIVING")).
Proof.
  intros Hwf Hfree Hfresh [user Huser]. registration_checks Hwf.
  rewrite Hfree. rewrite bool_decide_eq_false_2 by (by intros [? ?]).
  cbn [world_db world_trace]. rewrite Hfresh.
  cbn [world_db world_trace]. rewrite Huser.
  rewrite bool_decide_eq_false_2 by done.
  cbn [world_db world_trace].
  unfold createAgent. cbn [DbAgent.agent_id DbAgent.github_id].
  rewrite Hfree, Hfresh, Huser.
  rewrite bool_decide_eq_false_2 by (by intros [? ?]).
  by rewrite bool_decide_eq_false_2 by done.
Qed.

Lemma register_refuses_taken_address now req db githubId supplied recoveryPubKey manifestHash :
  well_formed_registration req githubId supplied recoveryPubKey manifestHash →
  is_Some (getAgent (normalizeAddress supplied) db) →
  serve (registerAgent now req) db = mkServed db [] (failure 409 "Agent already registered").
Proof.
  intros Hwf Htaken. registration_checks Hwf.
  by rewrite bool_decide_eq_true_2 by done.
Qed.

Lemma register_refuses_taken_account now req db githubId supplied recoveryPubKey manifestHash
    existing :
  well_formed_registration req githubId supplied recoveryPubKey manifestHash →
  getAgent (normalizeAddress supplied) db = None →
  getAgentByGithubId githubId db = Some existing →
  serve (registerAgent now req) db
  = mkServed db []
      (mkReply 409 false (Some "GitHub account already has a registered agent")
         (Some (DbAgent.agent_id existing)) None).
Proof.
  intros Hwf Hfree Hexisting. registration_checks Hwf.
  rewrite Hfree. rewrite bool_decide_eq_false_2 by (by intros [? ?]).
  cbn [world_db world_trace]. by rewrite Hexisting.
Qed.




(** After an accepted registration the same request is answered 409
    (agent already registered), and so is the same account under any
    other valid address that is still free: that answer is the 409 of a
    taken account and it names the agent registered first. Neither
    changes the database. *)
Theorem second_registration_is_refused now req db again :
  let s := serve (registerAgent now req) db in
  success (served_reply s) = true →
  serve (registerAgent again req) (served_db s)
  = mkServed (served_db s) [] (failure 409 "Agent already registered")
  ∧ ∃ first,
      registeredId now req db = Some first
      ∧ ∀ other,
          other ≠ "" → isValidAddress other = true →
          getAgent (normalizeAddress other) (served_db s) = None →
          serve (registerAgent again (with_agentId other req)) (served_db s)
          = mkServed (served_db s) []
              (mkReply 409 false (Some "GitHub account already has a registered agent")
                 (Some first) None).
Proof.
  intros s Hok. subst s.
  destruct (register_accepted_inv now req db Hok)
    as (githubId & supplied & recoveryPubKey & manifestHash & Hwf & Hfree & Hfresh & Huser).
  unfold registeredId.
  rewrite (register_accepts now req db _ _ _ _ Hwf Hfree Hfresh Huser).
  cbn [served_db served_reply data succeed].
  set (row := registered_row now req githubId supplied recoveryPubKey manifestHash).
  set (db' := set_agents (λ rows, rows ++ [row]) db).
  assert (getAgent (normalizeAddress supplied) db' = Some row) as Hstored.
  { unfold getAgent. cbn [agents set_agents db'].
    apply find_snoc_fresh; [done|apply String.eqb_refl]. }
  assert (getAgentByGithubId githubId db' = Some row) as Haccount.
  { unfold getAgentByGithubId. cbn [agents set_agents db'].
    apply find_snoc_fresh; [done|apply String.eqb_refl]. }
  split.
  - by apply (register_refuses_taken_address again req db' _ _ _ _ Hwf).
  - exists (normalizeAddress supplied). split; [done|].
    intros other Hne Hvalid Hother.
    apply (register_refuses_taken_account again (with_agentId other req) db' githubId other
             recoveryPubKey manifestHash row); [|done|done].
    destruct Hwf as (Hjwt & Hghne & Hid & Hidne & Hv & Hkey & Hkeyhex & Hhash & Hhashhex).
    unfold well_formed_registration, with_agentId. cbn. split_and!; done.
Qed.

(** *** The constraints of the schema *)

Lemma find_eqb_is_Some {A} (key : A → string) (k : string) (l : list A) :
  is_Some (find (λ x, String.eqb (key x) k) l) ↔ k ∈ key <$> l.
Proof.
  induction l as [|x l IH]; simpl.
  - split; [by intros [? ?]|by intros ?%elem_of_nil].
  - destruct (String.eqb_spec (key x) k) as [<-|Hne].
    + split; [intros _; apply elem_of_cons; by left|by eexists].
    + rewrite IH. split; [intros ?; apply elem_of_cons; by right|].
      by intros [?|?]%elem_of_cons.
Qed.

Lemma getUser_is_Some githubId db :
  is_Some (getUser githubId db) ↔ githubId ∈ DbUser.github_id <$> users db.
Proof. apply find_eqb_is_Some. Qed.

Lemma getAgent_is_Some agentId db :
  is_Some (getAgent agentId db) ↔ agentId ∈ DbAgent.agent_id <$> agents db.
Proof. apply find_eqb_is_Some. Qed.

Lemma getAgentByGithubId_is_Some githubId db :
  is_Some (getAgentByGithubId githubId db) ↔ githubId ∈ DbAgent.github_id <$> agents db.
Proof. apply find_eqb_is_Some. Qed.

Lemma NoDup_snoc_fresh {A} (l : list A) (x : A) : NoDup l → x ∉ l → NoDup (l ++ [x]).
Proof.
  intros Hl Hx. apply NoDup_app. split_and!; [done| |apply NoDup_singleton].
  intros y Hy ->%list_elem_of_singleton. done.
Qed.

Lemma foldr_max_ge (l : list Z) (x : Z) : x ∈ l → x ≤ foldr Z.max 0 l.
Proof.
  induction l as [|y l IH]; simpl; [by intros ?%elem_of_nil|].
  intros [->|Hx]%elem_of_cons; [lia|]. specialize (IH Hx). lia.
Qed.

Ltac tables :=
  cbn [users agents heartbeats backups trust_scores attestation_notes
       set_users set_agents set_heartbeats set_backups set_trust_scores
       set_attestation_notes] in *.

Ltac integrity_start H :=
  destruct H as (Husers & Hagents & Haccounts & Hagent_user & Hbackups & Hbackup_agent
                 & Hbeats & Hbeat_agent & Hscores & Hnotes);
  unfold integrity;
  repeat setoid_rewrite getUser_is_Some; repeat setoid_rewrite getAgent_is_Some;
  repeat setoid_rewrite getUser_is_Some in Hagent_user;
  repeat setoid_rewrite getAgent_is_Some in Hbackup_agent;
  repeat setoid_rewrite getAgent_is_Some in Hbeat_agent;
  repeat setoid_rewrite getAgent_is_Some in Hscores;
  tables.

Lemma integrity_createUser user db db' :
  integrity db → createUser user db = Some db' → integrity db'.
Proof.
  unfold createUser. intros Hdb Hcreate.
  case_bool_decide as Htaken; [done|]. simplify_eq.
  rewrite getUser_is_Some in Htaken.
  integrity_start Hdb. rewrite fmap_app.
  split_and!; try done; [by apply NoDup_snoc_fresh|].
  intros a Ha. apply elem_of_app. left. by apply Hagent_user.
Qed.

Lemma integrity_createAgent agent db db' :
  integrity db → createAgent agent db = Some db' → integrity db'.
Proof.
  intros Hdb (Hfree & Hfresh & Huser & ->)%createAgent_Some.
  apply eq_None_not_Some in Hfree, Hfresh.
  rewrite getAgent_is_Some in Hfree. rewrite getAgentByGithubId_is_Some in Hfresh.
  rewrite getUser_is_Some in Huser.
  integrity_start Hdb. rewrite !fmap_app.
  split_and!; try done; try (by apply NoDup_snoc_fresh).
  - intros a [Ha| ->%list_elem_of_singleton]%elem_of_app; [by apply Hagent_user|done].
  - intros b Hb. apply elem_of_app. left. by apply Hbackup_agent.
  - intros h Hh. apply elem_of_app. left. by apply Hbeat_agent.
  - intros agentId score Hscore. destruct (Hscores _ _ Hscore) as [? ?].
    split; [done|]. apply elem_of_app. by left.
Qed.

Lemma integrity_createBackup backup db db' :
  integrity db → createBackup backup db = Some db' → integrity db'.
Proof.
  intros Hdb (Hfresh & Hagent & ->)%createBackup_Some.
  rewrite getAgent_is_Some in Hagent.
  integrity_start Hdb. rewrite fmap_app.
  split_and!; try done.
  - apply NoDup_snoc_fresh; [done|].
    intros (b & Hid & Hb)%list_elem_of_fmap. by apply (Hfresh b).
  - intros b [Hb| ->%list_elem_of_singleton]%elem_of_app; [by apply Hbackup_agent|done].
Qed.

Lemma integrity_createHeartbeat agentId agentTimestamp receivedAt signature db db' :
  integrity db →
  createHeartbeat agentId agentTimestamp receivedAt signature db = Some db' →
  integrity db'.
Proof.
  unfold createHeartbeat. intros Hdb Hcreate.
  case_bool_decide as Hagent; [done|]. simplify_eq.
  apply not_eq_None_Some in Hagent. rewrite getAgent_is_Some in Hagent.
  integrity_start Hdb. rewrite fmap_app.
  split_and!; try done.
  - apply NoDup_snoc_fresh; [done|]. cbn. unfold next_heartbeat_id.
    intros Hin%foldr_max_ge. lia.
  - intros h [Hh| ->%list_elem_of_singleton]%elem_of_app; [by apply Hbeat_agent|done].
Qed.

Lemma integrity_upsertTrustScore score db db' :
  integrity db → upsertTrustScore score db = Some db' → integrity db'.
Proof.
  unfold upsertTrustScore. intros Hdb Hcreate.
  case_bool_decide as Hagent; [done|]. simplify_eq.
  apply not_eq_None_Some in Hagent. rewrite getAgent_is_Some in Hagent.
  integrity_start Hdb.
  split_and!; try done.
  intros agentId row [[<- <-]|[_ Hrow]]%lookup_insert_Some; [done|by apply Hscores].
Qed.

Lemma integrity_createAttestationNote note db :
  integrity db → integrity (createAttestationNote note db).
Proof.
  unfold createAttestationNote. intros Hdb.
  destruct (attestation_notes db !! DbAttestationNote.hash note) eqn:Hnote; [done|].
  integrity_start Hdb.
  split_and!; try done.
  intros hash row [[<- <-]|[_ Hrow]]%lookup_insert_Some; [done|by apply Hnotes].
Qed.

(** An UPDATE of the agents that keeps [agent_id] and [github_id]. *)
Lemma integrity_update_agents f db :
  (∀ a, DbAgent.agent_id (f a) = DbAgent.agent_id a) →
  (∀ a, DbAgent.github_id (f a) = DbAgent.github_id a) →
  integrity db → integrity (set_agents (map f) db).
Proof.
  intros Hid Hgh Hdb.
  assert (DbAgent.agent_id <$> map f (agents db) = DbAgent.agent_id <$> agents db) as Hids.
  { change (map f) with (fmap (M:=list) f). rewrite <-list_fmap_compose.
    apply list_fmap_ext. intros ? a _. apply Hid. }
  assert (DbAgent.github_id <$> map f (agents db) = DbAgent.github_id <$> agents db) as Hghs.
  { change (map f) with (fmap (M:=list) f). rewrite <-list_fmap_compose.
    apply list_fmap_ext. intros ? a _. apply Hgh. }
  integrity_start Hdb. rewrite Hids, Hghs.
  split_and!; try done.
  change (map f) with (fmap (M:=list) f).
  intros a' (a & -> & Ha)%list_elem_of_fmap. rewrite Hgh. by apply Hagent_user.
Qed.

Lemma integrity_updateAgentStatus agentId status db :
  integrity db → integrity (updateAgentStatus agentId status db).
Proof. apply integrity_update_agents; intros a; by case_match. Qed.

Lemma integrity_updateAgentManifest agentId manifestHash manifestVersion db :
  integrity db → integrity (updateAgentManifest agentId manifestHash manifestVersion db).
Proof. apply integrity_update_agents; intros a; by case_match. Qed.

(** The routes write through [createBackup] and [createAgent] only. *)
Lemma upload_writes cfg env req db :
  served_db (serve (uploadBackup cfg env req) db) = db
  ∨ ∃ row, createBackup row db = Some (served_db (serve (uploadBackup cfg env req) db)).
Proof. handler_cases; eauto. Qed.

Lemma register_writes now req db :
  served_db (serve (registerAgent now req) db) = db
  ∨ ∃ row, createAgent row db = Some (served_db (serve (registerAgent now req) db)).
Proof. handler_cases; eauto. Qed.

Lemma readers_keep_db cfg now req db :
  served_db (serve (listBackups req) db) = db
  ∧ served_db (serve (latestBackup req) db) = db
  ∧ served_db (serve (generateProof cfg now req) db) = db.
Proof. split_and!; handler_cases; done. Qed.

Lemma integrity_handle db r : integrity db → integrity (handle db r).
Proof.
  intros Hdb.
  destruct r as [cfg env req|now req|req|req|cfg now req|agentId status|note]; simpl.
  - destruct (upload_writes cfg env req db) as [->|[row Hrow]]; [done|].
    by eapply integrity_createBackup.
  - destruct (register_writes now req db) as [->|[row Hrow]]; [done|].
    by eapply integrity_createAgent.
  - by rewrite (proj1 (readers_keep_db sample_config 0 req db)).
  - by rewrite (proj1 (proj2 (readers_keep_db sample_config 0 req db))).
  - by rewrite (proj2 (proj2 (readers_keep_db cfg now req db))).
  - by apply integrity_updateAgentStatus.
  - by apply integrity_createAttestationNote.
Qed.

Lemma integrity_perform db statement : integrity db → integrity (perform db statement).
Proof.
  intros Hdb. destruct statement as [r|user|agentId ts received sig|score|agentId hash version];
    simpl.
  - by apply integrity_handle.
  - destruct (createUser user db) eqn:H; [by eapply integrity_createUser|done].
  - destruct (createHeartbeat _ _ _ _ db) eqn:H; [by eapply integrity_createHeartbeat|done].
  - destruct (upsertTrustScore score db) eqn:H; [by eapply integrity_upsertTrustScore|done].
  - by apply integrity_updateAgentManifest.
Qed.

(** Whatever requests are served and statements are run, the store keeps
    the constraints of its schema: no two users, agents, backups or
    heartbeats share a primary key, no GitHub account has two agents,
    every agent has its user, and every backup, heartbeat and trust score
    has its agent. *)
Theorem statements_keep_integrity db statements :
  integrity db → integrity (foldl perform db statements).
Proof.
  revert db. induction statements as [|statement statements IH]; intros db Hdb; [done|].
  simpl. by apply IH, integrity_perform.
Qed.

(** *** UPDATE statements on agents *)

Lemma find_map_key {A} (key : A → string) (f : A → A) (k : string) (l : list A) :
  (∀ a, key (f a) = key a) →
  find (λ a, String.eqb (key a) k) (map f l) = f <$> find (λ a, String.eqb (key a) k) l.
Proof.
  intros Hkey. induction l as [|a l IH]; simpl; [done|].
  rewrite Hkey. by destruct (String.eqb (key a) k).
Qed.

Lemma find_eqb_key {A} (key : A → string) (k : string) (l : list A) (a : A) :
  find (λ a, String.eqb (key a) k) l = Some a → key a = k.
Proof. intros [_ Hk]%find_some. by apply eqb_true_eq. Qed.

Lemma getAgent_agent_id agentId db agent :
  getAgent agentId db = Some agent → DbAgent.agent_id agent = agentId.
Proof. apply find_eqb_key. Qed.

Lemma map_id_ext {A} (f : A → A) (l : list A) : (∀ a, a ∈ l → f a = a) → map f l = l.
Proof.
  induction l as [|a l IH]; simpl; [done|]. intros Hf.
  rewrite Hf by (apply elem_of_cons; by left). f_equal. apply IH.
  intros b Hb. apply Hf. apply elem_of_cons. by right.
Qed.

(** [updateAgentStatus] rewrites the status of the agent with the given
    id and nothing else: every other agent and every other column and
    table is as before, and an id that is not stored changes nothing.
    Once the status is neither LIVING nor RETURNED, no upload of that
    agent is accepted. *)
Theorem status_update_touches_one_agent agentId status db :
  let db' := updateAgentStatus agentId status db in
  (∀ id, getAgent id db'
         = (λ a, if decide (id = agentId)
                 then DbAgent.mk (DbAgent.agent_id a) (DbAgent.github_id a)
                        (DbAgent.recovery_pubkey a) (DbAgent.manifest_hash a)
                        (DbAgent.manifest_version a) (DbAgent.registered_at a) status
                 else a) <$> getAgent id db)
  ∧ db' = set_agents (λ _, agents db') db
  ∧ length (agents db') = length (agents db)
  ∧ (getAgent agentId db = None → db' = db)
  ∧ (status ≠ "LIVING" → status ≠ "RETURNED" →
     ∀ cfg env req, upload_agentId req = agentId →
       success (served_reply (serve (uploadBackup cfg env req) db')) = false).
Proof.
  intros db'. subst db'. split_and!.
  - intros id. unfold getAgent, updateAgentStatus. cbn [agents set_agents].
    rewrite find_map_key by (intros a; by case_match).
    destruct (find _ (agents db)) as [a|] eqn:Hfind; [|done]. simpl.
    apply find_eqb_key in Hfind. rewrite Hfind.
    case_decide as Hid; [subst; by rewrite String.eqb_refl|].
    by destruct (String.eqb_spec id agentId).
  - done.
  - unfold updateAgentStatus. cbn [agents set_agents]. apply length_map.
  - intros Hnone. unfold updateAgentStatus, set_agents. destruct db as [us ags hs bs ts ns].
    cbn [users agents heartbeats backups trust_scores attestation_notes] in *.
    f_equal. apply map_id_ext. intros a Ha.
    destruct (String.eqb_spec (DbAgent.agent_id a) agentId) as [Heq|]; [|done].
    exfalso. apply eq_None_not_Some in Hnone. apply Hnone.
    apply getAgent_is_Some. cbn [agents]. apply list_elem_of_fmap. by exists a.
  - intros Hliving Hreturned cfg env req <-.
    assert (∀ a, getAgent (upload_agentId req) (updateAgentStatus (upload_agentId req) status db)
                 = Some a → DbAgent.status a = status) as Hstatus.
    { intros a. unfold getAgent, updateAgentStatus. cbn [agents set_agents].
      rewrite find_map_key by (intros b; by case_match).
      destruct (find _ (agents db)) as [b|] eqn:Hfind; [|done]. simpl.
      apply find_eqb_key in Hfind. rewrite Hfind, String.eqb_refl. by intros [= <-]. }
    handler_cases; try done;
      match goal with
      | H : getAgent _ _ = Some ?a |- _ => apply Hstatus in H
      end;
      upload_facts; congruence.
Qed.

(** [updateAgentManifest] rewrites the manifest hash and version of the
    agent with the given id and nothing else, and the public agent route
    shows the new manifest from then on. *)
Theorem manifest_update_touches_one_agent agentId manifestHash manifestVersion db :
  let db' := updateAgentManifest agentId manifestHash manifestVersion db in
  (∀ id, getAgent id db'
         = (λ a, if decide (id = agentId)
                 then DbAgent.mk (DbAgent.agent_id a) (DbAgent.github_id a)
                        (DbAgent.recovery_pubkey a) manifestHash manifestVersion
                        (DbAgent.registered_at a) (DbAgent.status a)
                 else a) <$> getAgent id db)
  ∧ db' = set_agents (λ _, agents db') db
  ∧ length (agents db') = length (agents db)
  ∧ (∀ id agent,
       isValidAddress id = true → normalizeAddress id = agentId →
       getAgent agentId db = Some agent →
       ∃ info,
         agentInfo id (mkWorld db' []) = (mkWorld db' [], Continue info)
         ∧ agent_info_manifest_hash info = manifestHash
         ∧ agent_info_manifest_version info = manifestVersion
         ∧ agent_info_status info = DbAgent.status agent
         ∧ agent_info_recovery_pubkey info = DbAgent.recovery_pubkey agent
         ∧ agent_info_registered_at info = DbAgent.registered_at agent).
Proof.
  intros db'.
  assert (∀ id, getAgent id db'
                = (λ a, if decide (id = agentId)
                        then DbAgent.mk (DbAgent.agent_id a) (DbAgent.github_id a)
                               (DbAgent.recovery_pubkey a) manifestHash manifestVersion
                               (DbAgent.registered_at a) (DbAgent.status a)
                        else a) <$> getAgent id db) as Hget.
  { intros id. subst db'. unfold getAgent, updateAgentManifest. cbn [agents set_agents].
    rewrite find_map_key by (intros a; by case_match).
    destruct (find _ (agents db)) as [a|] eqn:Hfind; [|done]. simpl.
    apply find_eqb_key in Hfind. rewrite Hfind.
    case_decide as Hid; [subst; by rewrite String.eqb_refl|].
    by destruct (String.eqb_spec id agentId). }
  split_and!; [done|done| |].
  - subst db'. unfold updateAgentManifest. cbn [agents set_agents]. apply length_map.
  - intros id agent Hvalid Hid Hagent.
    unfold agentInfo. handler_unfold. cbn [world_db world_trace].
    rewrite Hvalid, Hid. cbn [negb world_db world_trace].
    rewrite Hget, Hagent. cbn [fmap option_fmap option_map].
    rewrite decide_True by done. eexists. split; [reflexivity|]. done.
Qed.

(** *** Heartbeats and stale agents *)

Lemma foldr_max_greatest (t : Z) (times : list Z) :
  foldr Z.max t times ∈ t :: times ∧ ∀ x, x ∈ t :: times → x ≤ foldr Z.max t times.
Proof.
  induction times as [|y times [Hin Hmax]]; simpl.
  - split; [by apply list_elem_of_singleton|]. intros x ->%list_elem_of_singleton. lia.
  - split.
    + destruct (Z.max_spec y (foldr Z.max t times)) as [[_ ->]|[_ ->]].
      * apply elem_of_cons in Hin as [->|Hin]; [by left|]. right. by right.
      * right. by left.
    + intros x [->|[->|Hx]%elem_of_cons]%elem_of_cons.
      * specialize (Hmax t ltac:(by left)). lia.
      * lia.
      * specialize (Hmax x ltac:(by right)). lia.
Qed.

(** [MAX(received_at)] of the group of an agent. *)
Lemma max_received_at_spec agentId db :
  match max_received_at agentId db with
  | None => ∀ h, h ∈ heartbeats db → DbHeartbeat.agent_id h ≠ agentId
  | Some latest =>
      (∃ h, h ∈ heartbeats db ∧ DbHeartbeat.agent_id h = agentId
            ∧ DbHeartbeat.received_at h = latest)
      ∧ ∀ h, h ∈ heartbeats db → DbHeartbeat.agent_id h = agentId →
             DbHeartbeat.received_at h ≤ latest
  end.
Proof.
  unfold max_received_at.
  set (group := filter (λ h, DbHeartbeat.agent_id h = agentId) (heartbeats db)).
  assert (∀ h, h ∈ group ↔ h ∈ heartbeats db ∧ DbHeartbeat.agent_id h = agentId) as Hgroup.
  { intros h. unfold group. rewrite list_elem_of_filter. split; intros [? ?]; by split. }
  destruct (DbHeartbeat.received_at <$> group) as [|t times] eqn:Htimes.
  - apply fmap_nil_inv in Htimes. intros h Hh Hid.
    assert (h ∈ group) as Hin by (by apply Hgroup). rewrite Htimes in Hin.
    by apply elem_of_nil in Hin.
  - destruct (foldr_max_greatest t times) as [Hin Hmax]. rewrite <-Htimes in Hin, Hmax.
    split.
    + apply list_elem_of_fmap in Hin as (h & Heq & Hh). apply Hgroup in Hh as [? ?].
      by exists h.
    + intros h Hh Hid. apply Hmax. apply list_elem_of_fmap. exists h.
      split; [done|]. by apply Hgroup.
Qed.

Lemma stale_agents_characterised_aux now thresholdSeconds db agent :
  agent ∈ getAgentsWithoutRecentHeartbeat now thresholdSeconds db
  ↔ agent ∈ agents db
    ∧ DbAgent.status agent = "LIVING"
    ∧ ∀ h, h ∈ heartbeats db → DbHeartbeat.agent_id h = DbAgent.agent_id agent →
           DbHeartbeat.received_at h < now - thresholdSeconds.
Proof.
  unfold getAgentsWithoutRecentHeartbeat. rewrite list_elem_of_filter.
  pose proof (max_received_at_spec (DbAgent.agent_id agent) db) as Hmax.
  destruct (max_received_at _ db) as [latest|]; simpl.
  - destruct Hmax as [(h0 & Hh0 & Hid0 & Heq0) Hle].
    rewrite Z.ltb_lt. split.
    + intros [[Hliving Hlt] Hin]. split_and!; [done|done|].
      intros h Hh Hid. specialize (Hle h Hh Hid). lia.
    + intros (Hin & Hliving & Hall). split_and!; [done| |done].
      specialize (Hall h0 Hh0 Hid0). lia.
  - split.
    + intros [[Hliving _] Hin]. split_and!; [done|done|].
      intros h Hh Hid. by destruct (Hmax h Hh).
    + intros (Hin & Hliving & _). done.
Qed.

(** An agent is reported by [getAgentsWithoutRecentHeartbeat] exactly
    when it is stored with status LIVING and none of its heartbeats was
    received at or after the cutoff [now - thresholdSeconds]; an agent
    without any heartbeat is reported, and so is one whose latest
    heartbeat, as [getLatestHeartbeat] returns it, is older than the
    cutoff. *)
Theorem stale_agents_characterised now thresholdSeconds db agent :
  (agent ∈ getAgentsWithoutRecentHeartbeat now thresholdSeconds db
   ↔ agent ∈ agents db
     ∧ DbAgent.status agent = "LIVING"
     ∧ ∀ h, h ∈ heartbeats db → DbHeartbeat.agent_id h = DbAgent.agent_id agent →
            DbHeartbeat.received_at h < now - thresholdSeconds)
  ∧ (agent ∈ getAgentsWithoutRecentHeartbeat now thresholdSeconds db
     ↔ agent ∈ getAgentsByStatus "LIVING" db
       ∧ match getLatestHeartbeat (DbAgent.agent_id agent) db with
         | None => True
         | Some latest => DbHeartbeat.received_at latest < now - thresholdSeconds
         end).
Proof.
  pose proof (stale_agents_characterised_aux now thresholdSeconds db agent) as Hfirst.
  split; [done|]. rewrite Hfirst. unfold getAgentsByStatus. rewrite list_elem_of_filter.
  unfold getLatestHeartbeat.
  pose proof (first_by_desc_greatest DbHeartbeat.received_at
                (filter (λ h, DbHeartbeat.agent_id h = DbAgent.agent_id agent) (heartbeats db)))
    as Hbest.
  destruct (first_by_desc _ _) as [latest|].
  - destruct Hbest as [Hin Hmax]. apply list_elem_of_filter in Hin as [Hid Hin].
    split.
    + intros (? & ? & Hall). split_and!; [done|done|]. by apply Hall.
    + intros [[? ?] Hlt]. split_and!; [done|done|]. intros h Hh Hhid.
      assert (DbHeartbeat.received_at h ≤ DbHeartbeat.received_at latest); [|lia].
      apply Hmax. by apply list_elem_of_filter.
  - split.
    + intros (? & ? & _). done.
    + intros [[? ?] _]. split_and!; [done|done|]. intros h Hh Hhid.
      assert (h ∈ filter (λ h, DbHeartbeat.agent_id h = DbAgent.agent_id agent) (heartbeats db))
        as Hin by (by apply list_elem_of_filter).
      rewrite Hbest in Hin. by apply elem_of_nil in Hin.
Qed.

(** A heartbeat is stored for a registered agent only. Once stored with
    receipt time [receivedAt], the agent is not reported as stale at any
    time [now] with [now - thresholdSeconds ≤ receivedAt] (the second
    [receivedAt + thresholdSeconds] included), its latest heartbeat is
    not older than [receivedAt], and the report on every other agent is
    as before. *)
Theorem heartbeat_defers_staleness agentId agentTimestamp receivedAt signature db :
  (createHeartbeat agentId agentTimestamp receivedAt signature db = None
   ↔ getAgent agentId db = None)
  ∧ ∀ db',
      createHeartbeat agentId agentTimestamp receivedAt signature db = Some db' →
      (∃ latest, getLatestHeartbeat agentId db' = Some latest
                 ∧ receivedAt ≤ DbHeartbeat.received_at latest)
      ∧ ∀ now thresholdSeconds agent,
          (DbAgent.agent_id agent = agentId → now - thresholdSeconds ≤ receivedAt →
           agent ∉ getAgentsWithoutRecentHeartbeat now thresholdSeconds db')
          ∧ (DbAgent.agent_id agent ≠ agentId →
             agent ∈ getAgentsWithoutRecentHeartbeat now thresholdSeconds db'
             ↔ agent ∈ getAgentsWithoutRecentHeartbeat now thresholdSeconds db).
Proof.
  unfold createHeartbeat. split.
  { case_bool_decide; [done|]. split; [done|]. intros ?. done. }
  intros db' Hcreate. case_bool_decide as Hagent; [done|]. simplify_eq.
  set (beat := DbHeartbeat.mk (next_heartbeat_id db) agentId agentTimestamp receivedAt signature).
  set (db' := set_heartbeats (λ rows, rows ++ [beat]) db).
  assert (beat ∈ heartbeats db') as Hbeat.
  { cbn [db' heartbeats set_heartbeats]. apply elem_of_app. right.
    by apply list_elem_of_singleton. }
  split.
  - unfold getLatestHeartbeat.
    pose proof (first_by_desc_greatest DbHeartbeat.received_at
                  (filter (λ h, DbHeartbeat.agent_id h = agentId) (heartbeats db'))) as Hbest.
    assert (beat ∈ filter (λ h, DbHeartbeat.agent_id h = agentId) (heartbeats db')) as Hin.
    { by apply list_elem_of_filter. }
    destruct (first_by_desc _ _) as [latest|].
    + exists latest. split; [done|]. by apply (proj2 Hbest beat).
    + rewrite Hbest in Hin. by apply elem_of_nil in Hin.
  - intros now thresholdSeconds agent. split.
    + intros Hid Hcut Hstale.
      apply (proj1 (stale_agents_characterised_aux now thresholdSeconds db' agent)) in Hstale
        as (_ & _ & Hall).
      specialize (Hall beat Hbeat). cbn in Hall. specialize (Hall (eq_sym Hid)). lia.
    + intros Hid.
      rewrite !(stale_agents_characterised_aux now thresholdSeconds _ agent).
      cbn [db' agents heartbeats set_heartbeats].
      split; intros (? & ? & Hall); (split_and!; [done|done|]); intros h Hh Hhid.
      * apply Hall; [|done]. apply elem_of_app. by left.
      * apply elem_of_app in Hh as [Hh| ->%list_elem_of_singleton]; [by apply Hall|].
        cbn in Hhid. congruence.
Qed.

(** *** Trust scores *)

(** [upsertTrustScore] stores a score for a registered agent only; the
    score is then the one [getTrustScore] returns for that agent, a later
    upsert for the same agent replaces it, the scores of other agents are
    as before, and the status route shows the stored score and level. *)
Theorem trust_score_upsert_replaces score db :
  (upsertTrustScore score db = None ↔ getAgent (DbTrustScore.agent_id score) db = None)
  ∧ ∀ db',
      upsertTrustScore score db = Some db' →
      getTrustScore (DbTrustScore.agent_id score) db' = Some score
      ∧ (∀ agentId, agentId ≠ DbTrustScore.agent_id score →
                    getTrustScore agentId db' = getTrustScore agentId db)
      ∧ (∀ again, DbTrustScore.agent_id again = DbTrustScore.agent_id score →
                  upsertTrustScore again db' = upsertTrustScore again db)
      ∧ (∀ id, isValidAddress id = true →
               normalizeAddress id = DbTrustScore.agent_id score →
               ∃ shown,
                 agentStatus id (mkWorld db' []) = (mkWorld db' [], Continue shown)
                 ∧ status_trust shown
                   = mkTrustSummary (DbTrustScore.score score) (DbTrustScore.level score)
                       (DbTrustScore.unique_attesters score)
                       (Some (DbTrustScore.computed_at score))).
Proof.
  unfold upsertTrustScore. split.
  { case_bool_decide; [done|]. split; [done|]. intros ?. done. }
  intros db' Hupsert. case_bool_decide as Hagent; [done|]. simplify_eq.
  unfold getTrustScore. cbn [trust_scores set_trust_scores].
  split_and!.
  - by rewrite lookup_insert_eq.
  - intros agentId Hne. by rewrite lookup_insert_ne.
  - intros again Heq. unfold getAgent in *. cbn [agents set_trust_scores].
    case_bool_decide; [done|]. f_equal. unfold set_trust_scores.
    cbn [users agents heartbeats backups trust_scores attestation_notes].
    f_equal. rewrite Heq. apply insert_insert_eq.
  - intros id Hvalid Hid.
    apply not_eq_None_Some in Hagent as [agent Hagent].
    unfold agentStatus. handler_unfold. cbn [world_db world_trace].
    rewrite Hvalid, Hid. cbn [negb world_db world_trace].
    assert (getAgent (DbTrustScore.agent_id score)
              (set_trust_scores (insert (DbTrustScore.agent_id score) score) db)
            = Some agent) as -> by done.
    cbn [world_db world_trace]. unfold getTrustScore.
    cbn [world_db world_trace trust_scores set_trust_scores].
    rewrite lookup_insert_eq. eexists. split; [reflexivity|]. done.
Qed.

(** *** The public agent routes *)

Ltac public_cases :=
  unfold agentInfo, agentStatus in *; handler_cases.

(** The two public routes never write and never hash, and they answer
    alike: 400 for an id that [isValidAddress] rejects, 404 for an id
    without an agent, and otherwise the columns of the stored agent with
    the user name of its account. *)
Theorem public_agent_routes_agree id w :
  (agentInfo id w).1 = w
  ∧ (agentStatus id w).1 = w
  ∧ match (agentInfo id w).2, (agentStatus id w).2 with
    | Sent refusal, Sent refusal' =>
        refusal' = refusal
        ∧ (refusal = failure 400 "Invalid agent ID" ∧ isValidAddress id = false
           ∨ refusal = failure 404 "Agent not found"
             ∧ isValidAddress id = true
             ∧ getAgent (normalizeAddress id) (world_db w) = None)
    | Continue info, Continue shown =>
        ∃ agent,
          isValidAddress id = true
          ∧ getAgent (normalizeAddress id) (world_db w) = Some agent
          ∧ info = mkAgentInfo (DbAgent.agent_id agent)
                     (DbUser.github_username <$> getUser (DbAgent.github_id agent) (world_db w))
                     (DbAgent.recovery_pubkey agent) (DbAgent.manifest_hash agent)
                     (DbAgent.manifest_version agent) (DbAgent.registered_at agent)
                     (DbAgent.status agent)
          ∧ status_agent shown
            = mkAgentSummary (agent_info_agent_id info) (agent_info_github_username info)
                (agent_info_manifest_hash info) (agent_info_manifest_version info)
                (agent_info_registered_at info) (agent_info_status info)
    | _, _ => False
    end.
Proof.
  unfold agentInfo, agentStatus. handler_unfold.
  destruct (isValidAddress id); cbn [negb fst snd].
  - destruct (getAgent (normalizeAddress id) (world_db w)) as [agent|] eqn:Hagent;
      cbn [fst snd].
    + split; [done|]. split; [done|]. exists agent. split_and!; try done.
    + split; [done|]. split; [done|]. split; [done|]. right. done.
  - split; [done|]. split; [done|]. split; [done|]. by left.
Qed.

Lemma reachable_handle db r : reachable db → reachable (handle db r).
Proof.
  intros (db0 & history & Hempty & <-). exists db0, (history ++ [r]).
  split; [done|]. unfold run. by rewrite foldl_snoc.
Qed.

(** In a database that the routes have built, the status route reports as
    backup count the number of the agent's backups, and as latest backup
    the one accepted last, whose sequence number is that count; it reports
    no latest backup exactly when the count is 0. *)
Theorem status_count_is_latest_sequence id w shown :
  reachable (world_db w) →
  (agentStatus id w).2 = Continue shown →
  let rows := backups_of (normalizeAddress id) (world_db w) in
  status_backup_count shown = Z.of_nat (length rows)
  ∧ match status_backup_latest shown with
    | None => rows = [] ∧ status_backup_count shown = 0
    | Some latest =>
        latest_backup_seq latest = status_backup_count shown
        ∧ ∃ b, last rows = Some b
               ∧ latest = mkLatestSummary (DbBackup.id b) (DbBackup.backup_seq b)
                            (DbBackup.arweave_tx_id b) (DbBackup.agent_timestamp b)
                            (DbBackup.size_bytes b)
    end.
Proof.
  intros Hreach Hshown rows.
  pose proof (latest_is_last_accepted (world_db w) (normalizeAddress id) Hreach) as Hlatest.
  pose proof (reachable_gapless (world_db w) (normalizeAddress id) Hreach) as Hgap.
  fold rows in Hlatest, Hgap.
  unfold agentStatus in Hshown. handler_unfold.
  destruct (isValidAddress id); cbn [negb snd] in Hshown; [|done].
  destruct (getAgent _ _) as [agent|]; cbn [snd] in Hshown; [|done].
  injection Hshown as <-. cbn [status_backup_count status_backup_latest].
  unfold getBackupCount. fold rows. split; [done|].
  rewrite Hlatest. destruct (last rows) as [b|] eqn:Hlast.
  - split; [|by exists b]. cbn. by apply gapless_last.
  - apply last_None in Hlast. by rewrite Hlast.
Qed.

(** An identity proof and the status route describe the agent alike on
    the same database: the payload carries the id, registration time,
    status, backup count, last heartbeat and trust score that the status
    route shows, and the same trust level unless the stored level is the
    empty string, which the proof alone replaces by UNVERIFIED. *)
Theorem proof_agrees_with_status cfg now req db proof shown :
  data (served_reply (serve (generateProof cfg now req) db)) = Some (ProofData proof) →
  (agentStatus (params_agentId req) (mkWorld db [])).2 = Continue shown →
  let p := payload proof in
  agent_id p = summary_agent_id (status_agent shown)
  ∧ registered_at p = summary_registered_at (status_agent shown)
  ∧ status p = summary_status (status_agent shown)
  ∧ backup_count p = status_backup_count shown
  ∧ last_heartbeat p = status_last_seen shown
  ∧ trust_score p = summary_score (status_trust shown)
  ∧ trust_level p = (if String.eqb (summary_level (status_trust shown)) ""
                     then "UNVERIFIED" else summary_level (status_trust shown)).
Proof.
  unfold agentStatus. handler_unfold. cbn [world_db world_trace].
  destruct (isValidAddress (params_agentId req));
    cbn [negb snd world_db world_trace]; [|done].
  destruct (negb (String.eqb (normalizeAddress (params_agentId req)) (request_agentId req)));
    cbn [snd served_reply data failure world_db world_trace]; [done|].
  destruct (getAgent (normalizeAddress (params_agentId req)) db) as [agent|];
    cbn [snd served_reply data failure world_db world_trace]; [|done].
  intros [= <-] [= <-]. cbn.
  split_and!; try done.
  - destruct (getTrustScore _ db) as [t|]; cbn; [|done]. by case_decide.
  - by destruct (getTrustScore _ db) as [t|].
Qed.

(** *** Reading back what the routes stored *)

(** After an accepted upload, in a database that the routes have built,
    the stored backup is found under the id of the reply, it is the
    agent's latest backup, its sequence number is the agent's new backup
    count, which has grown by one, and the backups of every other agent
    are as before. *)
Theorem uploaded_backup_is_latest cfg env req db :
  reachable db →
  let s := serve (uploadBackup cfg env req) db in
  success (served_reply s) = true →
  ∃ row,
    data (served_reply s)
    = Some (UploadData (DbBackup.id row) (DbBackup.backup_seq row)
              (DbBackup.arweave_tx_id row) (DbBackup.size_bytes row)
              (DbBackup.received_at row))
    ∧ getBackup (DbBackup.id row) (served_db s) = Some row
    ∧ getLatestBackup (upload_agentId req) (served_db s) = Some row
    ∧ getBackupCount (upload_agentId req) (served_db s)
      = getBackupCount (upload_agentId req) db + 1
    ∧ DbBackup.backup_seq row = getBackupCount (upload_agentId req) (served_db s)
    ∧ ∀ other, other ≠ upload_agentId req →
               backups_of other (served_db s) = backups_of other db.
Proof.
  intros Hreach s Hok. subst s.
  pose proof (reachable_handle db (Upload cfg env req) Hreach) as Hreach'.
  cbn [handle] in Hreach'.
  destruct (upload_accepted_row cfg env req db Hok)
    as (row & Happ & Hagent & Hseq & _ & Hid & Hreply).
  destruct (upload_writes cfg env req db) as [Hsame|[row' Hcreate]].
  { rewrite Hsame in Happ. apply (f_equal length) in Happ.
    rewrite length_app in Happ. simpl in Happ. lia. }
  apply createBackup_Some in Hcreate as (Hfresh & _ & Hdb').
  assert (row' = row) as ->.
  { rewrite Hdb' in Happ. cbn [backups set_backups] in Happ. by apply app_inj_tail in Happ as [_ ?]. }
  exists row.
  assert (backups_of (upload_agentId req) (served_db (serve (uploadBackup cfg env req) db))
          = backups_of (upload_agentId req) db ++ [row]) as Hrows.
  { rewrite (backups_of_snoc _ db _ row Happ). by rewrite decide_True. }
  split_and!.
  - by rewrite Hreply.
  - unfold getBackup. rewrite Happ. apply find_snoc_fresh; [|apply String.eqb_refl].
    destruct (find _ (backups db)) as [b|] eqn:Hfind; [|done].
    apply find_some in Hfind as [Hb%list_elem_of_In Heq%eqb_true_eq]. by destruct (Hfresh b).
  - rewrite (latest_is_last_accepted _ _ Hreach'), Hrows. apply last_snoc.
  - unfold getBackupCount. rewrite Hrows, length_app. simpl. lia.
  - rewrite Hseq, (next_seq_of_gapless _ _ (reachable_gapless db _ Hreach)).
    unfold getBackupCount. rewrite Hrows, length_app. simpl. lia.
  - intros other Hother. rewrite (backups_of_snoc _ db _ row Happ).
    rewrite decide_False by congruence. apply app_nil_r.
Qed.


(** *** Auth challenges *)

Lemma cleanup_keeps_unexpired now (table : AuthChallenges) nonce :
  getAuthChallenge nonce (cleanupExpiredChallenges now table).1
  = match getAuthChallenge nonce table with
    | Some c => if decide (DbAuthChallenge.expires_at c < now) then None else Some c
    | None => None
    end.
Proof.
  unfold getAuthChallenge, cleanupExpiredChallenges. simpl.
  destruct (table !! nonce) as [c|] eqn:Hc.
  - case_decide.
    + apply map_lookup_filter_None. right. intros c' Hc' Hkeep. simplify_eq. by apply Hkeep.
    + apply map_lookup_filter_Some. by split.
  - apply map_lookup_filter_None. by left.
Qed.

Lemma cleanup_count now (table : AuthChallenges) :
  (cleanupExpiredChallenges now table).2
  = Z.of_nat (size (filter (λ kc, DbAuthChallenge.expires_at kc.2 < now) table)).
Proof.
  unfold cleanupExpiredChallenges. simpl.
  pose proof (map_filter_union_complement
                (λ kc : string * DbAuthChallenge.t, DbAuthChallenge.expires_at kc.2 < now)
                table) as Hsplit.
  assert (size table
          = Nat.add
              (size (filter (λ kc : string * DbAuthChallenge.t,
                               DbAuthChallenge.expires_at kc.2 < now) table))
              (size (filter (λ kc : string * DbAuthChallenge.t,
                               ¬ DbAuthChallenge.expires_at kc.2 < now) table))) as Hsize.
  { rewrite <-Hsplit at 1. apply map_size_disj_union. apply map_disjoint_filter_complement. }
  lia.
Qed.

(** [cleanupExpiredChallenges] deletes exactly the challenges whose
    expiry lies before [now]: a challenge that expires at [now] itself
    stays, every challenge that stays is unchanged, the number returned
    is the number of deleted rows, and a second cleanup at the same time
    deletes nothing. *)
Theorem cleanup_removes_exactly_the_expired now (table : AuthChallenges) :
  let kept := (cleanupExpiredChallenges now table).1 in
  let changes := (cleanupExpiredChallenges now table).2 in
  (∀ nonce,
     getAuthChallenge nonce kept
     = match getAuthChallenge nonce table with
       | Some c => if decide (DbAuthChallenge.expires_at c < now) then None else Some c
       | None => None
       end)
  ∧ changes = Z.of_nat (size (filter (λ kc, DbAuthChallenge.expires_at kc.2 < now) table))
  ∧ Z.of_nat (size kept) + changes = Z.of_nat (size table)
  ∧ cleanupExpiredChallenges now kept = (kept, 0).
Proof.
  intros kept changes. split_and!.
  - apply cleanup_keeps_unexpired.
  - apply cleanup_count.
  - subst kept changes. unfold cleanupExpiredChallenges. simpl.
    pose proof (map_filter_subseteq
                  (λ kc : string * DbAuthChallenge.t, ¬ DbAuthChallenge.expires_at kc.2 < now)
                  table) as Hsub.
    apply map_subseteq_size in Hsub. lia.
  - assert ((cleanupExpiredChallenges now kept).1 = kept) as Hsame.
    { apply map_eq. intros nonce.
      pose proof (cleanup_keeps_unexpired now kept nonce) as Hagain.
      pose proof (cleanup_keeps_unexpired now table nonce) as Honce.
      unfold getAuthChallenge in *. fold kept in Honce. rewrite Hagain, Honce.
      destruct (table !! nonce) as [c|]; [|done].
      case_decide; [done|]. by rewrite decide_False. }
    unfold cleanupExpiredChallenges in *. simpl in *. rewrite Hsame. f_equal. lia.
Qed.

(** A challenge is stored under a nonce that is not taken and read back
    unchanged; the nonce cannot be issued again; [markChallengeUsed] sets
    [used] to 1 and keeps the agent and the expiry, leaves every other
    challenge alone, does nothing the second time and nothing for a nonce
    that is not stored. *)
Theorem challenge_round_trip challenge (table : AuthChallenges) :
  let nonce := DbAuthChallenge.nonce challenge in
  (createAuthChallenge challenge table = None ↔ is_Some (getAuthChallenge nonce table))
  ∧ (∀ unknown, getAuthChallenge unknown table = None →
                markChallengeUsed unknown table = table)
  ∧ ∀ table',
      createAuthChallenge challenge table = Some table' →
      getAuthChallenge nonce table' = Some challenge
      ∧ (∀ other, other ≠ nonce → getAuthChallenge other table' = getAuthChallenge other table)
      ∧ (∀ again, DbAuthChallenge.nonce again = nonce →
                  createAuthChallenge again table' = None)
      ∧ getAuthChallenge nonce (markChallengeUsed nonce table')
        = Some (DbAuthChallenge.mk nonce (DbAuthChallenge.agent_id challenge)
                  (DbAuthChallenge.expires_at challenge) 1)
      ∧ (∀ other, other ≠ nonce →
                  getAuthChallenge other (markChallengeUsed nonce table')
                  = getAuthChallenge other table')
      ∧ markChallengeUsed nonce (markChallengeUsed nonce table')
        = markChallengeUsed nonce table'.
Proof.
  intros nonce. subst nonce. unfold createAuthChallenge, getAuthChallenge, markChallengeUsed.
  split_and!.
  - destruct (table !! DbAuthChallenge.nonce challenge); split; done.
  - intros unknown Hnone. apply map_eq. intros k.
    destruct (decide (k = unknown)) as [->|Hne].
    + by rewrite lookup_alter_eq, Hnone.
    + by rewrite lookup_alter_ne.
  - intros table' Hcreate.
    destruct (table !! DbAuthChallenge.nonce challenge) eqn:Hfree; [done|]. simplify_eq.
    split_and!.
    + by rewrite lookup_insert_eq.
    + intros other Hne. by rewrite lookup_insert_ne.
    + intros again ->. by rewrite lookup_insert_eq.
    + by rewrite lookup_alter_eq, lookup_insert_eq.
    + intros other Hne. by rewrite lookup_alter_ne.
    + apply map_eq. intros k.
      destruct (decide (k = DbAuthChallenge.nonce challenge)) as [->|Hne].
      * rewrite !lookup_alter_eq, lookup_insert_eq. done.
      * by rewrite !lookup_alter_ne.
Qed.

(** *** Loading and validating the configuration *)

Lemma lookup_unset_empty env name :
  unset_empty env !! name
  = match env !! name with
    | Some value => if String.eqb value "" then None else Some value
    | None => None
    end.
Proof.
  unfold unset_empty. destruct (env !! name) as [value|] eqn:Hv.
  - destruct (String.eqb_spec value "") as [->|Hne].
    + apply map_lookup_filter_None. right. intros v Hv' Hkeep. by simplify_eq.
    + apply map_lookup_filter_Some. by split.
  - apply map_lookup_filter_None. by left.
Qed.

Lemma requireEnv_unset_empty name env : requireEnv name (unset_empty env) = requireEnv name env.
Proof.
  unfold requireEnv. rewrite lookup_unset_empty.
  destruct (env !! name) as [value|]; [|done]. destruct (String.eqb value "") eqn:He; [done|].
  by rewrite He.
Qed.

Lemma optionalEnv_unset_empty name d env :
  optionalEnv name d (unset_empty env) = optionalEnv name d env.
Proof.
  unfold optionalEnv. rewrite lookup_unset_empty.
  destruct (env !! name) as [value|]; [|done]. destruct (String.eqb value "") eqn:He; [done|].
  by rewrite He.
Qed.

Lemma optionalEnvInt_unset_empty name d env :
  optionalEnvInt name d (unset_empty env) = optionalEnvInt name d env.
Proof.
  unfold optionalEnvInt. rewrite lookup_unset_empty.
  destruct (env !! name) as [value|]; [|done]. destruct (String.eqb value "") eqn:He; [done|].
  by rewrite He.
Qed.

(** A variable that is set to the empty string counts as unset: the
    loaded configuration, or the error thrown, is the same with every
    such variable taken out of the environment. *)
Theorem empty_variables_read_as_unset env : loadConfig (unset_empty env) = loadConfig env.
Proof.
  unfold loadConfig.
  by rewrite !requireEnv_unset_empty, !optionalEnv_unset_empty, !optionalEnvInt_unset_empty.
Qed.

Lemma requireEnv_Value name env value :
  requireEnv name env = Value value ↔ env !! name = Some value ∧ value ≠ "".
Proof.
  unfold requireEnv. destruct (env !! name) as [v|]; [|split; [done|by intros [? ?]]].
  destruct (String.eqb_spec v "") as [->|Hne].
  - split; [done|]. by intros [[= <-] ?].
  - split; [by intros [= <-]|by intros [[= <-] ?]].
Qed.

Lemma requireEnv_Throws name env message :
  requireEnv name env = Throws message →
  message = "Missing required environment variable: " +:+ name.
Proof. unfold requireEnv. repeat case_match; by intros [= <-]. Qed.

Lemma optionalEnvInt_Value name d env :
  (∃ n, optionalEnvInt name d env = Value n) ↔ readable_int name env.
Proof.
  unfold optionalEnvInt, readable_int. destruct (env !! name) as [v|]; [|split; eauto].
  destruct (String.eqb_spec v "") as [->|Hne]; [split; eauto|].
  destruct (parseInt10 v) as [n|].
  - split; eauto.
  - split; [by intros [? ?]|]. intros [?|[? ?]]; done.
Qed.

Lemma optionalEnvInt_Throws name d env message :
  optionalEnvInt name d env = Throws message →
  ∃ value, env !! name = Some value ∧ value ≠ "" ∧ parseInt10 value = None
           ∧ message = "Invalid integer for " +:+ name +:+ ": " +:+ value.
Proof.
  unfold optionalEnvInt. destruct (env !! name) as [v|]; [|done].
  destruct (String.eqb_spec v "") as [->|Hne]; [done|].
  destruct (parseInt10 v) as [n|] eqn:Hparse; [done|]. intros [= <-]. by exists v.
Qed.

(** [loadConfig] returns a configuration exactly when the three secrets
    are set to non-empty strings and each of the six integer variables is
    unset, empty, or text that [parseInt] reads; otherwise it throws, and
    the message names a missing secret or an integer variable together
    with its unreadable text. *)
Theorem loadConfig_succeeds_iff env :
  ((∃ config, loadConfig env = Value config)
   ↔ (∀ name, name ∈ ["JWT_SECRET"; "GITHUB_CLIENT_ID"; "GITHUB_CLIENT_SECRET"] →
        ∃ value, env !! name = Some value ∧ value ≠ "")
     ∧ (∀ name, name ∈ ["PORT"; "JWT_TTL_SECONDS"; "CHAIN_ID"; "CHALLENGE_TTL_SECONDS";
                        "GITHUB_MIN_AGE_DAYS"; "BACKUP_SIZE_LIMIT"] →
          readable_int name env))
  ∧ ∀ message,
      loadConfig env = Throws message →
      (∃ name, name ∈ ["JWT_SECRET"; "GITHUB_CLIENT_ID"; "GITHUB_CLIENT_SECRET"]
               ∧ message = "Missing required environment variable: " +:+ name)
      ∨ (∃ name value,
           name ∈ ["PORT"; "JWT_TTL_SECONDS"; "CHAIN_ID"; "CHALLENGE_TTL_SECONDS";
                   "GITHUB_MIN_AGE_DAYS"; "BACKUP_SIZE_LIMIT"]
           ∧ env !! name = Some value ∧ parseInt10 value = None
           ∧ message = "Invalid integer for " +:+ name +:+ ": " +:+ value).
Proof.
  split; [split|].
  - intros [config Hload]. unfold loadConfig, and_then in Hload.
    repeat (case_match; [|done]).
    split; intros name Hname;
      repeat (apply elem_of_cons in Hname as [->|Hname]);
      try (by apply elem_of_nil in Hname);
      try (eexists; by apply requireEnv_Value);
      eapply optionalEnvInt_Value; eauto.
  - intros [Hreq Hint]. unfold loadConfig, and_then.
    repeat match goal with
           | |- context [optionalEnvInt ?name ?d env] =>
               let H := fresh in
               destruct (proj2 (optionalEnvInt_Value name d env)) as [? H];
               [apply Hint; repeat first [by left|right]|rewrite H]
           | |- context [requireEnv ?name env] =>
               let H := fresh in
               destruct (Hreq name) as (? & H%requireEnv_Value);
               [repeat first [by left|right]|rewrite H]
           end.
    eauto.
  - intros message. unfold loadConfig, and_then.
    repeat match goal with
           | |- context [optionalEnvInt ?name ?d env] =>
               let H := fresh in
               destruct (optionalEnvInt name d env) eqn:H;
               [|intros [= <-]; apply optionalEnvInt_Throws in H as (v & ? & ? & ? & ->);
                 right; exists name, v; split_and!; try done; repeat first [by left|right]]
           | |- context [requireEnv ?name env] =>
               let H := fresh in
               destruct (requireEnv name env) eqn:H;
               [|intros [= <-]; apply requireEnv_Throws in H as ->;
                 left; exists name; split; [repeat first [by left|right]|done]]
           end.
    done.
Qed.


End Routes.

(** ** Test vectors of the digests *)

Example sha256_abc :
  SHA256.hex "abc" = "ba7816bf8f01cfea414140de5dae2223b00361a396177a9cb410ff61f20015ad".
Proof. vm_compute. reflexivity. Qed.

Example sha256_empty :
  SHA256.hex "" = "e3b0c44298fc1c149afbf4c8996fb92427ae41e4649b934ca495991b7852b855".
Proof. vm_compute. reflexivity. Qed.

Example sha256_two_blocks :
  SHA256.hex "abcdbcdecdefdefgefghfghighijhijkijkljklmklmnlmnomnopnopq"
  = "248d6a61d20638b8e5c026930c3e6039a33ce45964ff2167f6ecedd419db06c1".
Proof. vm_compute. reflexivity. Qed.

Example hmac_sha256_rfc4231 :
  SHA256.hmac_hex "Jefe" "what do ya want for nothing?"
  = "5bdcc146bf60754e6a042426089575c75a003f089d2739839dec58b964ec3843".
Proof. vm_compute. reflexivity. Qed.

Example hmac_sha256_long_key :
  SHA256.hmac_hex
    "kkkkkkkkkkkkkkkkkkkkkkkkkkkkkkkkkkkkkkkkkkkkkkkkkkkkkkkkkkkkkkkkkkkkkkkkkkkkkkkkkkkkkkkkkkkkkkkkkkkk"
    "msg"
  = "bd56a1782c2830e8abc6ed866a57a1230661e650b84c62f7ee3accc5fa5af491".
Proof. vm_compute. reflexivity. Qed.

(** ** The properties on concrete requests

    The examples run the routes with the stand-in helpers on the sample
    database: agent [alice] uploads a first backup at time 1700000200. *)

Abbreviation first_upload := (sample_upload (HeaderDecoded complete_header)).

Abbreviation incomplete_upload :=
  (sample_upload (HeaderDecoded header_without_manifest_version)).

Abbreviation after_first_upload :=
  (run accept_all hex_address lower_address SHA256.hex SHA256.hmac_hex fraction_toString
     (sample_db "LIVING")
     [Upload sample_config (sample_env "u1" 1700000200) first_upload]).

Abbreviation first_backup :=
  (DbBackup.mk "u1" alice "simulated_u1-tx" 1 (Qc_of_Z 1700000100) 1700000200 3 key32).

Lemma after_first_upload_reachable :
  reachable accept_all hex_address lower_address SHA256.hex SHA256.hmac_hex fraction_toString
    after_first_upload.
Proof. exists (sample_db "LIVING"), [Upload sample_config (sample_env "u1" 1700000200) first_upload]. by split. Defined.

Lemma first_upload_well_formed :
  well_formed_upload accept_all sample_config after_first_upload first_upload.
Proof.
  exists complete_header, alice, [Byte.x01; Byte.x02; Byte.x03], (alice_agent "LIVING").
  split_and!; try reflexivity; [by vm_compute..|by left].
Defined.

(** C1. The schema check of the upload route does not look at
    [manifest_version] or [prev_backup_hash]: a decoded header that has
    neither passes [validateBackupHeader], the route goes on to verify its
    signature (whatever the verifier), and with a signature that verifies
    the upload is accepted and stored. *)
Theorem upload_accepts_header_without_manifest_version :
  get_prop "manifest_version" header_without_manifest_version = None
  ∧ get_prop "prev_backup_hash" header_without_manifest_version = None
  ∧ validateBackupHeader header_without_manifest_version = None
  ∧ (∀ verifier,
       served_trace (serve (uploadBackup verifier sample_config (sample_env "u1" 1700000200)
                              incomplete_upload) (sample_db "LIVING"))
       = [VerifySignature header_without_manifest_version alice])
  ∧ served_reply (serve (uploadBackup accept_all sample_config (sample_env "u1" 1700000200)
                           incomplete_upload) (sample_db "LIVING"))
    = succeed 201 (UploadData "u1" 1 "simulated_u1-tx" 3 1700000200)
  ∧ backups (served_db (serve (uploadBackup accept_all sample_config
                                 (sample_env "u1" 1700000200) incomplete_upload)
                          (sample_db "LIVING")))
    = [first_backup].
Proof.
  split_and!; try reflexivity.
  intros verifier. apply unchecked_header_reaches_signature.
Qed.

Lemma daily_limit_rolling_window_witness :
  last (backups_of alice after_first_upload) = Some first_backup
  ∧ served_reply (serve (uploadBackup accept_all sample_config (sample_env "u2" 1700003800)
                           first_upload) after_first_upload)
    = failure 429 "Daily backup limit reached. Try again in 23 hour(s)."
  ∧ success (served_reply (serve (uploadBackup accept_all sample_config
                                    (sample_env "u3" 1700086600) first_upload)
                             after_first_upload))
    = true.
Proof.
  assert (last (backups_of alice after_first_upload) = Some first_backup) as Hlast
    by reflexivity.
  split; [exact Hlast|]. split.
  - destruct (daily_limit_rolling_window accept_all hex_address lower_address SHA256.hex
                SHA256.hmac_hex fraction_toString sample_config (sample_env "u2" 1700003800)
                first_upload after_first_upload first_backup
                after_first_upload_reachable Hlast) as (_ & Hin & _).
    destruct Hin as (_ & _ & Hreply); [by vm_compute|].
    destruct (Hreply first_upload_well_formed) as [-> _]. reflexivity.
  - destruct (daily_limit_rolling_window accept_all hex_address lower_address SHA256.hex
                SHA256.hmac_hex fraction_toString sample_config (sample_env "u3" 1700086600)
                first_upload after_first_upload first_backup
                after_first_upload_reachable Hlast) as (_ & _ & Hout).
    destruct Hout as (_ & Hreply); [by vm_compute|].
    destruct (Hreply first_upload_well_formed) as (size & Hsize).
    + intros b Hb. apply list_elem_of_singleton in Hb. by subst b.
    + by rewrite Hsize.
Defined.

Abbreviation after_second_upload :=
  (run accept_all hex_address lower_address SHA256.hex SHA256.hmac_hex fraction_toString
     (sample_db "LIVING")
     [ Upload sample_config (sample_env "u1" 1700000200) first_upload;
       Upload sample_config (sample_env "u2" 1700003800) first_upload;
       Upload sample_config (sample_env "u3" 1700086600) first_upload ]).

Lemma backup_seq_increasing_without_gaps_witness :
  reachable accept_all hex_address lower_address SHA256.hex SHA256.hmac_hex fraction_toString
    after_second_upload
  ∧ DbBackup.id <$> backups_of alice after_second_upload = ["u1"; "u3"]
  ∧ DbBackup.backup_seq <$> backups_of alice after_second_upload = [1; 2].
Proof.
  assert (reachable accept_all hex_address lower_address SHA256.hex SHA256.hmac_hex
            fraction_toString after_second_upload) as Hreach.
  { eexists (sample_db "LIVING"), _. by split. }
  split; [exact Hreach|]. split; [reflexivity|].
  destruct (backup_seq_increasing_without_gaps accept_all hex_address lower_address
              SHA256.hex SHA256.hmac_hex fraction_toString after_second_upload alice Hreach)
    as [Hseq _].
  rewrite Hseq. reflexivity.
Defined.

Abbreviation proof_request := (mkAgentRequest alice alice None).

Abbreviation sample_payload :=
  (mkPayload alice 1 84532 "0xcccccccccccccccccccccccccccccccccccccccc" 1700090000 None
     1700000000 "LIVING" "UNVERIFIED" 0%Qc).

Abbreviation sample_proof :=
  (mkProof sample_payload
     (SHA256.hex (JSON_stringify fraction_toString sample_payload))
     (SHA256.hmac_hex "server-secret" (SHA256.hex (JSON_stringify fraction_toString sample_payload)))
     "http://localhost:3000/agents/0xaaaaaaaaaaaaaaaaaaaaaaaaaaaaaaaaaaaaaaaa/status").

(** The payload of [sample_proof] with [trust_score] raised to 100. *)
Abbreviation inflated_payload :=
  (mkPayload alice 1 84532 "0xcccccccccccccccccccccccccccccccccccccccc" 1700090000 None
     1700000000 "LIVING" "UNVERIFIED" (Qc_of_Z 100)).

Lemma identity_proof_is_tamper_evident_witness :
  data (served_reply (serve (generateProof hex_address lower_address SHA256.hex SHA256.hmac_hex
                               fraction_toString sample_config 1700090000 proof_request)
                        after_first_upload))
  = Some (ProofData sample_proof)
  ∧ verifyProof SHA256.hex SHA256.hmac_hex fraction_toString "server-secret" sample_proof = true
  ∧ verifyProof SHA256.hex SHA256.hmac_hex fraction_toString "server-secret"
      (with_payload inflated_payload sample_proof) = false.
Proof.
  assert (data (served_reply (serve (generateProof hex_address lower_address SHA256.hex
                                       SHA256.hmac_hex fraction_toString sample_config 1700090000
                                       proof_request) after_first_upload))
          = Some (ProofData sample_proof)) as Hdata by (vm_compute; reflexivity).
  split; [exact Hdata|].
  destruct (identity_proof_is_tamper_evident hex_address lower_address SHA256.hex SHA256.hmac_hex
              fraction_toString sample_config 1700090000 proof_request after_first_upload
              sample_proof Hdata)
    as (_ & _ & _ & _ & _ & _ & Hok & Htamper).
  split; [exact Hok|].
  apply Htamper.
  - intros Heq. apply (f_equal (λ p, Qnum (trust_score p))) in Heq. discriminate Heq.
  - intros Heq. vm_compute in Heq. discriminate Heq.
  - intros Heq. vm_compute in Heq. discriminate Heq.
Defined.

Example sample_proof_digest :
  JSON_stringify fraction_toString sample_payload
  = JSON_object
      [ ("agent_id", JSON_quote alice); ("backup_count", "1"); ("chain_id", "84532");
        ("contract_address", JSON_quote "0xcccccccccccccccccccccccccccccccccccccccc");
        ("issued_at", "1700090000"); ("last_heartbeat", "null");
        ("registered_at", "1700000000"); ("status", JSON_quote "LIVING");
        ("trust_level", JSON_quote "UNVERIFIED"); ("trust_score", "0") ]
  ∧ proof_hash sample_proof
    = "dd9cc28acbbb3de74c5783f93c5f55472b62927f067b8084d7eee0baf5f22740"
  ∧ server_signature sample_proof
    = "147f4278ad3864a9e8050828399f210d767bd99852f8016189176caba7a61516".
Proof. split_and!; vm_compute; reflexivity. Qed.

(** C5 (as stated) fails: one caller, with the same token and the same keys
    in the request, is registered under [bob] or under [dave] according to
    the [agentId] put in the body. *)
Lemma caller_chooses_agent_id :
  registeredId hex_address lower_address 1700000300
    (with_agentId bob (sample_register alice)) (sample_db "LIVING") = Some bob
  ∧ registeredId hex_address lower_address 1700000300
      (with_agentId dave (sample_register alice)) (sample_db "LIVING") = Some dave
  ∧ ¬ agent_id_not_chosen_by_caller hex_address lower_address.
Proof.
  assert (registeredId hex_address lower_address 1700000300
            (with_agentId bob (sample_register alice)) (sample_db "LIVING") = Some bob)
    as Hbob by (vm_compute; reflexivity).
  assert (registeredId hex_address lower_address 1700000300
            (with_agentId dave (sample_register alice)) (sample_db "LIVING") = Some dave)
    as Hdave by (vm_compute; reflexivity).
  split_and!; [done..|].
  intros Hclaim. specialize (Hclaim _ _ _ _ _ _ _ Hbob Hdave). discriminate Hclaim.
Qed.

Lemma registered_id_is_the_supplied_address_witness :
  success (served_reply (serve (registerAgent hex_address lower_address 1700000300
                                  (sample_register bob)) (sample_db "LIVING")))
  = true
  ∧ served_reply (serve (registerAgent hex_address lower_address 1700000300
                           (sample_register bob)) (sample_db "LIVING"))
    = succeed 201 (RegisterData bob 1700000300 "LIVING").
Proof.
  assert (success (served_reply (serve (registerAgent hex_address lower_address 1700000300
                                          (sample_register bob)) (sample_db "LIVING")))
          = true) as Hok by (vm_compute; reflexivity).
  split; [exact Hok|].
  destruct (registered_id_is_the_supplied_address hex_address lower_address 1700000300
              (sample_register bob) (sample_db "LIVING") Hok)
    as (supplied & row & Hbody & _ & _ & _ & _ & _ & Hreply).
  injection Hbody as <-. rewrite Hreply. reflexivity.
Defined.

Lemma upload_requires_active_agent_witness :
  getAgent alice (sample_db "FALLEN") = Some (alice_agent "FALLEN")
  ∧ success (served_reply (serve (uploadBackup accept_all sample_config
                                    (sample_env "u1" 1700000200) first_upload)
                             (sample_db "FALLEN")))
    = false
  ∧ backups (served_db (serve (uploadBackup accept_all sample_config
                                 (sample_env "u1" 1700000200) first_upload)
                          (sample_db "FALLEN")))
    = [].
Proof.
  assert (getAgent alice (sample_db "FALLEN") = Some (alice_agent "FALLEN")) as Hagent
    by reflexivity.
  split; [exact Hagent|].
  destruct (upload_requires_active_agent accept_all sample_config
              (sample_env "u1" 1700000200) first_upload (sample_db "FALLEN"))
    as [_ Hdead].
  destruct Hdead as (Hfail & _ & _ & Hrows).
  { right. exists (alice_agent "FALLEN"). split; [exact Hagent|by left]. }
  split; [exact Hfail|]. rewrite Hrows. reflexivity.
Defined.

Lemma upload_failure_is_atomic_witness :
  success (served_reply (serve (uploadBackup accept_all sample_config
                                  (sample_env "u2" 1700003800) first_upload)
                           after_first_upload))
  = false
  ∧ getBackupCount alice
      (served_db (serve (uploadBackup accept_all sample_config
                           (sample_env "u2" 1700003800) first_upload)
                    after_first_upload))
    = 1.
Proof.
  assert (success (served_reply (serve (uploadBackup accept_all sample_config
                                          (sample_env "u2" 1700003800) first_upload)
                                   after_first_upload))
          = false) as Hfail by (vm_compute; reflexivity).
  split; [exact Hfail|].
  destruct (upload_failure_is_atomic accept_all sample_config (sample_env "u2" 1700003800)
              first_upload after_first_upload Hfail) as (_ & _ & Hsame).
  destruct (Hsame alice) as (-> & _). reflexivity.
Defined.

Lemma trust_level_is_step_function_witness :
  (Qc_of_Z 20 ≤ Qc_of_Z 37)%Qc ∧ (Qc_of_Z 37 < Qc_of_Z 50)%Qc
  ∧ trustLevelOf (Qc_of_Z 37) = VERIFIED.
Proof.
  assert ((Qc_of_Z 20 ≤ Qc_of_Z 37)%Qc ∧ (Qc_of_Z 37 < Qc_of_Z 50)%Qc) as Hin
    by (split; by vm_compute).
  split_and!; [apply Hin..|].
  destruct (trust_level_is_step_function (Qc_of_Z 37)) as (_ & Hverified & _).
  exact (Hverified Hin).
Defined.

Abbreviation first_note := (DbAttestationNote.mk "0xhash" "vouched for alice" 1700000400).
Abbreviation repeated_note := (DbAttestationNote.mk "0xhash" "another text" 1700000500).

Lemma attestation_note_insert_is_idempotent_witness :
  DbAttestationNote.hash repeated_note = DbAttestationNote.hash first_note
  ∧ getAttestationNote "0xhash"
      (createAttestationNote repeated_note (createAttestationNote first_note empty_db))
    = Some first_note.
Proof.
  split; [reflexivity|].
  destruct (attestation_note_insert_is_idempotent first_note repeated_note empty_db eq_refl)
    as (_ & _ & _ & Hfirst).
  apply Hfirst. reflexivity.
Defined.

Lemma other_agents_data_is_refused_witness :
  toLowerCase (lower_address bob) ≠ toLowerCase alice
  ∧ served_reply (serve (listBackups hex_address lower_address (mkAgentRequest bob alice None))
                    after_first_upload)
    = failure 403 "Cannot list backups for another agent"
  ∧ code (served_reply (serve (generateProof hex_address lower_address SHA256.hex SHA256.hmac_hex
                                 fraction_toString sample_config 1700090000
                                 (mkAgentRequest bob alice None))
                          after_first_upload))
    = 403.
Proof.
  assert (toLowerCase (lower_address bob) ≠ toLowerCase alice) as Hdiff
    by (intros Heq; vm_compute in Heq; discriminate Heq).
  split; [exact Hdiff|]. split; [reflexivity|].
  destruct (other_agents_data_is_refused hex_address lower_address SHA256.hex SHA256.hmac_hex
              fraction_toString sample_config 1700090000 (mkAgentRequest bob alice None)
              after_first_upload Hdiff) as (_ & _ & _ & _ & _ & _ & Hcode).
  exact Hcode.
Defined.

(** ** The further properties on concrete requests *)

Abbreviation own_list_request := (mkAgentRequest alice alice None).


Lemma sample_db_reachable :
  reachable accept_all hex_address lower_address SHA256.hex SHA256.hmac_hex fraction_toString
    (sample_db "LIVING").
Proof. exists (sample_db "LIVING"), []. by split. Defined.




Lemma latest_backup_is_greatest_witness :
  hex_address alice = true
  ∧ toLowerCase (lower_address alice) = toLowerCase alice
  ∧ backups_of alice after_second_upload ≠ []
  ∧ ∃ latest,
      served_reply (serve (latestBackup hex_address lower_address own_list_request)
                      after_second_upload)
      = succeed 200 (LatestBackupData (backup_info latest))
      ∧ DbBackup.agent_id latest = alice.
Proof.
  assert (hex_address alice = true) as Hvalid by reflexivity.
  assert (toLowerCase (lower_address alice) = toLowerCase alice) as Hown by reflexivity.
  assert (backups_of alice after_second_upload ≠ []) as Hsome
    by (intros Hnil; vm_compute in Hnil; discriminate Hnil).
  split; [exact Hvalid|]. split; [exact Hown|]. split; [exact Hsome|].
  destruct (latest_backup_is_greatest hex_address lower_address own_list_request
              after_second_upload Hvalid Hown) as (_ & _ & Hlatest).
  destruct (Hlatest Hsome) as (latest & Hreply & _ & Hagent & _).
  exists latest. split; [exact Hreply|exact Hagent].
Defined.


Lemma accepted_upload_record_witness :
  success (served_reply (serve (uploadBackup accept_all sample_config
                                  (sample_env "u1" 1700000200) first_upload)
                           (sample_db "LIVING")))
  = true
  ∧ ∃ header,
      x_backup_header first_upload = HeaderDecoded header
      ∧ served_trace (serve (uploadBackup accept_all sample_config
                               (sample_env "u1" 1700000200) first_upload)
                        (sample_db "LIVING"))
        = [VerifySignature header alice].
Proof.
  assert (success (served_reply (serve (uploadBackup accept_all sample_config
                                          (sample_env "u1" 1700000200) first_upload)
                                   (sample_db "LIVING")))
          = true) as Hok by reflexivity.
  split; [exact Hok|].
  destruct (accepted_upload_record accept_all sample_config (sample_env "u1" 1700000200)
              first_upload (sample_db "LIVING") Hok)
    as (header & body & timestamp & manifest_hash & Hheader & _ & _ & _ & _ & Htrace & _).
  exists header. split; [exact Hheader|exact Htrace].
Defined.

Lemma daily_limit_names_hours_witness :
  code (served_reply (serve (uploadBackup accept_all sample_config
                               (sample_env "u2" 1700003800) first_upload)
                        after_first_upload))
  = 429
  ∧ ∃ latest (hours : Z),
      getLatestBackup alice after_first_upload = Some latest
      ∧ 1700003800 - DbBackup.received_at latest < 86400
      ∧ served_reply (serve (uploadBackup accept_all sample_config
                               (sample_env "u2" 1700003800) first_upload)
                        after_first_upload)
        = failure 429 ("Daily backup limit reached. Try again in "
                       +:+ pretty hours +:+ " hour(s).").
Proof.
  assert (code (served_reply (serve (uploadBackup accept_all sample_config
                                       (sample_env "u2" 1700003800) first_upload)
                                after_first_upload))
          = 429) as Hcode by reflexivity.
  split; [exact Hcode|].
  destruct (daily_limit_names_hours accept_all sample_config (sample_env "u2" 1700003800)
              first_upload after_first_upload Hcode)
    as (latest & hours & Hlatest & Hlt & _ & Hreply & _).
  exists latest, hours. split; [exact Hlatest|]. split; [exact Hlt|exact Hreply].
Defined.


Lemma second_registration_is_refused_witness :
  success (served_reply (serve (registerAgent hex_address lower_address 1700000300
                                  (sample_register bob))
                           (sample_db "LIVING")))
  = true
  ∧ served_reply
      (serve (registerAgent hex_address lower_address 1700000400 (sample_register bob))
         (served_db (serve (registerAgent hex_address lower_address 1700000300
                              (sample_register bob))
                       (sample_db "LIVING"))))
    = failure 409 "Agent already registered".
Proof.
  assert (success (served_reply (serve (registerAgent hex_address lower_address 1700000300
                                          (sample_register bob))
                                   (sample_db "LIVING")))
          = true) as Hok by reflexivity.
  split; [exact Hok|].
  destruct (second_registration_is_refused hex_address lower_address 1700000300
              (sample_register bob) (sample_db "LIVING") 1700000400 Hok) as [Hagain _].
  rewrite Hagain. reflexivity.
Defined.

Lemma empty_db_integrity : integrity empty_db.
Proof.
  unfold integrity, empty_db. cbn.
  split_and!; try apply NoDup_nil_2;
    try (intros ? Hin; by apply elem_of_nil in Hin);
    intros ? ? Hin; by rewrite lookup_empty in Hin.
Defined.

Lemma statements_keep_integrity_witness :
  integrity empty_db
  ∧ integrity
      (foldl (perform accept_all hex_address lower_address SHA256.hex SHA256.hmac_hex
                fraction_toString)
         empty_db
         [ CreateUser carol_user;
           Route (Register 1700000300 (sample_register bob));
           CreateHeartbeat bob 1700000310 1700000311 "0xbeat";
           Route (Upload sample_config (sample_env "u1" 1700000400)
                    (mkUpload bob (HeaderDecoded complete_header) (Some [Byte.x01]))) ]).
Proof.
  split; [exact empty_db_integrity|].
  exact (statements_keep_integrity accept_all hex_address lower_address SHA256.hex
           SHA256.hmac_hex fraction_toString empty_db _ empty_db_integrity).
Defined.

Lemma status_count_is_latest_sequence_witness :
  ∃ shown,
    (agentStatus hex_address lower_address alice (mkWorld after_first_upload [])).2
    = Continue shown
    ∧ status_backup_count shown = Z.of_nat (length (backups_of alice after_first_upload))
    ∧ status_backup_count shown = 1.
Proof.
  eexists. split; [reflexivity|].
  split; [|reflexivity].
  exact (proj1 (status_count_is_latest_sequence accept_all hex_address lower_address SHA256.hex
                  SHA256.hmac_hex fraction_toString alice (mkWorld after_first_upload []) _
                  after_first_upload_reachable eq_refl)).
Defined.

Lemma proof_agrees_with_status_witness :
  ∃ proof shown,
    data (served_reply (serve (generateProof hex_address lower_address SHA256.hex
                                 SHA256.hmac_hex fraction_toString sample_config 1700090000
                                 own_list_request)
                          after_first_upload))
    = Some (ProofData proof)
    ∧ (agentStatus hex_address lower_address alice (mkWorld after_first_upload [])).2
      = Continue shown
    ∧ backup_count (payload proof) = status_backup_count shown
    ∧ status (payload proof) = summary_status (status_agent shown).
Proof.
  eexists _, _. split; [reflexivity|]. split; [reflexivity|].
  destruct (proof_agrees_with_status hex_address lower_address SHA256.hex SHA256.hmac_hex
              fraction_toString sample_config 1700090000 own_list_request after_first_upload
              _ _ eq_refl eq_refl) as (_ & _ & Hstatus & Hcount & _).
  split; [exact Hcount|exact Hstatus].
Defined.

Lemma uploaded_backup_is_latest_witness :
  success (served_reply (serve (uploadBackup accept_all sample_config
                                  (sample_env "u1" 1700000200) first_upload)
                           (sample_db "LIVING")))
  = true
  ∧ ∃ row,
      getLatestBackup alice
        (served_db (serve (uploadBackup accept_all sample_config
                             (sample_env "u1" 1700000200) first_upload)
                      (sample_db "LIVING")))
      = Some row
      ∧ getBackup (DbBackup.id row)
          (served_db (serve (uploadBackup accept_all sample_config
                               (sample_env "u1" 1700000200) first_upload)
                        (sample_db "LIVING")))
        = Some row.
Proof.
  assert (success (served_reply (serve (uploadBackup accept_all sample_config
                                          (sample_env "u1" 1700000200) first_upload)
                                   (sample_db "LIVING")))
          = true) as Hok by reflexivity.
  split; [exact Hok|].
  destruct (uploaded_backup_is_latest accept_all hex_address lower_address SHA256.hex
              SHA256.hmac_hex fraction_toString sample_config (sample_env "u1" 1700000200)
              first_upload (sample_db "LIVING") sample_db_reachable Hok)
    as (row & _ & Hread & Hlatest & _).
  exists row. split; [exact Hlatest|exact Hread].
Defined.

Abbreviation erin_register :=
  (mkRegister (Some (mkJwt "github" (Some "gh-9"))) (Some bob) (Some key32) (Some key32) None).

Abbreviation erin_user := (DbUser.mk "gh-9" "erin" "2021-05-05" 1700000250).



(** ** The store and the configuration on concrete data *)

(** With a heartbeat received at 1700000501 and a threshold of one hour,
    the agent is fresh up to the second 1700004101 and stale after it. *)
Example stale_after_the_threshold :
  let db := default empty_db
              (createHeartbeat alice 1700000500 1700000501 "0xbeat" (sample_db "LIVING")) in
  getAgentsWithoutRecentHeartbeat 1700000000 3600 (sample_db "LIVING") = [alice_agent "LIVING"]
  ∧ getAgentsWithoutRecentHeartbeat 1700004101 3600 db = []
  ∧ getAgentsWithoutRecentHeartbeat 1700004102 3600 db = [alice_agent "LIVING"]
  ∧ getAgentsWithoutRecentHeartbeat 1700004102 3600 (updateAgentStatus alice "FALLEN" db) = [].
Proof. by vm_compute. Qed.

Example cleanup_at_the_boundary :
  let table : AuthChallenges :=
    {[ "n1" := DbAuthChallenge.mk "n1" alice 100 0;
       "n2" := DbAuthChallenge.mk "n2" alice 101 1 ]} in
  (cleanupExpiredChallenges 101 table).2 = 1
  ∧ getAuthChallenge "n1" (cleanupExpiredChallenges 101 table).1 = None
  ∧ getAuthChallenge "n2" (cleanupExpiredChallenges 101 table).1
    = Some (DbAuthChallenge.mk "n2" alice 101 1).
Proof. by vm_compute. Qed.

Example loadConfig_defaults :
  loadConfig decimal_parseInt
    {[ "JWT_SECRET" := "secret"; "GITHUB_CLIENT_ID" := "id"; "GITHUB_CLIENT_SECRET" := "cs";
       "PORT" := "8080"; "HOST" := "" ]}
  = Value (FullConfig.mk 8080 "0.0.0.0" "development" "" "./sanctuary.db" "secret" 86400
             "id" "cs" "https://sepolia.base.org" "" "" 84532 "" "https://node2.irys.xyz"
             300 30 5242880).
Proof. by vm_compute. Qed.

Example loadConfig_first_failure :
  loadConfig decimal_parseInt {[ "PORT" := "http" ]} = Throws "Invalid integer for PORT: http"
  ∧ loadConfig decimal_parseInt {[ "PORT" := "80"; "GITHUB_CLIENT_ID" := "id" ]}
    = Throws "Missing required environment variable: JWT_SECRET".
Proof. by vm_compute. Qed.

Example agent_status_of_alice :
  (agentStatus hex_address lower_address alice (mkWorld after_first_upload [])).2
  = Continue
      (mkAgentStatus
         (mkAgentSummary alice (Some "alice") key32 1 1700000000 "LIVING")
         (mkTrustSummary 0%Qc "UNVERIFIED" 0 None)
         1
         (Some (mkLatestSummary "u1" 1 "simulated_u1-tx" (Qc_of_Z 1700000100) 3))
         None).
Proof. reflexivity. Qed.
